(** * httpx: the request binder (bind.go)

    A shallow embedding of [DefaultRequestBinder] and of the part of Go's
    [reflect] and [strconv] packages it is written against, followed by the
    properties of the binder.

    Conventions of the embedding.
    - A Go value is a tree ([Value]); a pointer owns its pointee, so two
      pointers never alias.  Types ([type]) are finite trees as well: a
      struct type lists its fields, each with its own type.
    - A function that mutates its argument in place returns the new value.
    - A Go function may return or panic: [res A] is [Done a] or
      [Panicked p].  An [error] result is [option error], [None] being nil.
    - A [map[string][]string] is an association list whose order is the
      order in which [range] visits the entries; every [range] of one call
      is taken to visit them in that same order.  The theorems hold for
      every such list, hence for every order.
    - What lies outside the package is modelled as far as the binder uses
      it: [reflect] on the tree of a type, [strconv.ParseInt],
      [ParseUint] and [ParseBool] in base 10 on a 64-bit platform,
      [strings.EqualFold] on ASCII letters.  [strconv.ParseFloat] and the
      JSON and XML decoders are parameters. *)

From Stdlib Require Import ZArith Ascii String List Lia Bool DecimalString.
From Stdlib Require Import Floats.SpecFloat.
From stdpp Require Import base option list strings gmap.

Set Warnings "-register-all".

Open Scope string_scope.
Open Scope Z_scope.

(** ** Outcomes *)

Inductive panic : Type :=
| IndexOutOfRange          (* runtime error: index out of range *)
| ReflectPanic.            (* a panic raised inside package reflect *)

Inductive res (A : Type) : Type :=
| Done (a : A)
| Panicked (p : panic).
Arguments Done {A} a.
Arguments Panicked {A} p.

#[global] Instance res_ret : MRet res := fun A a => Done a.

#[global] Instance res_bind : MBind res := fun A B k m =>
  match m with
  | Done a => k a
  | Panicked p => Panicked p
  end.

#[global] Instance res_fmap : FMap res := fun A B f m =>
  match m with
  | Done a => Done (f a)
  | Panicked p => Panicked p
  end.

(** ** Errors (part of errors.go and the error values of the libraries) *)

Inductive error : Type :=
| errorString (s : string)                 (* errors.New(s) *)
| NumError (Func Num Err : string)         (* *strconv.NumError *)
| ForeignError (text : string)             (* an error made outside the package *)
| XMLUnsupportedTypeError (Type_ : string) (* *xml.UnsupportedTypeError *)
| XMLSyntaxError (Line : Z) (Msg : string) (* *xml.SyntaxError *)
| HTTPError (Err : option error) (Code : Z) (Message : message)
with message : Type :=
| StatusMessage (code : Z)                 (* strings.ToLower(http.StatusText(code)) *)
| ErrorMessage (e : error)                 (* e.Error() *)
| UnsupportedTypeMessage (e : error)       (* "Unsupported type error: type=%v, error=%v" *)
| SyntaxErrorMessage (e : error).          (* "Syntax error: line=%v, error=%v" *)

Definition StatusBadRequest : Z := 400.
Definition StatusUnsupportedMediaType : Z := 415.

(** [NewHTTPError(code)] and [NewHTTPError(code, message)]. *)
Definition NewHTTPError (code : Z) (message : option message) : error :=
  HTTPError None code (default (StatusMessage code) message).

(** [WrapHTTPError(err, code, message)]. *)
Definition WrapHTTPError (err : error) (code : Z) (message : message) : error :=
  match NewHTTPError code (Some message) with
  | HTTPError _ c m => HTTPError (Some err) c m
  | e => e
  end.

Definition ErrUnsupportedMediaType : error :=
  NewHTTPError StatusUnsupportedMediaType None.

Definition isHTTPError (e : error) : bool :=
  match e with HTTPError _ _ _ => true | _ => false end.

(** ** Package strconv, as far as the binder calls it *)

Module strconv.

Definition ErrSyntax : string := "invalid syntax".
Definition ErrRange : string := "value out of range".

(** The width of [int] and [uint]; a 64-bit platform. *)
Definition IntSize : Z := 64.

Definition digit (c : ascii) : option Z :=
  let n := Z.of_N (N_of_ascii c) in
  if (48 <=? n) && (n <=? 57) then Some (n - 48) else None.

(** The digit loop of [ParseUint] in base 10: the first byte that is no
    digit is a syntax error, the first prefix whose value exceeds
    [maxVal] is a range error, whichever comes first. *)
Fixpoint digits (fn s0 : string) (maxVal : Z) (s : string) (n : Z) : Z + error :=
  match s with
  | EmptyString => inl n
  | String c rest =>
      match digit c with
      | None => inr (NumError fn s0 ErrSyntax)
      | Some d =>
          let n1 := n * 10 + d in
          if maxVal <? n1 then inr (NumError fn s0 ErrRange)
          else digits fn s0 maxVal rest n1
      end
  end.

Definition width (bitSize : Z) : Z :=
  if bitSize =? 0 then IntSize else bitSize.

(** [strconv.Itoa]. *)
Definition Itoa (i : Z) : string := NilZero.string_of_int (Z.to_int i).

(** [strconv.ParseUint(s, 10, bitSize)]; [fn] and [s0] are the function
    and the string that an error names. *)
Definition ParseUintAs (fn s0 s : string) (bitSize : Z) : Z + error :=
  match s with
  | EmptyString => inr (NumError fn s0 ErrSyntax)
  | _ =>
      if (bitSize <? 0) || (64 <? bitSize)
      then inr (NumError fn s0 ("invalid bit size " ++ Itoa bitSize))
      else digits fn s0 (2 ^ width bitSize - 1) s 0
  end.

Definition ParseUint (s : string) (bitSize : Z) : Z + error :=
  ParseUintAs "ParseUint" s s bitSize.

(** [strconv.ParseInt(s, 10, bitSize)]: an optional sign, then the
    unsigned digits, then the check against the signed range. *)
Definition ParseInt (s : string) (bitSize : Z) : Z + error :=
  match s with
  | EmptyString => inr (NumError "ParseInt" s ErrSyntax)
  | String c rest =>
      let neg := Ascii.eqb c "-"%char in
      let s' := if Ascii.eqb c "+"%char || neg then rest else s in
      match ParseUintAs "ParseInt" s s' bitSize with
      | inr e => inr e
      | inl un =>
          let cutoff := 2 ^ (width bitSize - 1) in
          if negb neg && (cutoff <=? un) then inr (NumError "ParseInt" s ErrRange)
          else if neg && (cutoff <? un) then inr (NumError "ParseInt" s ErrRange)
          else inl (if neg then - un else un)
      end
  end.

(** [strconv.ParseBool]. *)
Definition ParseBool (s : string) : bool + error :=
  if existsb (String.eqb s) ["1"; "t"; "T"; "TRUE"; "true"; "True"] then inl true
  else if existsb (String.eqb s) ["0"; "f"; "F"; "FALSE"; "false"; "False"] then inl false
  else inr (NumError "ParseBool" s ErrSyntax).

End strconv.

(** [strings.EqualFold] on ASCII text: equality after folding the letters
    A-Z to a-z.  Bytes outside ASCII are compared as they are. *)
Definition foldByte (c : ascii) : N :=
  let n := N_of_ascii c in
  if ((65 <=? n) && (n <=? 90))%N then (n + 32)%N else n.

Fixpoint EqualFold (s t : string) : bool :=
  match s, t with
  | EmptyString, EmptyString => true
  | String a s', String b t' => (foldByte a =? foldByte b)%N && EqualFold s' t'
  | _, _ => false
  end.

Definition HasPrefix (s p : string) : bool := String.prefix p s.

(** ** Package reflect, as far as the binder calls it *)

Inductive Kind : Type :=
| Invalid | Bool
| Int | Int8 | Int16 | Int32 | Int64
| Uint | Uint8 | Uint16 | Uint32 | Uint64 | Uintptr
| Float32 | Float64 | Complex64 | Complex128
| Array | Chan | Func | Interface | Map | Ptr | Slice | String_ | Struct
| UnsafePointer.

#[global] Instance Kind_eq_dec : EqDecision Kind.
Proof. solve_decision. Defined.

(** The kinds whose types the binder never looks into. *)
Inductive basic : Type :=
| BBool
| BInt | BInt8 | BInt16 | BInt32 | BInt64
| BUint | BUint8 | BUint16 | BUint32 | BUint64 | BUintptr
| BFloat32 | BFloat64 | BComplex64 | BComplex128
| BArray | BChan | BFunc | BString | BUnsafePointer.

Definition basicKind (b : basic) : Kind :=
  match b with
  | BBool => Bool
  | BInt => Int | BInt8 => Int8 | BInt16 => Int16 | BInt32 => Int32 | BInt64 => Int64
  | BUint => Uint | BUint8 => Uint8 | BUint16 => Uint16 | BUint32 => Uint32
  | BUint64 => Uint64 | BUintptr => Uintptr
  | BFloat32 => Float32 | BFloat64 => Float64
  | BComplex64 => Complex64 | BComplex128 => Complex128
  | BArray => Array | BChan => Chan | BFunc => Func
  | BString => String_ | BUnsafePointer => UnsafePointer
  end.

(** Values.  [VPtr None] is a nil pointer, [VMap None] a nil map; a nil
    slice is the empty slice.  An interface that holds a value is that
    value; [VOpaque] stands for the values the binder cannot write. *)
Inductive Value : Type :=
| VBool (b : bool)
| VInt (n : Z)
| VUint (n : Z)
| VFloat (x : spec_float)
| VString (s : string)
| VPtr (p : option Value)
| VSlice (elems : list Value)
| VMap (m : option (gmap string Value))
| VStruct (fields : list Value)
| VOpaque.

(** A method with a pointer receiver that decodes a string into the
    receiver: the new value of the receiver and the error it returns. *)
Definition unmarshaler : Type := string -> Value -> Value * option error.

(** What a type declaration adds to the shape of a type: the package of a
    defined type (empty for predeclared and unnamed types) and, of the
    methods of [*T], the two the binder asks for. *)
Record decl : Type := {
  TPkgPath : string;
  UnmarshalParam : option unmarshaler;   (* BindUnmarshaler *)
  UnmarshalText : option unmarshaler     (* encoding.TextUnmarshaler *)
}.

Definition plain : decl :=
  {| TPkgPath := ""; UnmarshalParam := None; UnmarshalText := None |}.

(** [reflect.StructTag] after parsing: the key/value pairs in order. *)
Definition StructTag : Type := list (string * string).

Fixpoint Get (tag : StructTag) (key : string) : string :=
  match tag with
  | [] => ""
  | (k, v) :: rest => if String.eqb k key then v else Get rest key
  end.

Record StructFieldOf (T : Type) : Type := {
  Name : string;
  PkgPath : string;      (* empty for an exported field *)
  Type_ : T;
  Tag : StructTag;
  Anonymous : bool
}.
Arguments Name {T} _.
Arguments PkgPath {T} _.
Arguments Type_ {T} _.
Arguments Tag {T} _.
Arguments Anonymous {T} _.

Inductive type : Type :=
| TBasic (b : basic) (d : decl)
| TInterface (methods : list string)
| TPtr (elem : type)
| TSlice (elem : type) (d : decl)
| TMap (key elem : type) (d : decl)
| TStruct (fields : list (StructFieldOf type)) (d : decl).

Abbreviation StructField := (StructFieldOf type).

Definition kindOf (t : type) : Kind :=
  match t with
  | TBasic b _ => basicKind b
  | TInterface _ => Interface
  | TPtr _ => Ptr
  | TSlice _ _ => Slice
  | TMap _ _ _ => Map
  | TStruct _ _ => Struct
  end.

(** The declaration that gives [*T] its methods; a pointer to a pointer or
    to an interface has none. *)
Definition declOf (t : type) : decl :=
  match t with
  | TBasic _ d | TSlice _ d | TMap _ _ d | TStruct _ d => d
  | TInterface _ | TPtr _ => plain
  end.

(** [reflect.Zero]. *)
Fixpoint zero (t : type) : Value :=
  match t with
  | TBasic b _ =>
      match b with
      | BBool => VBool false
      | BInt | BInt8 | BInt16 | BInt32 | BInt64 => VInt 0
      | BUint | BUint8 | BUint16 | BUint32 | BUint64 | BUintptr => VUint 0
      | BFloat32 | BFloat64 => VFloat (S754_zero false)
      | BString => VString ""
      | _ => VOpaque
      end
  | TInterface _ => VOpaque
  | TPtr _ => VPtr None
  | TSlice _ _ => VSlice []
  | TMap _ _ _ => VMap None
  | TStruct fields _ => VStruct (map (fun f => zero (Type_ f)) fields)
  end.

(** The width in bits of the integer kinds. *)
Definition bits (k : Kind) : option Z :=
  match k with
  | Int8 | Uint8 => Some 8
  | Int16 | Uint16 => Some 16
  | Int32 | Uint32 => Some 32
  | Int | Int64 | Uint | Uint64 | Uintptr => Some 64
  | _ => None
  end.

(** Conversion of an [int64] to a signed integer of [w] bits. *)
Definition wrapInt (w x : Z) : Z :=
  (x + 2 ^ (w - 1)) mod 2 ^ w - 2 ^ (w - 1).

(** [Value.SetInt]: panics unless the kind is a signed integer kind. *)
Definition SetInt (t : type) (x : Z) : res Value :=
  match kindOf t with
  | Int | Int8 | Int16 | Int32 | Int64 =>
      Done (VInt (wrapInt (default 64 (bits (kindOf t))) x))
  | _ => Panicked ReflectPanic
  end.

(** [Value.SetUint]. *)
Definition SetUint (t : type) (x : Z) : res Value :=
  match kindOf t with
  | Uint | Uint8 | Uint16 | Uint32 | Uint64 | Uintptr =>
      Done (VUint (x mod 2 ^ default 64 (bits (kindOf t))))
  | _ => Panicked ReflectPanic
  end.

(** [Value.SetBool]. *)
Definition SetBool (t : type) (x : bool) : res Value :=
  match kindOf t with
  | Bool => Done (VBool x)
  | _ => Panicked ReflectPanic
  end.

(** [Value.SetFloat].  The conversion to [float32] is the identity on what
    [ParseFloat(s, 32)] returns. *)
Definition SetFloat (t : type) (x : spec_float) : res Value :=
  match kindOf t with
  | Float32 | Float64 => Done (VFloat x)
  | _ => Panicked ReflectPanic
  end.

(** [Value.SetString]. *)
Definition SetString (t : type) (x : string) : res Value :=
  match kindOf t with
  | String_ => Done (VString x)
  | _ => Panicked ReflectPanic
  end.

(** Whether a value of type [string] may be assigned to a variable of type
    [t]: [t] is [string] itself or an interface without methods. *)
Definition stringAssignable (t : type) : bool :=
  match t with
  | TBasic BString d => String.eqb (TPkgPath d) ""
  | TInterface [] => true
  | _ => false
  end.

(** [m.SetMapIndex(reflect.ValueOf(k), reflect.ValueOf(s))] on a map of
    type [map[key]elem]. *)
Definition SetMapIndex (key elem : type) (v : Value) (k s : string) : res Value :=
  match v with
  | VMap (Some m) =>
      if stringAssignable key && stringAssignable elem
      then Done (VMap (Some (<[k := VString s]> m)))
      else Panicked ReflectPanic
  | _ => Panicked ReflectPanic
  end.

(** [s[i]] on a slice of strings. *)
Definition index (s : list string) (i : nat) : res string :=
  match s !! i with
  | Some x => Done x
  | None => Panicked IndexOutOfRange
  end.

(** ** The value multi-map ([url.Values]) *)

Definition Values : Type := list (string * list string).

(** [data[key]], with the flag that tells whether the key is present. *)
Fixpoint mapIndex (data : Values) (key : string) : option (list string) :=
  match data with
  | [] => None
  | (k, v) :: rest => if String.eqb k key then Some v else mapIndex rest key
  end.

(** The loop [for k, v := range data] of lines 151-157: the first entry
    whose key equals the name up to case. *)
Fixpoint rangeEqualFold (data : Values) (inputFieldName : string) : option (list string) :=
  match data with
  | [] => None
  | (k, v) :: rest =>
      if EqualFold k inputFieldName then Some v
      else rangeEqualFold rest inputFieldName
  end.

(** Lines 146-158: [inputValue] when [exists] is true. *)
Definition lookupInput (data : Values) (inputFieldName : string) : option (list string) :=
  match mapIndex data inputFieldName with
  | Some v => Some v
  | None => rangeEqualFold data inputFieldName
  end.

(** ** The coercer (bind.go, lines 190-304) *)

Section Binder.

(** [strconv.ParseFloat] is taken as it is. *)
Variable ParseFloat : string -> Z -> spec_float + error.

Definition setIntField (value : string) (bitSize : Z) (t : type) (field : Value)
  : res (Value * option error) :=
  let value := if String.eqb value "" then "0" else value in
  match strconv.ParseInt value bitSize with
  | inl intVal => field' ← SetInt t intVal; Done (field', None)
  | inr err => Done (field, Some err)
  end.

Definition setUintField (value : string) (bitSize : Z) (t : type) (field : Value)
  : res (Value * option error) :=
  let value := if String.eqb value "" then "0" else value in
  match strconv.ParseUint value bitSize with
  | inl uintVal => field' ← SetUint t uintVal; Done (field', None)
  | inr err => Done (field, Some err)
  end.

Definition setBoolField (value : string) (t : type) (field : Value)
  : res (Value * option error) :=
  let value := if String.eqb value "" then "false" else value in
  match strconv.ParseBool value with
  | inl boolVal => field' ← SetBool t boolVal; Done (field', None)
  | inr err => Done (field, Some err)
  end.

Definition setFloatField (value : string) (bitSize : Z) (t : type) (field : Value)
  : res (Value * option error) :=
  let value := if String.eqb value "" then "0.0" else value in
  match ParseFloat value bitSize with
  | inl floatVal => field' ← SetFloat t floatVal; Done (field', None)
  | inr err => Done (field, Some err)
  end.

(** The field has type [t]; [field.Addr().Interface()] is a [*t]. *)
Definition unmarshalFieldNonPtr (value : string) (t : type) (field : Value)
  : Value * (bool * option error) :=
  match UnmarshalParam (declOf t) with
  | Some unmarshaler =>
      let '(field', err) := unmarshaler value field in (field', (true, err))
  | None =>
      match UnmarshalText (declOf t) with
      | Some unmarshaler =>
          let '(field', err) := unmarshaler value field in (field', (true, err))
      | None => (field, (false, None))
      end
  end.

(** [field.IsNil()], [field.Set(reflect.New(..))] and [field.Elem()]
    panic on a field that is no pointer. *)
Definition unmarshalFieldPtr (value : string) (t : type) (field : Value)
  : res (Value * (bool * option error)) :=
  match t, field with
  | TPtr elem, VPtr p =>
      let pointee := match p with
                     | None => zero elem
                     | Some x => x
                     end in
      let '(pointee', r) := unmarshalFieldNonPtr value elem pointee in
      Done (VPtr (Some pointee'), r)
  | _, _ => Panicked ReflectPanic
  end.

Definition unmarshalField (valueKind : Kind) (val : string) (t : type) (field : Value)
  : res (Value * (bool * option error)) :=
  match valueKind with
  | Ptr => unmarshalFieldPtr val t field
  | _ => Done (unmarshalFieldNonPtr val t field)
  end.

Definition errUnknownType : error := errorString "unknown type".

Fixpoint setWithProperType (valueKind : Kind) (val : string) (t : type)
    (structField : Value) {struct t} : res (Value * option error) :=
  '(structField, (ok, err)) ← unmarshalField valueKind val t structField;
  if ok : bool then Done (structField, err) else
  match valueKind with
  | Ptr =>
      match t, structField with
      | TPtr elem, VPtr (Some pointee) =>
          '(pointee', err) ← setWithProperType (kindOf elem) val elem pointee;
          Done (VPtr (Some pointee'), err)
      | _, _ => Panicked ReflectPanic
      end
  | Int => setIntField val 0 t structField
  | Int8 => setIntField val 8 t structField
  | Int16 => setIntField val 16 t structField
  | Int32 => setIntField val 32 t structField
  | Int64 => setIntField val 64 t structField
  | Uint => setUintField val 0 t structField
  | Uint8 => setUintField val 8 t structField
  | Uint16 => setUintField val 16 t structField
  | Uint32 => setUintField val 32 t structField
  | Uint64 => setUintField val 64 t structField
  | Bool => setBoolField val t structField
  | Float32 => setFloatField val 32 t structField
  | Float64 => setFloatField val 64 t structField
  | String_ => structField' ← SetString t val; Done (structField', None)
  | _ => Done (structField, Some errUnknownType)
  end.

(** ** The field walker (bind.go, lines 91-188) *)

Definition errNotStruct : error := errorString "binding element must be a struct".
Definition errAnonymousTag : error :=
  errorString "query/form tags are not allowed with anonymous struct field".

(** What one pass of the loop over the fields does next. *)
Inductive step : Type :=
| Continue
| Return (err : error).

Definition stepOf (err : option error) : step :=
  match err with
  | Some e => Return e
  | None => Continue
  end.

(** Lines 176-180: the loop over [j], [n] passes being left. *)
Fixpoint setElems (sliceOf : type) (inputValue : list string) (n j : nat)
    (slice : list Value) : res (list Value * option error) :=
  match n with
  | O => Done (slice, None)
  | S n' =>
      x ← index inputValue j;
      match slice !! j with
      | None => Panicked ReflectPanic
      | Some e =>
          '(e', err) ← setWithProperType (kindOf sliceOf) x sliceOf e;
          match err with
          | Some _ => Done (<[j := e']> slice, err)
          | None => setElems sliceOf inputValue n' (S j) (<[j := e']> slice)
          end
      end
  end.

(** [CanSet] of a field of an addressable struct. *)
Definition CanSet (typeField : StructField) : bool :=
  String.eqb (PkgPath typeField) "".

(** [_, ok := structField.Addr().Interface().(BindUnmarshaler)]. *)
Definition isBindUnmarshaler (t : type) : bool :=
  match UnmarshalParam (declOf t) with
  | Some _ => true
  | None => false
  end.

Section Walk.

Variable data : Values.
Variable tag : string.
(** The call [b.bindData(structField.Addr().Interface(), data, tag)]. *)
Variable bindNested : type -> Value -> res (Value * option error).

(** Lines 164-185.  [t] and [structField] are the type and the value of
    the field after line 123; [back] puts the new value of
    [structField] into [val.Field(i)].  The kind of [t] is [Slice] exactly
    when [t] is a [TSlice]. *)
Definition bindInput (typeField : StructField) (t : type) (structField : Value)
    (back : Value -> Value) (inputValue : list string) : res (Value * step) :=
  x ← index inputValue 0;
  '(structField, (ok, err)) ← unmarshalField (kindOf (Type_ typeField)) x t structField;
  if ok : bool then Done (back structField, stepOf err) else
  let numElems := length inputValue in
  match t with
  | TSlice sliceOf _ =>
      if (0 <? numElems)%nat then
        '(slice, err) ← setElems sliceOf inputValue numElems 0
                           (replicate numElems (zero sliceOf));
        match err with
        | Some e => Done (back structField, Return e)
        | None => Done (VSlice slice, Continue)
        end
      else
        '(structField, err) ←
          setWithProperType (kindOf (Type_ typeField)) x t structField;
        Done (back structField, stepOf err)
  | _ =>
      '(structField, err) ←
        setWithProperType (kindOf (Type_ typeField)) x t structField;
      Done (back structField, stepOf err)
  end.

(** Lines 124-185, for a valid [structField]. *)
Definition bindSettable (typeField : StructField) (field : Value) (t : type)
    (structField : Value) (back : Value -> Value) : res (Value * step) :=
  if negb (CanSet typeField) then Done (field, Continue) else
  let structFieldKind := kindOf t in
  let inputFieldName := Get (Tag typeField) tag in
  if Anonymous typeField && bool_decide (structFieldKind = Struct)
     && negb (String.eqb inputFieldName "")
  then Done (field, Return errAnonymousTag) else
  if String.eqb inputFieldName "" then
    if negb (isBindUnmarshaler t) && bool_decide (structFieldKind = Struct) then
      '(structField, err) ← bindNested t structField;
      Done (back structField, stepOf err)
    else Done (field, Continue)
  else
  match lookupInput data inputFieldName with
  | None => Done (field, Continue)
  | Some inputValue => bindInput typeField t structField back inputValue
  end.

(** One pass of the loop of line 116 on the field [typeField] whose
    value is [field]: the new value of the field and what to do next.
    The [Elem] of a nil pointer is the zero [Value], which cannot be
    set. *)
Definition bindField (typeField : StructField) (field : Value) : res (Value * step) :=
  if Anonymous typeField && bool_decide (kindOf (Type_ typeField) = Ptr) then
    match Type_ typeField, field with
    | TPtr elem, VPtr (Some pointee) =>
        bindSettable typeField field elem pointee (fun x => VPtr (Some x))
    | TPtr elem, VPtr None => Done (field, Continue)
    | _, _ => Panicked ReflectPanic
    end
  else bindSettable typeField field (Type_ typeField) field (fun x => x).

(** The loop of line 116 from field [i] on; [fields] are the fields from
    [i] on and [vals] the values of all the fields. *)
Fixpoint walk (fields : list StructField) (i : nat) (vals : list Value)
  : res (list Value * option error) :=
  match fields with
  | [] => Done (vals, None)
  | typeField :: rest =>
      match vals !! i with
      | None => Panicked ReflectPanic
      | Some field =>
          '(field', next) ← bindField typeField field;
          match next with
          | Return err => Done (<[i := field']> vals, Some err)
          | Continue => walk rest (S i) (<[i := field']> vals)
          end
      end
  end.

End Walk.

(** Lines 100-103: [range data] with [val.SetMapIndex]. *)
Fixpoint setEntries (key elem : type) (data : Values) (val : Value) : res Value :=
  match data with
  | [] => Done val
  | (k, v) :: rest =>
      x ← index v 0;
      val' ← SetMapIndex key elem val k x;
      setEntries key elem rest val'
  end.

(** [bindData] on a destination that points at [val], of type [typ]. *)
Fixpoint bindDataAt (data : Values) (tag : string) (typ : type) (val : Value)
    {struct typ} : res (Value * option error) :=
  if (length data =? 0)%nat then Done (val, None) else
  match typ with
  | TMap key elem _ =>
      val' ← setEntries key elem data val; Done (val', None)
  | TStruct fields _ =>
      match val with
      | VStruct vals =>
          '(vals', err) ← walk data tag (bindDataAt data tag) fields 0 vals;
          Done (VStruct vals', err)
      | _ => Panicked ReflectPanic
      end
  | _ =>
      if String.eqb tag "query" then Done (val, None)
      else Done (val, Some errNotStruct)
  end.

(** What the caller passes as [destination any]. *)
Inductive Destination : Type :=
| NilInterface                          (* nil *)
| NonPointer (t : type) (v : Value)     (* a value that is no pointer *)
| Pointer (t : type) (p : option Value) (* a [*t], nil or not *).

(** [bindData].  On a nil [*t], [val] is the zero [Value]. *)
Definition bindData (destination : Destination) (data : Values) (tag : string)
  : res (Destination * option error) :=
  match destination with
  | NilInterface => Done (destination, None)
  | NonPointer _ _ =>
      if (length data =? 0)%nat then Done (destination, None)
      else Panicked ReflectPanic
  | Pointer typ None =>
      if (length data =? 0)%nat then Done (destination, None) else
      match typ with
      | TMap _ _ _ =>
          match data with
          | (_, v) :: _ => _ ← index v 0; Panicked ReflectPanic
          | [] => Done (destination, None)
          end
      | TStruct [] _ => Done (destination, None)
      | TStruct (_ :: _) _ => Panicked ReflectPanic
      | _ =>
          if String.eqb tag "query" then Done (destination, None)
          else Done (destination, Some errNotStruct)
      end
  | Pointer typ (Some val) =>
      '(val', err) ← bindDataAt data tag typ val;
      Done (Pointer typ (Some val'), err)
  end.

End Binder.

(** ** The request (request.go) and the source dispatcher (bind.go, lines 25-89) *)

Definition MethodPost : string := "POST".
Definition MethodPut : string := "PUT".
Definition MethodPatch : string := "PATCH".

(** Modelled from the spec: the MIME constants of the package, which are
    declared in a file that is not part of the sources at hand; section 4.1
    gives the five content-type prefixes. *)
Definition MIMEApplicationJSON : string := "application/json".
Definition MIMEApplicationXML : string := "application/xml".
Definition MIMETextXML : string := "text/xml".
Definition MIMEApplicationForm : string := "application/x-www-form-urlencoded".
Definition MIMEMultipartForm : string := "multipart/form-data".

(** The request as the binder reads it.  [ParseForm] and
    [ParseMultipartForm] hold what the call of that name leaves in [r.Form],
    or the error it returns; [Query] is [URL.Query()]. *)
Record Request : Type := {
  Method : string;
  ContentLength : Z;
  ContentType : string;          (* Header.Get(HeaderContentType) *)
  Body : string;
  Query : Values;
  ParseForm : Values + error;
  ParseMultipartForm : Values + error
}.

Definition QueryParams (r : Request) : Values := Query r.

Definition FormParams (r : Request) : Values + error :=
  if HasPrefix (ContentType r) MIMEMultipartForm then ParseMultipartForm r
  else ParseForm r.

Section Dispatcher.

Variable ParseFloat : string -> Z -> spec_float + error.

(** [json.NewDecoder(body).Decode(i)] and [xml.NewDecoder(body).Decode(i)]
    are taken as they are: the new state of [i] and the error. *)
Variable jsonDecode : string -> Destination -> Destination * option error.
Variable xmlDecode : string -> Destination -> Destination * option error.

Definition BindBody (req : Request) (i : Destination) : res (Destination * option error) :=
  if ContentLength req =? 0 then Done (i, None) else
  let ctype := ContentType req in
  if HasPrefix ctype MIMEApplicationJSON then
    let '(i, err) := jsonDecode (Body req) i in
    match err with
    | Some e =>
        if isHTTPError e then Done (i, Some e)
        else Done (i, Some (WrapHTTPError e StatusBadRequest (ErrorMessage e)))
    | None => Done (i, None)
    end
  else if HasPrefix ctype MIMEApplicationXML || HasPrefix ctype MIMETextXML then
    let '(i, err) := xmlDecode (Body req) i in
    match err with
    | Some (XMLUnsupportedTypeError _ as e) =>
        Done (i, Some (WrapHTTPError e StatusBadRequest (UnsupportedTypeMessage e)))
    | Some (XMLSyntaxError _ _ as e) =>
        Done (i, Some (WrapHTTPError e StatusBadRequest (SyntaxErrorMessage e)))
    | Some e => Done (i, Some (WrapHTTPError e StatusBadRequest (ErrorMessage e)))
    | None => Done (i, None)
    end
  else if HasPrefix ctype MIMEApplicationForm || HasPrefix ctype MIMEMultipartForm then
    match FormParams req with
    | inr err => Done (i, Some (WrapHTTPError err StatusBadRequest (ErrorMessage err)))
    | inl params =>
        '(i, err) ← bindData ParseFloat i params "form";
        match err with
        | Some e => Done (i, Some (WrapHTTPError e StatusBadRequest (ErrorMessage e)))
        | None => Done (i, None)
        end
    end
  else Done (i, Some ErrUnsupportedMediaType).

Definition BindQueryParams (req : Request) (i : Destination)
  : res (Destination * option error) :=
  '(i, err) ← bindData ParseFloat i (QueryParams req) "query";
  match err with
  | Some e => Done (i, Some (WrapHTTPError e StatusBadRequest (ErrorMessage e)))
  | None => Done (i, None)
  end.

Definition Bind (req : Request) (v : Destination) : res (Destination * option error) :=
  let method := Method req in
  if String.eqb method MethodPost || String.eqb method MethodPut
     || String.eqb method MethodPatch
  then
    '(v, err) ← BindBody req v;
    match err with
    | Some e => Done (v, Some e)
    | None => BindQueryParams req v
    end
  else BindQueryParams req v.

End Dispatcher.

(** ** Sample types, values and requests *)

Module Sample.

(** A stand-in for [strconv.ParseFloat] that reads three literals and
    rejects every other string. *)
Definition ParseFloat (s : string) (bitSize : Z) : spec_float + error :=
  if String.eqb s "0.0" || String.eqb s "0" then inl (S754_zero false)
  else if String.eqb s "1" then inl (S754_finite false 1 0)
  else inr (NumError "ParseFloat" s strconv.ErrSyntax).

Definition one : spec_float := S754_finite false 1 0.

Definition field (name : string) (t : type) (tag : StructTag) : StructField :=
  {| Name := name; PkgPath := ""; Type_ := t; Tag := tag; Anonymous := false |}.

Definition embedded (name : string) (t : type) (tag : StructTag) : StructField :=
  {| Name := name; PkgPath := ""; Type_ := t; Tag := tag; Anonymous := true |}.

Definition main : decl :=
  {| TPkgPath := "main"; UnmarshalParam := None; UnmarshalText := None |}.

Definition tInt : type := TBasic BInt plain.
Definition tInt8 : type := TBasic BInt8 plain.
Definition tFloat64 : type := TBasic BFloat64 plain.
Definition tString : type := TBasic BString plain.

(** [type Inner struct { X int `query:"x"` }] *)
Definition tInner : type := TStruct [field "X" tInt [("query", "x")]] main.

(** [type Outer struct { Inner `query:"inner"` }] *)
Definition fEmbedded : StructField := embedded "Inner" tInner [("query", "inner")].
Definition tOuter : type := TStruct [fEmbedded] main.
Definition vOuter : Value := VStruct [VStruct [VInt 0]].

(** [Inner Inner], a named field without a tag. *)
Definition fNested : StructField := field "Inner" tInner [].

(** A method that stores the text in the first field of its receiver. *)
Definition storeText : unmarshaler := fun text _ => (VStruct [VString text], None).

(** [type Stamp struct { Raw string `query:"raw"` }] with the method
    [func (s *Stamp) UnmarshalText(text []byte) error]. *)
Definition tStamp : type :=
  TStruct [field "Raw" tString [("query", "raw")]]
    {| TPkgPath := "main"; UnmarshalParam := None; UnmarshalText := Some storeText |}.
Definition fWhen : StructField := field "When" tStamp [].

(** [type ID struct { Raw string `query:"raw"` }] with the method
    [func (id *ID) UnmarshalParam(param string) error]. *)
Definition tID : type :=
  TStruct [field "Raw" tString [("query", "raw")]]
    {| TPkgPath := "main"; UnmarshalParam := Some storeText; UnmarshalText := None |}.
Definition fID : StructField := field "ID" tID [].

Definition fNote : StructField := field "Note" tString [].

(** [name string `query:"name"`] and [ids []int `query:"ids"`], two fields
    that are not exported. *)
Definition fname : StructField :=
  {| Name := "name"; PkgPath := "main"; Type_ := tString;
     Tag := [("query", "name")]; Anonymous := false |}.
Definition fids : StructField :=
  {| Name := "ids"; PkgPath := "main"; Type_ := TSlice tInt plain;
     Tag := [("query", "ids")]; Anonymous := false |}.

(** [inner Inner], a named field that is not exported, and
    [type inner struct { X int `query:"x"` }] embedded with a tag, which
    is not exported either. *)
Definition finner : StructField :=
  {| Name := "inner"; PkgPath := "main"; Type_ := tInner; Tag := [];
     Anonymous := false |}.
Definition fembedded : StructField :=
  {| Name := "inner"; PkgPath := "main"; Type_ := tInner;
     Tag := [("query", "inner")]; Anonymous := true |}.

(** [*Inner], embedded without a tag. *)
Definition fInnerPtr : StructField := embedded "Inner" (TPtr tInner) [].

(** [type Count int], embedded as [*Count `query:"count"`]. *)
Definition tCount : type := TBasic BInt main.
Definition fCount : StructField := embedded "Count" (TPtr tCount) [("query", "count")].
Definition fName : StructField := field "Name" tString [("query", "Name")].
Definition fIDs : StructField := field "IDs" (TSlice tInt plain) [("query", "ids")].

(** [type Todo struct { Status string `form:"status" query:"status"`;
    N int `form:"n"` }] *)
Definition fStatus : StructField :=
  field "Status" tString [("form", "status"); ("query", "status")].
Definition fN : StructField := field "N" tInt [("form", "n")].
Definition tTodo : type := TStruct [fStatus; fN] main.
Definition vTodo : Value := VStruct [VString ""; VInt 0].

Definition dq : string := String (ascii_of_nat 34) EmptyString.
Definition quoted (s : string) : string := dq ++ s ++ dq.

(** The JSON document with the one member [Status], of value [pending]. *)
Definition jsonBody : string :=
  "{" ++ quoted "Status" ++ ":" ++ quoted "pending" ++ "}".

(** A stand-in for the JSON decoder that reads [jsonBody] into a struct
    whose first field is [Status] and rejects every other document. *)
Definition jsonDecode (body : string) (i : Destination) : Destination * option error :=
  match i with
  | Pointer t (Some (VStruct (_ :: rest))) =>
      if String.eqb body jsonBody
      then (Pointer t (Some (VStruct (VString "pending" :: rest))), None)
      else (i, Some (ForeignError "invalid character"))
  | _ => (i, Some (ForeignError "json: Unmarshal(non-pointer)"))
  end.

Definition xmlDecode (body : string) (i : Destination) : Destination * option error :=
  (i, Some (XMLSyntaxError 1 "unexpected EOF")).

(** [PUT /todos?status=done] with the body [jsonBody]. *)
Definition reqPut : Request :=
  {| Method := "PUT"; ContentLength := 20; ContentType := "application/json";
     Body := jsonBody; Query := [("status", ["done"])];
     ParseForm := inl [("status", ["done"])];
     ParseMultipartForm := inr (ForeignError "request Content-Type isn't multipart/form-data") |}.

(** [POST /todos?status=done] with the form body [status=pending&n=abc];
    [ParseForm] puts the values of the body before those of the URL. *)
Definition reqForm : Request :=
  {| Method := "POST"; ContentLength := 20;
     ContentType := "application/x-www-form-urlencoded";
     Body := "status=pending&n=abc"; Query := [("status", ["done"])];
     ParseForm := inl [("status", ["pending"; "done"]); ("n", ["abc"])];
     ParseMultipartForm := inr (ForeignError "request Content-Type isn't multipart/form-data") |}.

End Sample.

(** ** Properties of the coercer *)

Definition isSigned (k : Kind) : bool :=
  match k with
  | Int | Int8 | Int16 | Int32 | Int64 => true
  | _ => false
  end.

Definition isUnsigned (k : Kind) : bool :=
  match k with
  | Uint | Uint8 | Uint16 | Uint32 | Uint64 => true
  | _ => false
  end.

Definition isFloat (k : Kind) : bool :=
  match k with
  | Float32 | Float64 => true
  | _ => false
  end.

(** The bit sizes that [setWithProperType] passes on. *)
Definition bitSizes : list Z := [0; 8; 16; 32; 64].

Definition noUnmarshaler (t : type) : Prop :=
  UnmarshalParam (declOf t) = None /\ UnmarshalText (declOf t) = None.

(** A field that the loop takes as it is (no embedded pointer to look
    through) and that line 124 lets pass. *)
Definition direct (typeField : StructField) : Prop :=
  Anonymous typeField = true -> kindOf (Type_ typeField) <> Ptr.

Definition settable (typeField : StructField) : Prop :=
  CanSet typeField = true.

(** The field is not an embedded struct, which line 129 rejects when it
    has a tag. *)
Definition notEmbeddedStruct (typeField : StructField) : Prop :=
  Anonymous typeField = true -> kindOf (Type_ typeField) <> Struct.

(** The run did not end in an index out of range. *)
Definition inBounds {A : Type} (r : res A) : Prop := r <> Panicked IndexOutOfRange.

(** Every key of the map has at least one value. *)
Definition nonEmptyValues (data : Values) : Prop :=
  Forall (fun kv : string * list string => kv.2 <> []) data.

(** The nested calls that a pass on [typeField] can make. *)
Definition nestedInBounds (bindNested : type -> Value -> res (Value * option error))
  (typeField : StructField) : Prop :=
  (forall v, inBounds (bindNested (Type_ typeField) v)) /\
  (forall elem v, Type_ typeField = TPtr elem -> inBounds (bindNested elem v)).

(** The methods for which [Bind] binds the body. *)
Definition carriesBody (method : string) : Prop :=
  method = MethodPost \/ method = MethodPut \/ method = MethodPatch.

(** ** More vocabulary *)

(** The type that line 124 onwards sees for a field: the pointee type of
    an embedded pointer, the type of the field otherwise. *)
Definition walkedType (typeField : StructField) : type :=
  if Anonymous typeField then
    match Type_ typeField with
    | TPtr elem => elem
    | t => t
    end
  else Type_ typeField.

(** The method [Unwrap] of [HTTPError]. *)
Definition Unwrap (e : error) : option error :=
  match e with
  | HTTPError err _ _ => err
  | _ => None
  end.

(** The kinds that the switch of [setWithProperType] has a case for. *)
Definition supported (k : Kind) : bool :=
  match k with
  | Ptr | Int | Int8 | Int16 | Int32 | Int64
  | Uint | Uint8 | Uint16 | Uint32 | Uint64
  | Bool | Float32 | Float64 | String_ => true
  | _ => false
  end.

(** The string that the integer setters hand to [strconv]. *)
Definition orZero (value : string) : string :=
  if String.eqb value "" then "0" else value.

(** The map with only the first value of every entry. *)
Definition firsts (data : Values) : Values :=
  map (fun kv : string * list string => (kv.1, take 1 kv.2)) data.

Definition hasDecoder (t : type) : bool :=
  match UnmarshalParam (declOf t), UnmarshalText (declOf t) with
  | None, None => false
  | _, _ => true
  end.

(** No field of the type, at any depth, is a slice without a decoder of
    its own, the one shape that lines 173-181 bind value by value. *)
Fixpoint firstValueOnly (t : type) : bool :=
  match t with
  | TSlice _ _ => hasDecoder t
  | TPtr elem => firstValueOnly elem
  | TStruct fields _ => forallb (fun f => firstValueOnly (Type_ f)) fields
  | _ => true
  end.

(** What the loop of lines 101-103 does to the map for one entry. *)
Definition putFirst (m : gmap string Value) (kv : string * list string)
  : gmap string Value :=
  <[kv.1 := VString (default "" (head kv.2))]> m.

(** A pass over the field that returns gives the field back as it was. *)
Definition keeps (ParseFloat : string -> Z -> spec_float + error)
    (data : Values) (tag : string) (typeField : StructField) : Prop :=
  forall field field' next,
    bindField ParseFloat data tag (bindDataAt ParseFloat data tag) typeField field
    = Done (field', next) ->
    field' = field.

(** An [*HTTPError] of status 400 around another error. *)
Definition wraps (e : error) : Prop :=
  exists inner msg,
    e = HTTPError (Some inner) StatusBadRequest msg /\ Unwrap e = Some inner.

(** [url.Values.Get]: the first value of the key, or the empty string. *)
Definition ValuesGet (v : Values) (key : string) : string :=
  match mapIndex v key with
  | Some (x :: _) => x
  | _ => ""
  end.

(** [Request.QueryParam] (request.go, lines 68-73). *)
Definition QueryParam (r : Request) (name : string) : string :=
  ValuesGet (QueryParams r) name.

(** None of the five content types of [BindBody]. *)
Definition otherMedia (ctype : string) : Prop :=
  HasPrefix ctype MIMEApplicationJSON = false /\
  HasPrefix ctype MIMEApplicationXML = false /\
  HasPrefix ctype MIMETextXML = false /\
  HasPrefix ctype MIMEApplicationForm = false /\
  HasPrefix ctype MIMEMultipartForm = false.

(** ** Values of the shape of their type *)

Definition all2 {A B : Type} (p : A -> B -> bool) : list A -> list B -> bool :=
  fix go (l : list A) (k : list B) : bool :=
    match l, k with
    | [], [] => true
    | a :: l, b :: k => p a b && go l k
    | _, _ => false
    end.

(** The value has the shape of a value of the type as far as the binder
    goes into it: a struct has one value for every field, a pointer is a
    pointer. *)
Fixpoint hasShape (t : type) (v : Value) {struct t} : bool :=
  match t, v with
  | TPtr elem, VPtr None => true
  | TPtr elem, VPtr (Some x) => hasShape elem x
  | TPtr _, _ => false
  | TStruct fields _, VStruct vals =>
      all2 (fun (f : StructField) v => hasShape (Type_ f) v) fields vals
  | TStruct _ _, _ => false
  | _, _ => true
  end.

(** An embedded pointer that has a tag points at a struct. *)
Definition safeEmbedded (tag : string) (f : StructField) : bool :=
  negb (Anonymous f) ||
  match Type_ f with
  | TPtr elem => bool_decide (kindOf elem = Struct) || String.eqb (Get (Tag f) tag) ""
  | _ => true
  end.

(** [safeEmbedded] for the fields of the type, of the structs among
    them and of the structs that its pointers point at. *)
Fixpoint safeEmbeddings (tag : string) (t : type) : bool :=
  match t with
  | TPtr elem => safeEmbeddings tag elem
  | TStruct fields _ =>
      forallb (fun f => safeEmbedded tag f && safeEmbeddings tag (Type_ f)) fields
  | _ => true
  end.

(** The run ends without a panic. *)
Definition returns {A : Type} (r : res A) : Prop := exists a, r = Done a.


(** ** The request, as [Scheme] reads it (request.go, lines 35-65) *)

Section Scheme.

(** The names of the headers, which are declared in a file that is not
    part of the sources at hand. *)
Variable HeaderXForwardedProto : string.
Variable HeaderXForwardedProtocol : string.
Variable HeaderXForwardedSSL : string.
Variable HeaderXURLScheme : string.

(** [TLS] is [r.Request.TLS != nil] and [HeaderGet] is
    [r.Request.Header.Get]. *)
Record Connection : Type := {
  TLS : bool;
  HeaderGet : string -> string
}.

Definition IsTLS (r : Connection) : bool := TLS r.

Definition Scheme (r : Connection) : string :=
  if IsTLS r then "https" else
  let scheme := HeaderGet r HeaderXForwardedProto in
  if negb (String.eqb scheme "") then scheme else
  let scheme := HeaderGet r HeaderXForwardedProtocol in
  if negb (String.eqb scheme "") then scheme else
  let ssl := HeaderGet r HeaderXForwardedSSL in
  if String.eqb ssl "on" then "https" else
  let scheme := HeaderGet r HeaderXURLScheme in
  if negb (String.eqb scheme "") then scheme else
  "http".

End Scheme.

(** ** The responder (responder.go) *)

Definition errInvalidRedirectCode : error := errorString "invalid redirect status code".
Definition errHeaderAlreadyCommitted : error := errorString "response already committed".
Definition StatusOK : Z := 200.

Section Responder.

(** [W] is the state behind [r.Writer], an [http.ResponseWriter] of any
    kind, together with what the logger and the hooks write outside the
    responder; [hook] are the functions given to [Before] and [After]. *)
Variable W : Type.
Variable hook : Type.

Record Responder : Type := {
  beforeFuncs : list hook;
  afterFuncs : list hook;
  Size : Z;
  Committed : bool;
  StatusCode : Z;
  Writer : W
}.

(** The methods of the writer and of its header, the logger, and the
    call of a hook, which may do to the responder whatever its methods
    allow. *)
Variable WriterHeaderGet : string -> W -> string.
Variable WriterHeaderSet : string -> string -> W -> W.
Variable WriterWriteHeader : Z -> W -> W.
Variable WriterWrite : string -> W -> W * (Z * option error).
Variable LoggerPrintln : error -> W -> W.
Variable call : hook -> Responder -> Responder.

(** Two more names from the file of constants. *)
Variable HeaderContentType : string.
Variable HeaderLocation : string.

Definition NewResponder (w : W) : Responder :=
  {| beforeFuncs := []; afterFuncs := []; Size := 0; Committed := false;
     StatusCode := 0; Writer := w |}.

Definition withWriter (w : W) (r : Responder) : Responder :=
  {| beforeFuncs := beforeFuncs r; afterFuncs := afterFuncs r; Size := Size r;
     Committed := Committed r; StatusCode := StatusCode r; Writer := w |}.

Definition withStatusCode (code : Z) (r : Responder) : Responder :=
  {| beforeFuncs := beforeFuncs r; afterFuncs := afterFuncs r; Size := Size r;
     Committed := Committed r; StatusCode := code; Writer := Writer r |}.

Definition withCommitted (c : bool) (r : Responder) : Responder :=
  {| beforeFuncs := beforeFuncs r; afterFuncs := afterFuncs r; Size := Size r;
     Committed := c; StatusCode := StatusCode r; Writer := Writer r |}.

Definition withSize (n : Z) (r : Responder) : Responder :=
  {| beforeFuncs := beforeFuncs r; afterFuncs := afterFuncs r; Size := n;
     Committed := Committed r; StatusCode := StatusCode r; Writer := Writer r |}.

(** [for _, fn := range fns { fn() }]: the slice is read once, before the
    first call. *)
Definition runAll (fns : list hook) (r : Responder) : Responder :=
  foldl (fun r fn => call fn r) r fns.

Definition writeContentType (value : string) (r : Responder) : Responder :=
  if String.eqb (WriterHeaderGet HeaderContentType (Writer r)) ""
  then withWriter (WriterHeaderSet HeaderContentType value (Writer r)) r
  else r.

Definition Before (fn : hook) (r : Responder) : Responder :=
  {| beforeFuncs := beforeFuncs r ++ [fn]; afterFuncs := afterFuncs r; Size := Size r;
     Committed := Committed r; StatusCode := StatusCode r; Writer := Writer r |}.

Definition After (fn : hook) (r : Responder) : Responder :=
  {| beforeFuncs := beforeFuncs r; afterFuncs := afterFuncs r ++ [fn]; Size := Size r;
     Committed := Committed r; StatusCode := StatusCode r; Writer := Writer r |}.

Definition WriteHeader (code : Z) (r : Responder) : Responder :=
  if Committed r then withWriter (LoggerPrintln errHeaderAlreadyCommitted (Writer r)) r
  else
    let r := withStatusCode code r in
    let r := runAll (beforeFuncs r) r in
    let r := withWriter (WriterWriteHeader (StatusCode r) (Writer r)) r in
    withCommitted true r.

Definition writeHeader (r : Responder) : Responder :=
  let r := if StatusCode r <=? 0 then withStatusCode StatusOK r else r in
  WriteHeader (StatusCode r) r.

(** [r.Size += int64(n)] wraps around as an [int64] does. *)
Definition Write (b : string) (r : Responder) : Responder * (Z * option error) :=
  let r := if negb (Committed r) then writeHeader r else r in
  let '(w, (n, err)) := WriterWrite b (Writer r) in
  let r := withWriter w r in
  let r := withSize (wrapInt 64 (Size r + n)) r in
  let r := runAll (afterFuncs r) r in
  (r, (n, err)).

Definition Status (code : Z) (r : Responder) : Responder := withStatusCode code r.

Definition Blob (contentType : string) (b : string) (r : Responder)
  : Responder * option error :=
  let r := writeContentType contentType r in
  let r := writeHeader r in
  let '(r, (_, err)) := Write b r in
  (r, err).

Definition NoContent (r : Responder) : Responder * option error :=
  (writeHeader r, None).

Definition Redirect (url : string) (r : Responder) : Responder * option error :=
  if (StatusCode r <? 300) || (308 <? StatusCode r)
  then (r, Some errInvalidRedirectCode)
  else
    let r := withWriter (WriterHeaderSet HeaderLocation url (Writer r)) r in
    (writeHeader r, None).

(** The calls [r.Write(b)] for the [b] of a list, one after the other,
    with the numbers of bytes that they return. *)
Fixpoint writes (bs : list string) (r : Responder) : Responder * list Z :=
  match bs with
  | [] => (r, [])
  | b :: bs =>
      let '(r, (n, _)) := Write b r in
      let '(r, ns) := writes bs r in
      (r, n :: ns)
  end.

End Responder.

Arguments beforeFuncs {W hook} _.
Arguments afterFuncs {W hook} _.
Arguments Size {W hook} _.
Arguments Committed {W hook} _.
Arguments StatusCode {W hook} _.
Arguments Writer {W hook} _.
Arguments NewResponder {W hook} _.
Arguments withWriter {W hook} _ _.
Arguments withStatusCode {W hook} _ _.
Arguments withCommitted {W hook} _ _.
Arguments withSize {W hook} _ _.
Arguments runAll {W hook} _ _ _.
Arguments writeContentType {W hook} _ _ _ _ _.
Arguments Before {W hook} _ _.
Arguments After {W hook} _ _.
Arguments WriteHeader {W hook} _ _ _ _ _.
Arguments writeHeader {W hook} _ _ _ _.
Arguments Write {W hook} _ _ _ _ _ _.
Arguments Status {W hook} _ _.
Arguments Blob {W hook} _ _ _ _ _ _ _ _ _ _.
Arguments NoContent {W hook} _ _ _ _.
Arguments Redirect {W hook} _ _ _ _ _ _ _.
Arguments writes {W hook} _ _ _ _ _ _.

(** ** The default error handler (httpx.go, lines 27-55) *)

Definition StatusInternalServerError : Z := 500.
Definition MethodHead : string := "HEAD".

(** [errors.As(err, &e)] for [e] of type [*HTTPError]: the error itself
    when it is one.  Of the errors of the model only an [*HTTPError] wraps
    another error, so that there is no chain to go down; an error made
    outside the package is taken not to wrap an [*HTTPError]. *)
Definition asHTTPError (err : error) : option error :=
  match err with
  | HTTPError _ _ _ => Some err
  | _ => None
  end.

Section ErrorHandler.

Variable W : Type.
Variable hook : Type.
Variable WriterHeaderGet : string -> W -> string.
Variable WriterHeaderSet : string -> string -> W -> W.
Variable WriterWriteHeader : Z -> W -> W.
Variable WriterWrite : string -> W -> W * (Z * option error).
Variable LoggerPrintln : error -> W -> W.
Variable call : hook -> Responder W hook -> Responder W hook.
Variable HeaderContentType : string.
Variable MIMETextPlainCharsetUTF8 : string.

(** [http.StatusText], the string that a message of the model stands
    for, and [err.Error()]. *)
Variable StatusText : Z -> string.
Variable messageText : message -> string.
Variable errorText : error -> string.

(** [Responder.String] (responder.go, lines 135-137). *)
Definition String' (s : string) (r : Responder W hook) : Responder W hook * option error :=
  Blob WriterHeaderGet WriterHeaderSet WriterWriteHeader WriterWrite LoggerPrintln call
    HeaderContentType MIMETextPlainCharsetUTF8 s r.

(** The function that [HandleHTTPError(expose)] returns.  With [expose]
    the handler also stores [err.Error()] in the [Message] of the error
    that [errors.As] found, which the model, where errors are values,
    does not show. *)
Definition HandleHTTPError (expose : bool) (req : Request) (res : Responder W hook)
    (err : error) : Responder W hook :=
  if Committed res then res else
  let '(code, text) :=
    match asHTTPError err with
    | Some (HTTPError _ code msg) => (code, messageText msg)
    | _ => (StatusInternalServerError, StatusText StatusInternalServerError)
    end in
  let res := Status code res in
  let text := if expose then errorText err else text in
  let '(res, resErr) :=
    if String.eqb (Method req) MethodHead
    then NoContent WriterWriteHeader LoggerPrintln call res
    else String' text res in
  match resErr with
  | Some e => withWriter (LoggerPrintln e (Writer res)) res
  | None => res
  end.

End ErrorHandler.

Arguments String' {W hook} _ _ _ _ _ _ _ _ _ _.
Arguments HandleHTTPError {W hook} _ _ _ _ _ _ _ _ _ _ _ _ _ _ _.

(** The status code that the handler answers an error with. *)
Definition answerCode (err : error) : Z :=
  match err with
  | HTTPError _ code _ => if code <=? 0 then StatusOK else code
  | _ => StatusInternalServerError
  end.

(** ** More sample types and requests *)

Module Fixture.

(** [type Account struct { name string `query:"name"`; Name string `query:"Name"` }] *)
Definition tAccount : type := TStruct [Sample.fname; Sample.fName] Sample.main.

(** [type Tagged struct { ID ID; Name string `query:"Name"` }], where
    [*ID] has [UnmarshalParam]. *)
Definition tTagged : type := TStruct [Sample.fID; Sample.fName] Sample.main.

(** [type Form struct { N int `form:"n"`; Status string `form:"status" query:"status"` }] *)
Definition tForm : type := TStruct [Sample.fN; Sample.fStatus] Sample.main.

(** [When Stamp `query:"when"`] and [When *Stamp `query:"when"`], where
    [*Stamp] has [UnmarshalText]. *)
Definition fWhen : StructField := Sample.field "When" Sample.tStamp [("query", "when")].
Definition fWhenPtr : StructField :=
  Sample.field "When" (TPtr Sample.tStamp) [("query", "when")].

(** [map[string]string] *)
Definition tDict : type := TMap Sample.tString Sample.tString plain.

Definition badN : error := NumError "ParseInt" "abc" strconv.ErrSyntax.

(** [GET /todos], without query and without body. *)
Definition reqGet : Request :=
  {| Method := "GET"; ContentLength := 0; ContentType := "text/plain";
     Body := ""; Query := [];
     ParseForm := inl [];
     ParseMultipartForm := inr (ForeignError "request Content-Type isn't multipart/form-data") |}.

(** [PUT /todos] with a body of five bytes of [text/plain]. *)
Definition reqText : Request :=
  {| Method := "PUT"; ContentLength := 5; ContentType := "text/plain";
     Body := "hello"; Query := [("status", ["done"])];
     ParseForm := inl [("status", ["done"])];
     ParseMultipartForm := inr (ForeignError "request Content-Type isn't multipart/form-data") |}.

Definition tBool : type := TBasic BBool plain.

(** [type Deep struct { *Inner; IDs []int `query:"ids"`; Name string `query:"Name"` }] *)
Definition tDeep : type :=
  TStruct [Sample.fInnerPtr; Sample.fIDs; Sample.fName] Sample.main.
Definition vDeep : Value :=
  VStruct [VPtr (Some (VStruct [VInt 0])); VSlice []; VString ""].
Definition deepQuery : Values :=
  [("x", ["5"]); ("ids", ["1"; "2"]); ("name", ["bob"])].

(** A writer that keeps the header as a list of pairs and records what
    it is asked to send; its [Write] takes all the bytes. *)
Definition recorder : Type := (list (string * string) * list string)%type.

Definition headerGet (key : string) (w : recorder) : string :=
  match List.find (fun kv : string * string => String.eqb kv.1 key) w.1 with
  | Some kv => kv.2
  | None => ""
  end.

Definition headerSet (key value : string) (w : recorder) : recorder :=
  ((key, value) :: w.1, w.2).

Definition sendStatus (code : Z) (w : recorder) : recorder :=
  (w.1, (w.2 ++ [String.append "status " (strconv.Itoa code)])%list).

Definition sendBytes (b : string) (w : recorder) : recorder * (Z * option error) :=
  ((w.1, (w.2 ++ [b])%list), (Z.of_nat (String.length b), None)).

Definition logNothing (e : error) (w : recorder) : recorder := w.

(** No hook does anything. *)
Definition idle (h : unit) (r : Responder recorder unit) : Responder recorder unit := r.

Definition fresh : Responder recorder unit := NewResponder ([], []).

(** The texts of the messages, all the same for the sample. *)
Definition statusText (code : Z) : string := "Internal Server Error".
Definition messageText (m : message) : string := "bad request".
Definition errorText (e : error) : string := "invalid syntax".

End Fixture.


(** ** The errors of strconv *)

Lemma digits_error fn s0 maxVal s n e :
  strconv.digits fn s0 maxVal s n = inr e ->
  exists why, e = NumError fn s0 why.
Proof.
  revert n. induction s as [|c s IH]; intros n; simpl; [discriminate|].
  destruct (strconv.digit c) as [d|]; [|intros [= <-]; eauto].
  destruct (maxVal <? n * 10 + d); [intros [= <-]; eauto|apply IH].
Qed.

Lemma ParseUintAs_error fn s0 s bitSize e :
  strconv.ParseUintAs fn s0 s bitSize = inr e ->
  exists why, e = NumError fn s0 why.
Proof.
  unfold strconv.ParseUintAs. destruct s; [intros [= <-]; eauto|].
  destruct (_ || _); [intros [= <-]; eauto|apply digits_error].
Qed.

Lemma ParseInt_error s bitSize e :
  strconv.ParseInt s bitSize = inr e ->
  exists why, e = NumError "ParseInt" s why.
Proof.
  unfold strconv.ParseInt. destruct s as [|c rest]; [intros [= <-]; eauto|].
  cbv zeta.
  destruct (strconv.ParseUintAs _ _ _ _) as [un|e'] eqn:E.
  - repeat case_match; intros [= <-]; eauto.
  - intros [= <-]. eapply ParseUintAs_error, E.
Qed.

Lemma ParseUint_error s bitSize e :
  strconv.ParseUint s bitSize = inr e ->
  exists why, e = NumError "ParseUint" s why.
Proof. apply ParseUintAs_error. Qed.

Section CoercerProperties.

Variable ParseFloat : string -> Z -> spec_float + error.

Lemma setWithProperType_unfold valueKind val t structField :
  setWithProperType ParseFloat valueKind val t structField =
  ('(structField, (ok, err)) ← unmarshalField valueKind val t structField;
   if ok : bool then Done (structField, err) else
   match valueKind with
   | Ptr =>
       match t, structField with
       | TPtr elem, VPtr (Some pointee) =>
           '(pointee', err) ← setWithProperType ParseFloat (kindOf elem) val elem pointee;
           Done (VPtr (Some pointee'), err)
       | _, _ => Panicked ReflectPanic
       end
   | Int => setIntField val 0 t structField
   | Int8 => setIntField val 8 t structField
   | Int16 => setIntField val 16 t structField
   | Int32 => setIntField val 32 t structField
   | Int64 => setIntField val 64 t structField
   | Uint => setUintField val 0 t structField
   | Uint8 => setUintField val 8 t structField
   | Uint16 => setUintField val 16 t structField
   | Uint32 => setUintField val 32 t structField
   | Uint64 => setUintField val 64 t structField
   | Bool => setBoolField val t structField
   | Float32 => setFloatField ParseFloat val 32 t structField
   | Float64 => setFloatField ParseFloat val 64 t structField
   | String_ => structField' ← SetString t val; Done (structField', None)
   | _ => Done (structField, Some errUnknownType)
   end).
Proof. destruct t; reflexivity. Qed.

Lemma unmarshalFieldNonPtr_plain val t field :
  noUnmarshaler t ->
  unmarshalFieldNonPtr val t field = (field, (false, None)).
Proof. intros [H1 H2]. unfold unmarshalFieldNonPtr. by rewrite H1, H2. Qed.

Lemma unmarshalFieldNonPtr_false val t field x err :
  unmarshalFieldNonPtr val t field = (x, (false, err)) -> x = field /\ err = None.
Proof.
  unfold unmarshalFieldNonPtr.
  destruct (UnmarshalParam (declOf t)) as [um|]; [destruct (um val field); discriminate|].
  destruct (UnmarshalText (declOf t)) as [um|]; [destruct (um val field); discriminate|].
  by intros [= <- <-].
Qed.

Lemma unmarshalFieldNonPtr_true val t field x err :
  unmarshalFieldNonPtr val t field = (x, (true, err)) -> kindOf t <> Ptr.
Proof.
  destruct t as [b| | | | |]; intros H; try discriminate H; try (simpl; discriminate).
  destruct b; discriminate.
Qed.

Lemma unmarshalField_NonPtr val t field :
  kindOf t <> Ptr ->
  unmarshalField (kindOf t) val t field = Done (unmarshalFieldNonPtr val t field).
Proof. unfold unmarshalField. destruct (kindOf t); done. Qed.

Lemma setIntField_empty t field bitSize :
  bitSize ∈ bitSizes -> isSigned (kindOf t) = true ->
  setIntField "" bitSize t field = Done (VInt 0, None).
Proof.
  intros Hb Hk. unfold bitSizes in Hb.
  repeat (apply elem_of_cons in Hb as [->|Hb]); [..|by apply elem_of_nil in Hb];
    unfold setIntField, SetInt; destruct (kindOf t); try discriminate; reflexivity.
Qed.

Lemma setUintField_empty t field bitSize :
  bitSize ∈ bitSizes -> isUnsigned (kindOf t) = true ->
  setUintField "" bitSize t field = Done (VUint 0, None).
Proof.
  intros Hb Hk. unfold bitSizes in Hb.
  repeat (apply elem_of_cons in Hb as [->|Hb]); [..|by apply elem_of_nil in Hb];
    unfold setUintField, SetUint; destruct (kindOf t); try discriminate; reflexivity.
Qed.

Lemma setBoolField_empty t field :
  kindOf t = Bool -> setBoolField "" t field = Done (VBool false, None).
Proof. intros Hk. unfold setBoolField, SetBool. rewrite Hk. reflexivity. Qed.

Lemma setFloatField_empty t field bitSize :
  ParseFloat "0.0" bitSize = inl (S754_zero false) ->
  isFloat (kindOf t) = true ->
  setFloatField ParseFloat "" bitSize t field = Done (VFloat (S754_zero false), None).
Proof.
  intros HF Hk. unfold setFloatField, SetFloat. simpl. rewrite HF.
  destruct (kindOf t); try discriminate; reflexivity.
Qed.

(** Through the switch of [setWithProperType], which pairs every kind
    with its bit size, on a field without a decoder of its own. *)
Lemma setWithProperType_empty t field :
  (forall bitSize, ParseFloat "0.0" bitSize = inl (S754_zero false)) ->
  noUnmarshaler t ->
  isSigned (kindOf t) || isUnsigned (kindOf t) || bool_decide (kindOf t = Bool)
  || isFloat (kindOf t) = true ->
  setWithProperType ParseFloat (kindOf t) "" t field = Done (zero t, None).
Proof.
  intros HF Hn Hk. rewrite setWithProperType_unfold.
  assert (Hnp : unmarshalField (kindOf t) "" t field = Done (field, (false, None))).
  { unfold unmarshalField. rewrite (unmarshalFieldNonPtr_plain _ _ _ Hn).
    destruct (kindOf t); try reflexivity. discriminate. }
  rewrite Hnp. simpl.
  assert (E8 : 8 ∈ bitSizes) by (unfold bitSizes; repeat constructor).
  assert (E0 : 0 ∈ bitSizes) by (unfold bitSizes; repeat constructor).
  assert (E16 : 16 ∈ bitSizes) by (unfold bitSizes; repeat constructor).
  assert (E32 : 32 ∈ bitSizes) by (unfold bitSizes; repeat constructor).
  assert (E64 : 64 ∈ bitSizes) by (unfold bitSizes; repeat constructor).
  destruct t as [b d| | | | |]; try discriminate.
  destruct b; try discriminate; simpl in *;
    first [ by apply setIntField_empty | by apply setUintField_empty
          | by apply setBoolField_empty | by apply setFloatField_empty ].
Qed.

(** C5.  For every signed or unsigned integer field, at every bit size
    the coercer passes, for every boolean field and for every
    floating-point field, the setter of the kind, given the empty string,
    returns no error and stores the zero value: 0, false, 0.0.
    [strconv.ParseFloat] is only asked to read the literal 0.0 as zero. *)
Theorem empty_string_is_zero :
  (forall bitSize, ParseFloat "0.0" bitSize = inl (S754_zero false)) ->
  forall (t : type) (field : Value),
    (forall bitSize, bitSize ∈ bitSizes -> isSigned (kindOf t) = true ->
       setIntField "" bitSize t field = Done (VInt 0, None)) /\
    (forall bitSize, bitSize ∈ bitSizes -> isUnsigned (kindOf t) = true ->
       setUintField "" bitSize t field = Done (VUint 0, None)) /\
    (kindOf t = Bool -> setBoolField "" t field = Done (VBool false, None)) /\
    (forall bitSize, isFloat (kindOf t) = true ->
       setFloatField ParseFloat "" bitSize t field
       = Done (VFloat (S754_zero false), None)).
Proof.
  intros HF t field. repeat split.
  - intros bitSize. apply setIntField_empty.
  - intros bitSize. apply setUintField_empty.
  - apply setBoolField_empty.
  - intros bitSize. apply setFloatField_empty, HF.
Qed.

(** C6.  A non-empty string that [strconv.ParseInt] (for a signed field)
    or [strconv.ParseUint] (for an unsigned one) rejects at the bit size
    of the field makes the setter return that very error, a
    [*strconv.NumError] about the string, and leaves the field as it
    was. *)
Theorem parse_failure_leaves_field (value : string) (bitSize : Z) (t : type)
    (field : Value) (e : error) :
  value <> "" ->
  (strconv.ParseInt value bitSize = inr e ->
     setIntField value bitSize t field = Done (field, Some e) /\
     exists why, e = NumError "ParseInt" value why) /\
  (strconv.ParseUint value bitSize = inr e ->
     setUintField value bitSize t field = Done (field, Some e) /\
     exists why, e = NumError "ParseUint" value why).
Proof.
  intros Hne.
  assert (Hv : (if String.eqb value "" then "0" else value) = value).
  { destruct (String.eqb_spec value ""); [contradiction|reflexivity]. }
  split; intros HP.
  - split; [|by eapply ParseInt_error].
    unfold setIntField. cbv zeta. rewrite Hv, HP. reflexivity.
  - split; [|by eapply ParseUint_error].
    unfold setUintField. cbv zeta. rewrite Hv, HP. reflexivity.
Qed.

(** C9.  On a pointer field the coercer allocates a zero pointee when the
    pointer is nil ([unmarshalFieldPtr]) and then coerces the string into
    the pointee exactly as it would coerce it into a field of the pointee
    type; so after a coercion without error the pointer is not nil and
    points at the coerced value. *)
Theorem pointer_coercion (val : string) (elem : type) (p : option Value) :
  let pointee := default (zero elem) p in
  unmarshalFieldPtr val (TPtr elem) (VPtr p)
    = (let '(x, r) := unmarshalFieldNonPtr val elem pointee in
       Done (VPtr (Some x), r)) /\
  setWithProperType ParseFloat Ptr val (TPtr elem) (VPtr p)
    = ('(x, err) ← setWithProperType ParseFloat (kindOf elem) val elem pointee;
       Done (VPtr (Some x), err)) /\
  (forall field', setWithProperType ParseFloat Ptr val (TPtr elem) (VPtr p)
                  = Done (field', None) ->
     exists x, field' = VPtr (Some x) /\
       setWithProperType ParseFloat (kindOf elem) val elem pointee = Done (x, None)).
Proof.
  intros pointee.
  assert (E1 : unmarshalFieldPtr val (TPtr elem) (VPtr p)
    = (let '(x, r) := unmarshalFieldNonPtr val elem pointee in
       Done (VPtr (Some x), r))).
  { unfold pointee. destruct p; reflexivity. }
  assert (E2 : setWithProperType ParseFloat Ptr val (TPtr elem) (VPtr p)
    = ('(x, err) ← setWithProperType ParseFloat (kindOf elem) val elem pointee;
       Done (VPtr (Some x), err))).
  { rewrite (setWithProperType_unfold Ptr).
    unfold unmarshalField at 1. rewrite E1.
    destruct (unmarshalFieldNonPtr val elem pointee) as [x [[|] err]] eqn:E.
    - simpl. rewrite setWithProperType_unfold.
      rewrite unmarshalField_NonPtr by (eapply unmarshalFieldNonPtr_true, E).
      rewrite E. reflexivity.
    - apply unmarshalFieldNonPtr_false in E as [-> ->]. reflexivity. }
  split; [exact E1|]. split; [exact E2|].
  intros field'. rewrite E2.
  destruct (setWithProperType ParseFloat (kindOf elem) val elem pointee)
    as [[x err]|] eqn:E; simpl; [|discriminate].
  intros [= <- ->]. eauto.
Qed.

End CoercerProperties.

(** ** Properties of the field walker *)






Section WalkerProperties.

Variable ParseFloat : string -> Z -> spec_float + error.
Variable data : Values.
Variable tag : string.

Abbreviation bindNested := (bindDataAt ParseFloat data tag).
Abbreviation bindField' := (bindField ParseFloat data tag bindNested).
Abbreviation bindInput' := (bindInput ParseFloat).
Abbreviation walk' := (walk ParseFloat data tag bindNested).

Lemma bindField_direct typeField field :
  direct typeField ->
  bindField' typeField field
  = bindSettable ParseFloat data tag bindNested typeField field
      (Type_ typeField) field (fun x => x).
Proof.
  intros Hd. unfold bindField.
  destruct (Anonymous typeField) eqn:Ha; simpl; [|done].
  rewrite bool_decide_eq_false_2; [done|by apply Hd].
Qed.

Lemma bindSettable_tagged typeField field :
  settable typeField -> notEmbeddedStruct typeField ->
  Get (Tag typeField) tag <> "" ->
  bindSettable ParseFloat data tag bindNested typeField field
      (Type_ typeField) field (fun x => x)
  = match lookupInput data (Get (Tag typeField) tag) with
    | None => Done (field, Continue)
    | Some inputValue =>
        bindInput' typeField (Type_ typeField) field (fun x => x) inputValue
    end.
Proof.
  intros Hs Hn Ht. unfold bindSettable. rewrite Hs. simpl.
  destruct (String.eqb_spec (Get (Tag typeField) tag) "") as [|_]; [done|].
  simpl. rewrite andb_true_r.
  destruct (Anonymous typeField) eqn:Ha; simpl; [|done].
  rewrite bool_decide_eq_false_2; [done|by apply Hn].
Qed.


Lemma bindSettable_untagged typeField field :
  settable typeField -> Get (Tag typeField) tag = "" ->
  bindSettable ParseFloat data tag bindNested typeField field
      (Type_ typeField) field (fun x => x)
  = if negb (isBindUnmarshaler (Type_ typeField))
       && bool_decide (kindOf (Type_ typeField) = Struct)
    then '(x, err) ← bindNested (Type_ typeField) field; Done (x, stepOf err)
    else Done (field, Continue).
Proof.
  intros Hs Ht. unfold bindSettable. rewrite Hs, Ht. simpl.
  by rewrite andb_false_r.
Qed.

(** C3, as amended.  For an untagged field that can be set and is taken
    as it is: a struct whose pointer type does not implement
    [BindUnmarshaler] is bound by a nested call on the same map and the
    same tag, whose error ends the walk; a struct whose pointer type
    implements [BindUnmarshaler] is passed over unchanged; so is every
    field that is no struct. *)
Theorem untagged_field (typeField : StructField) (field : Value) :
  settable typeField -> direct typeField ->
  Get (Tag typeField) tag = "" ->
  (kindOf (Type_ typeField) = Struct ->
   isBindUnmarshaler (Type_ typeField) = false ->
   bindField' typeField field
   = ('(x, err) ← bindDataAt ParseFloat data tag (Type_ typeField) field;
      Done (x, stepOf err))) /\
  (kindOf (Type_ typeField) = Struct ->
   isBindUnmarshaler (Type_ typeField) = true ->
   bindField' typeField field = Done (field, Continue)) /\
  (kindOf (Type_ typeField) <> Struct ->
   bindField' typeField field = Done (field, Continue)).
Proof.
  intros Hs Hd Ht.
  rewrite (bindField_direct _ _ Hd), (bindSettable_untagged _ _ Hs Ht).
  repeat split.
  - intros Hk Hb. rewrite Hb. simpl. by rewrite bool_decide_eq_true_2.
  - intros Hk Hb. by rewrite Hb.
  - intros Hk. rewrite (bool_decide_eq_false_2 _ Hk). by rewrite andb_false_r.
Qed.

(** The loop over the elements fills the slice from the left. *)
Lemma setElems_Forall2 sliceOf (inputValue : list string) n :
  forall j (filled elems : list Value),
    length filled = j -> (j + n)%nat = length inputValue ->
    Forall2 (fun x e => setWithProperType ParseFloat (kindOf sliceOf) x sliceOf
                          (zero sliceOf) = Done (e, None))
            (drop j inputValue) elems ->
    setElems ParseFloat sliceOf inputValue n j
      (filled ++ replicate n (zero sliceOf))
    = Done ((filled ++ elems)%list, None).
Proof.
  induction n as [|n IH]; intros j filled elems Hj Hn HF.
  - rewrite drop_ge in HF by lia. inversion HF; subst. reflexivity.
  - destruct (lookup_lt_is_Some_2 inputValue j) as [x Hx]; [lia|].
    rewrite (drop_S _ _ _ Hx) in HF.
    inversion HF as [|? e ? elems' He HF']; subst.
    simpl. unfold index. rewrite Hx. simpl.
    rewrite list_lookup_middle by done. rewrite He. simpl.
    rewrite insert_app_r_alt by lia. rewrite Nat.sub_diag. simpl.
    rewrite (cons_middle e filled), app_assoc.
    rewrite (cons_middle e filled elems'), app_assoc.
    apply IH; [rewrite length_app; simpl; lia|lia|done].
Qed.

(** The loop over the elements stops at the first value that does not
    coerce. *)
Lemma setElems_error sliceOf (inputValue : list string) n :
  forall j (filled : list Value) (coerced : list string) x rest
         (elems : list Value) e err,
    length filled = j -> (j + n)%nat = length inputValue ->
    drop j inputValue = (coerced ++ x :: rest)%list ->
    Forall2 (fun x e => setWithProperType ParseFloat (kindOf sliceOf) x sliceOf
                          (zero sliceOf) = Done (e, None))
            coerced elems ->
    setWithProperType ParseFloat (kindOf sliceOf) x sliceOf (zero sliceOf)
      = Done (e, Some err) ->
    exists slice,
      setElems ParseFloat sliceOf inputValue n j
        (filled ++ replicate n (zero sliceOf))
      = Done (slice, Some err).
Proof.
  induction n as [|n IH]; intros j filled coerced x rest elems e err Hj Hn Hd HF He.
  - rewrite drop_ge in Hd by lia. by destruct coerced.
  - destruct (lookup_lt_is_Some_2 inputValue j) as [y Hy]; [lia|].
    rewrite (drop_S _ _ _ Hy) in Hd.
    simpl. unfold index. rewrite Hy. simpl. subst j.
    rewrite list_lookup_middle by done.
    destruct coerced as [|y' coerced].
    + simpl in Hd. injection Hd as -> _. rewrite He. simpl. eauto.
    + simpl in Hd. injection Hd as -> Hd.
      inversion HF as [|? e1 ? elems' H1 HF']; subst.
      rewrite H1. simpl.
      rewrite insert_app_r_alt by lia. rewrite Nat.sub_diag. simpl.
      rewrite (cons_middle e1 filled), app_assoc.
      eapply (IH (S (length filled)) (filled ++ [e1])%list coerced x rest elems' e err);
        [rewrite length_app; simpl; lia|lia|done|done|done].
Qed.

(** C7, as amended.  For a slice field that can be set, is tagged, has no
    decoder of its own and whose key is matched by an entry with at least
    one value: when every value of the entry, in order, coerces to the
    element type, starting from a zero element, the field is set to the
    slice of the coerced values, in the same order and of the same
    length; when a value does not coerce, the walk ends with the error of
    the first such value and the field is left as it was. *)
Theorem slice_field_elementwise (typeField : StructField) (field : Value)
    (sliceOf : type) (d : decl) (inputValue : list string) :
  settable typeField ->
  Get (Tag typeField) tag <> "" ->
  Type_ typeField = TSlice sliceOf d ->
  noUnmarshaler (Type_ typeField) ->
  lookupInput data (Get (Tag typeField) tag) = Some inputValue ->
  inputValue <> [] ->
  let coerces x e :=
    setWithProperType ParseFloat (kindOf sliceOf) x sliceOf (zero sliceOf)
    = Done (e, None) in
  (forall elems,
     Forall2 coerces inputValue elems ->
     bindField' typeField field = Done (VSlice elems, Continue)) /\
  (forall coerced x rest elems e err,
     inputValue = (coerced ++ x :: rest)%list ->
     Forall2 coerces coerced elems ->
     setWithProperType ParseFloat (kindOf sliceOf) x sliceOf (zero sliceOf)
       = Done (e, Some err) ->
     bindField' typeField field = Done (field, Return err)).
Proof.
  intros Hs Ht HT Hu HL Hne coerces.
  assert (Hd : direct typeField) by (intros _; by rewrite HT).
  assert (Hn : notEmbeddedStruct typeField) by (intros _; by rewrite HT).
  assert (E0 : bindField' typeField field
    = ('(slice, err) ← setElems ParseFloat sliceOf inputValue (length inputValue) 0
                         (replicate (length inputValue) (zero sliceOf));
       match err with
       | Some e => Done (field, Return e)
       | None => Done (VSlice slice, Continue)
       end)).
  { rewrite (bindField_direct _ _ Hd), (bindSettable_tagged _ _ Hs Hn Ht), HL.
    assert (Hx : exists x, inputValue !! 0%nat = Some x)
      by (destruct inputValue; [done|eauto]).
    destruct Hx as [x0 Hx].
    assert (Hlen : (0 <? length inputValue)%nat = true)
      by (destruct inputValue; [done|reflexivity]).
    unfold bindInput, index. rewrite Hx. simpl mbind at 1.
    rewrite unmarshalField_NonPtr by (rewrite HT; done).
    rewrite (unmarshalFieldNonPtr_plain _ _ _ Hu). simpl mbind at 1. cbv iota.
    rewrite HT. cbv zeta. rewrite Hlen. reflexivity. }
  rewrite E0. split.
  - intros elems HF.
    pose proof (setElems_Forall2 sliceOf inputValue (length inputValue) 0%nat []
                  elems eq_refl eq_refl HF) as E.
    rewrite app_nil_l in E. rewrite E. reflexivity.
  - intros coerced x rest elems e err Hi HF He.
    destruct (setElems_error sliceOf inputValue (length inputValue) 0%nat []
                coerced x rest elems e err eq_refl eq_refl Hi HF He) as [slice E].
    rewrite app_nil_l in E. rewrite E. reflexivity.
Qed.

Lemma walk_app (pre post : list StructField) :
  forall i vals,
    walk' (pre ++ post) i vals
    = ('(vals', err) ← walk' pre i vals;
       match err with
       | Some e => Done (vals', Some e)
       | None => walk' post (i + length pre) vals'
       end).
Proof.
  induction pre as [|f pre IH]; intros i vals; simpl.
  - by rewrite Nat.add_0_r.
  - destruct (vals !! i) as [field|]; [|done].
    destruct (bindField' f field) as [[field' [|e]]|]; simpl; [|done..].
    rewrite IH. by rewrite Nat.add_succ_r.
Qed.

Lemma walk_length (fields : list StructField) :
  forall i vals vals' err,
    walk' fields i vals = Done (vals', err) -> length vals' = length vals.
Proof.
  induction fields as [|f fields IH]; intros i vals vals' err; simpl.
  - by intros [= <- _].
  - destruct (vals !! i) as [field|]; [|done].
    destruct (bindField' f field) as [[field' [|e]]|]; simpl; [| |done].
    + intros H. apply IH in H. by rewrite length_insert in H.
    + intros [= <- _]. by rewrite length_insert.
Qed.

(** The passes from field [i] on leave the fields before [i] alone. *)
Lemma walk_lookup_lt (fields : list StructField) :
  forall i vals vals' err,
    walk' fields i vals = Done (vals', err) ->
    forall j, (j < i)%nat -> vals' !! j = vals !! j.
Proof.
  induction fields as [|f fields IH]; intros i vals vals' err; simpl.
  - by intros [= <- _].
  - destruct (vals !! i) as [field|]; [|done].
    destruct (bindField' f field) as [[field' [|e]]|]; simpl; [| |done].
    + intros H j Hj. rewrite (IH _ _ _ _ H j) by lia.
      apply list_lookup_insert_ne. lia.
    + intros [= <- _] j Hj. apply list_lookup_insert_ne. lia.
Qed.

Lemma bindField_embedded_tag typeField field :
  settable typeField -> Anonymous typeField = true ->
  kindOf (Type_ typeField) = Struct -> Get (Tag typeField) tag <> "" ->
  bindField' typeField field = Done (field, Return errAnonymousTag).
Proof.
  intros Hs Ha Hk Ht. rewrite bindField_direct by (intros _; by rewrite Hk).
  unfold bindSettable. rewrite Hs, Ha, Hk. simpl.
  destruct (String.eqb_spec (Get (Tag typeField) tag) ""); done.
Qed.

Lemma walk_embedded_tag typeField post i vals :
  settable typeField -> Anonymous typeField = true ->
  kindOf (Type_ typeField) = Struct -> Get (Tag typeField) tag <> "" ->
  walk' (typeField :: post) i vals = Panicked ReflectPanic \/
  walk' (typeField :: post) i vals = Done (vals, Some errAnonymousTag).
Proof.
  intros Hs Ha Hk Ht. simpl. destruct (vals !! i) as [field|] eqn:E; [right|by left].
  rewrite bindField_embedded_tag by done. simpl. by rewrite list_insert_id.
Qed.

Lemma length_nonempty (l : Values) : l <> [] -> (length l =? 0)%nat = false.
Proof. by destruct l. Qed.

(** C2, as amended.  On a map that is not empty, a struct with an
    embedded struct field that can be set and declares a tag for the
    source at hand is never bound with success; when the walk over the
    fields before it ends without error, the call returns the error of
    line 131. *)
Theorem embedded_struct_with_tag (fields pre post : list StructField)
    (typeField : StructField) (d : decl) (val : Value) :
  data <> [] ->
  fields = (pre ++ typeField :: post)%list ->
  settable typeField -> Anonymous typeField = true ->
  kindOf (Type_ typeField) = Struct -> Get (Tag typeField) tag <> "" ->
  (forall dest', bindData ParseFloat (Pointer (TStruct fields d) (Some val)) data tag
                 <> Done (dest', None)) /\
  (forall vals vals',
     val = VStruct vals ->
     walk' pre 0 vals = Done (vals', None) ->
     (length pre < length vals)%nat ->
     bindData ParseFloat (Pointer (TStruct fields d) (Some val)) data tag
     = Done (Pointer (TStruct fields d) (Some (VStruct vals')), Some errAnonymousTag)).
Proof.
  intros Hdata -> Hs Ha Hk Ht.
  assert (E : forall vals,
    bindData ParseFloat (Pointer (TStruct (pre ++ typeField :: post) d)
                           (Some (VStruct vals))) data tag
    = ('(vals', err) ← walk' (pre ++ typeField :: post) 0 vals;
       Done (Pointer (TStruct (pre ++ typeField :: post) d) (Some (VStruct vals')), err))).
  { intros vals. unfold bindData. simpl. rewrite (length_nonempty _ Hdata).
    destruct (walk' _ 0 vals) as [[? ?]|]; reflexivity. }
  assert (W : forall vals'',
    walk' (typeField :: post) (0 + length pre) vals'' = Panicked ReflectPanic \/
    walk' (typeField :: post) (0 + length pre) vals''
    = Done (vals'', Some errAnonymousTag)).
  { intros vals''. by apply walk_embedded_tag. }
  split.
  - intros dest'. destruct val as [| | | | | | | |vals|];
      try (unfold bindData; simpl; rewrite (length_nonempty _ Hdata); discriminate).
    rewrite E, walk_app.
    set (w := walk' (typeField :: post) (0 + length pre)) in *.
    destruct (walk' pre 0 vals) as [[vals' [e|]]|]; simpl; [discriminate| |discriminate].
    destruct (W vals') as [-> | ->]; discriminate.
  - intros vals vals' -> Hpre Hlen. rewrite E, walk_app, Hpre.
    set (w := walk' (typeField :: post) (0 + length pre)) in *. simpl.
    destruct (W vals') as [Hp | ->]; [|reflexivity].
    exfalso. unfold w in Hp. simpl in Hp.
    destruct (vals' !! length pre) as [field|] eqn:El.
    + rewrite bindField_embedded_tag in Hp by done. discriminate.
    + apply lookup_ge_None_1 in El. apply walk_length in Hpre. lia.
Qed.

(** C8, as amended.  On a target that is neither a struct nor a map, a
    call for the source [query] returns nil and leaves the target as it
    was; a call for another source returns the error of line 113 when
    the map is not empty. *)
Theorem target_not_struct (typ : type) (p : option Value) :
  kindOf typ <> Struct -> kindOf typ <> Map ->
  (tag = "query" ->
   bindData ParseFloat (Pointer typ p) data tag = Done (Pointer typ p, None)) /\
  (tag <> "query" -> data <> [] ->
   bindData ParseFloat (Pointer typ p) data tag
   = Done (Pointer typ p, Some errNotStruct)).
Proof.
  intros Hs Hm. split.
  - intros ->. unfold bindData.
    destruct p as [val|]; destruct typ; try done; simpl;
      destruct (length data =? 0)%nat; reflexivity.
  - intros Ht Hd. unfold bindData. rewrite (length_nonempty _ Hd).
    destruct (String.eqb_spec tag "query") as [|_]; [done|].
    destruct p as [val|]; destruct typ; try done; simpl;
      rewrite ?(length_nonempty _ Hd);
      destruct (String.eqb_spec tag "query"); done.
Qed.

End WalkerProperties.

(** ** No index is out of range *)

(** Induction on types that has, for a struct type, the property of the
    type of every field. *)
Lemma type_fields_ind (P : type -> Prop) :
  (forall b d, P (TBasic b d)) ->
  (forall methods, P (TInterface methods)) ->
  (forall elem, P elem -> P (TPtr elem)) ->
  (forall elem d, P elem -> P (TSlice elem d)) ->
  (forall key elem d, P key -> P elem -> P (TMap key elem d)) ->
  (forall fields d,
     Forall (fun f : StructField => P (Type_ f)) fields -> P (TStruct fields d)) ->
  forall t, P t.
Proof.
  intros Hbasic Hinterface Hptr Hslice Hmap Hstruct.
  fix IH 1. intros [b d|methods|elem|elem d|key elem d|fields d].
  - apply Hbasic.
  - apply Hinterface.
  - apply Hptr, IH.
  - apply Hslice, IH.
  - apply Hmap; apply IH.
  - apply Hstruct. induction fields as [|f fields IHf]; constructor.
    + apply IH.
    + apply IHf.
Qed.

Lemma inBounds_bind {A B : Type} (m : res A) (k : A -> res B) :
  inBounds m -> (forall a, m = Done a -> inBounds (k a)) -> inBounds (m ≫= k).
Proof.
  destruct m as [a|p]; intros Hm Hk.
  - by apply Hk.
  - intros E. apply Hm. simpl in E. by injection E as ->.
Qed.

Lemma inBounds_Done {A : Type} (a : A) : inBounds (Done a).
Proof. done. Qed.

Lemma mapIndex_nonEmpty data name vs :
  nonEmptyValues data -> mapIndex data name = Some vs -> vs <> [].
Proof.
  induction 1 as [|[k v] data Hv _ IH]; simpl; [discriminate|].
  destruct (String.eqb k name); [by intros [= <-]|exact IH].
Qed.

Lemma rangeEqualFold_nonEmpty data name vs :
  nonEmptyValues data -> rangeEqualFold data name = Some vs -> vs <> [].
Proof.
  induction 1 as [|[k v] data Hv _ IH]; simpl; [discriminate|].
  destruct (EqualFold k name); [by intros [= <-]|exact IH].
Qed.

Lemma lookupInput_nonEmpty data name vs :
  nonEmptyValues data -> lookupInput data name = Some vs -> vs <> [].
Proof.
  intros Hd. unfold lookupInput.
  destruct (mapIndex data name) eqn:E.
  - intros [= <-]. by eapply mapIndex_nonEmpty.
  - by apply rangeEqualFold_nonEmpty.
Qed.

Section Safety.

Variable ParseFloat : string -> Z -> spec_float + error.

Ltac setter :=
  intros; unfold inBounds, setIntField, setUintField, setBoolField, setFloatField,
    SetInt, SetUint, SetBool, SetFloat, SetString;
  repeat case_match; simpl; discriminate.

Lemma setIntField_inBounds value bitSize t field :
  inBounds (setIntField value bitSize t field).
Proof. setter. Qed.

Lemma setUintField_inBounds value bitSize t field :
  inBounds (setUintField value bitSize t field).
Proof. setter. Qed.

Lemma setBoolField_inBounds value t field : inBounds (setBoolField value t field).
Proof. setter. Qed.

Lemma setFloatField_inBounds value bitSize t field :
  inBounds (setFloatField ParseFloat value bitSize t field).
Proof. setter. Qed.

Lemma unmarshalField_inBounds valueKind val t field :
  inBounds (unmarshalField valueKind val t field).
Proof.
  unfold inBounds, unmarshalField, unmarshalFieldPtr.
  repeat case_match; simpl; discriminate.
Qed.

Lemma setWithProperType_inBounds t :
  forall valueKind val structField,
    inBounds (setWithProperType ParseFloat valueKind val t structField).
Proof.
  induction t as [b d|methods|elem IH|elem d IH|key IHk elem d IHe|fields d];
    intros valueKind val structField; rewrite setWithProperType_unfold;
    (apply inBounds_bind; [apply unmarshalField_inBounds|]);
    intros [sf [[|] err]] _; try apply inBounds_Done;
    destruct valueKind;
    first [ apply inBounds_Done | apply setIntField_inBounds
          | apply setUintField_inBounds | apply setBoolField_inBounds
          | apply setFloatField_inBounds | idtac ];
    try (unfold inBounds, SetString; repeat case_match; simpl; discriminate).
  destruct sf as [| | | | |[pointee|]| | | |]; try done.
  apply inBounds_bind; [apply IH|]. by intros [x e] _.
Qed.

Lemma setElems_inBounds sliceOf (inputValue : list string) n :
  forall j slice,
    (j + n <= length inputValue)%nat ->
    inBounds (setElems ParseFloat sliceOf inputValue n j slice).
Proof.
  induction n as [|n IH]; intros j slice Hn; simpl; [done|].
  destruct (lookup_lt_is_Some_2 inputValue j) as [x Hx]; [lia|].
  unfold index. rewrite Hx. simpl.
  destruct (slice !! j) as [e|]; [|done].
  apply inBounds_bind; [apply setWithProperType_inBounds|].
  intros [e' [err|]] _; [done|]. apply IH. lia.
Qed.

Lemma bindInput_inBounds typeField t structField back (inputValue : list string) :
  inputValue <> [] ->
  inBounds (bindInput ParseFloat typeField t structField back inputValue).
Proof.
  intros Hne. unfold bindInput.
  assert (Hx : exists x, inputValue !! 0%nat = Some x)
    by (destruct inputValue; [done|eauto]).
  destruct Hx as [x Hx]. unfold index. rewrite Hx.
  simpl mbind at 1. cbv iota.
  apply inBounds_bind; [apply unmarshalField_inBounds|].
  intros [sf [[|] err]] _; [done|].
  assert (Hsw : inBounds
    ('(structField0, err0) ←
       setWithProperType ParseFloat (kindOf (Type_ typeField)) x t sf;
     Done (back structField0, stepOf err0))).
  { apply inBounds_bind; [apply setWithProperType_inBounds|]. by intros [? ?] _. }
  destruct t; try exact Hsw.
  cbv zeta. destruct (0 <? length inputValue)%nat; [|exact Hsw].
  apply inBounds_bind; [by apply setElems_inBounds|].
  by intros [slice [e|]] _.
Qed.

Section Fields.

Variable data : Values.
Variable tag : string.
Variable bindNested : type -> Value -> res (Value * option error).
Hypothesis Hdata : nonEmptyValues data.

Lemma bindSettable_inBounds typeField field t structField back :
  (forall v, inBounds (bindNested t v)) ->
  inBounds (bindSettable ParseFloat data tag bindNested typeField field t
              structField back).
Proof.
  intros Hrec. unfold bindSettable.
  repeat case_match; try done.
  - apply inBounds_bind; [apply Hrec|]. by intros [? ?] _.
  - apply bindInput_inBounds. by eapply lookupInput_nonEmpty.
Qed.

Lemma bindField_inBounds typeField field :
  nestedInBounds bindNested typeField ->
  inBounds (bindField ParseFloat data tag bindNested typeField field).
Proof.
  intros [H1 H2]. unfold bindField.
  destruct (Anonymous typeField && bool_decide (kindOf (Type_ typeField) = Ptr)).
  - destruct (Type_ typeField) eqn:ET; try done.
    destruct field as [| | | | |[pointee|]| | | |]; try done.
    apply bindSettable_inBounds. intros v. by eapply H2.
  - by apply bindSettable_inBounds.
Qed.

Lemma walk_inBounds fields :
  Forall (nestedInBounds bindNested) fields ->
  forall i vals, inBounds (walk ParseFloat data tag bindNested fields i vals).
Proof.
  induction 1 as [|f fields Hf _ IH]; intros i vals; simpl; [done|].
  destruct (vals !! i) as [field|]; [|done].
  apply inBounds_bind; [by apply bindField_inBounds|].
  intros [field' [|e]] _; [apply IH|done].
Qed.

End Fields.

Lemma setEntries_inBounds key elem data :
  nonEmptyValues data ->
  forall val, inBounds (setEntries key elem data val).
Proof.
  induction 1 as [|[k v] data Hv _ IH]; intros val; simpl; [done|].
  destruct v as [|x rest]; [done|]. unfold index. simpl.
  unfold SetMapIndex. repeat case_match; try done; apply IH.
Qed.

Lemma bindDataAt_inBounds data tag :
  nonEmptyValues data ->
  forall typ,
    (forall val, inBounds (bindDataAt ParseFloat data tag typ val)) /\
    (forall elem val, typ = TPtr elem ->
       inBounds (bindDataAt ParseFloat data tag elem val)).
Proof.
  intros Hd typ.
  induction typ as [b d|methods|elem IH|elem d IH|key IHk elem d IHe|fields d IH]
    using type_fields_ind.
  - split; [|done]. intros val. simpl. repeat case_match; done.
  - split; [|done]. intros val. simpl. repeat case_match; done.
  - split; [|intros ? ? [= <-]; apply (proj1 IH)]. intros val. simpl. repeat case_match; done.
  - split; [|done]. intros val. simpl. repeat case_match; done.
  - split; [|done]. intros val. simpl. destruct (length data =? 0)%nat; [done|].
    apply inBounds_bind; [by apply setEntries_inBounds|done].
  - split; [|done]. intros val. simpl. destruct (length data =? 0)%nat; [done|].
    destruct val; try done.
    apply inBounds_bind; [|by intros [? ?] _].
    apply walk_inBounds; [done|].
    eapply Forall_impl; [exact IH|]. intros f [H1 H2]. split; [exact H1|].
    intros elem' v E. by eapply H2.
Qed.

(** C10.  When every key of the value map has at least one value, no run
    of [bindData] ends in an index out of range: neither [v[0]] in the
    copy into a map (line 102), nor [inputValue[0]] for the decoder of
    the field or for the scalar (lines 165 and 182), nor [inputValue[j]]
    in the loop over the elements (line 177). *)
Theorem first_value_in_bounds (destination : Destination) (data : Values)
    (tag : string) :
  nonEmptyValues data ->
  bindData ParseFloat destination data tag <> Panicked IndexOutOfRange.
Proof.
  intros Hd. change (inBounds (bindData ParseFloat destination data tag)).
  unfold bindData. destruct destination as [|t v|typ [val|]].
  - done.
  - by destruct (length data =? 0)%nat.
  - apply inBounds_bind; [by apply bindDataAt_inBounds|]. by intros [? ?] _.
  - destruct (length data =? 0)%nat; [done|].
    destruct typ as [| | | | |[|f fs]]; try (by repeat case_match).
    destruct Hd as [|[k v] data Hv _]; [done|].
    destruct v; [done|]. done.
Qed.

End Safety.

(** ** Properties of the source dispatcher *)

Section DispatcherProperties.

Variable ParseFloat : string -> Z -> spec_float + error.
Variable jsonDecode : string -> Destination -> Destination * option error.
Variable xmlDecode : string -> Destination -> Destination * option error.

Abbreviation Bind' := (Bind ParseFloat jsonDecode xmlDecode).
Abbreviation BindBody' := (BindBody ParseFloat jsonDecode xmlDecode).
Abbreviation BindQueryParams' := (BindQueryParams ParseFloat).

Lemma carriesBody_eqb method :
  carriesBody method <->
  String.eqb method MethodPost || String.eqb method MethodPut
  || String.eqb method MethodPatch = true.
Proof.
  unfold carriesBody. rewrite !orb_true_iff.
  rewrite !String.eqb_eq. tauto.
Qed.

Lemma bindField_string data tag typeField field d x rest :
  settable typeField -> Type_ typeField = TBasic BString d ->
  noUnmarshaler (Type_ typeField) ->
  Get (Tag typeField) tag <> "" ->
  lookupInput data (Get (Tag typeField) tag) = Some (x :: rest) ->
  bindField ParseFloat data tag (bindDataAt ParseFloat data tag) typeField field
  = Done (VString x, Continue).
Proof.
  intros Hs HT Hu Ht HL.
  rewrite bindField_direct by (intros _; by rewrite HT).
  rewrite bindSettable_tagged by (try done; intros _; by rewrite HT).
  rewrite HL. unfold bindInput, index. simpl (_ !! _). simpl mbind at 1.
  rewrite unmarshalField_NonPtr by (by rewrite HT).
  rewrite (unmarshalFieldNonPtr_plain _ _ _ Hu). simpl mbind at 1. cbv iota.
  rewrite setWithProperType_unfold.
  rewrite unmarshalField_NonPtr by (by rewrite HT).
  rewrite (unmarshalFieldNonPtr_plain _ _ _ Hu). rewrite HT. reflexivity.
Qed.

Lemma walk_string_field data tag (pre post : list StructField) typeField
    vals vals' d x rest :
  settable typeField -> Type_ typeField = TBasic BString d ->
  noUnmarshaler (Type_ typeField) ->
  Get (Tag typeField) tag <> "" ->
  lookupInput data (Get (Tag typeField) tag) = Some (x :: rest) ->
  walk ParseFloat data tag (bindDataAt ParseFloat data tag)
    (pre ++ typeField :: post) 0 vals = Done (vals', None) ->
  vals' !! length pre = Some (VString x).
Proof.
  intros Hs HT Hu Ht HL. rewrite walk_app.
  destruct (walk _ _ _ _ pre 0%nat vals) as [[vals1 [e|]]|] eqn:Epre;
    simpl; [discriminate| |discriminate].
  destruct (vals1 !! length pre) as [field|] eqn:El; [|discriminate].
  rewrite (bindField_string _ _ _ _ _ _ _ Hs HT Hu Ht HL). simpl.
  intros Hpost.
  rewrite (walk_lookup_lt _ _ _ _ _ _ _ _ Hpost (length pre)) by lia.
  apply list_lookup_insert_eq. by eapply lookup_lt_Some.
Qed.

Lemma bindData_struct_success destination data tag fields d vals' :
  data <> [] ->
  bindData ParseFloat destination data tag
  = Done (Pointer (TStruct fields d) (Some (VStruct vals')), None) ->
  exists vals,
    walk ParseFloat data tag (bindDataAt ParseFloat data tag) fields 0 vals
    = Done (vals', None).
Proof.
  intros Hd. unfold bindData.
  destruct destination as [|t v|typ [val|]]; try discriminate.
  - rewrite (length_nonempty _ Hd). discriminate.
  - destruct (bindDataAt ParseFloat data tag typ val) as [[val' err]|] eqn:E;
      simpl; [|discriminate].
    intros [= -> -> ->]. simpl in E. rewrite (length_nonempty _ Hd) in E.
    destruct val; try discriminate.
    destruct (walk _ _ _ _ fields 0%nat fields0) as [[vals1 err1]|] eqn:Ew;
      simpl in E; [|discriminate].
    injection E as -> ->. eauto.
  - rewrite (length_nonempty _ Hd).
    destruct typ as [| | | | |[|? ?]];
      try (destruct (String.eqb tag "query")); try discriminate.
    all: destruct data as [|[k [|x r]] ?]; discriminate.
Qed.

Lemma BindQueryParams_success req v final :
  BindQueryParams' req v = Done (final, None) ->
  bindData ParseFloat v (Query req) "query" = Done (final, None).
Proof.
  unfold BindQueryParams, QueryParams.
  destruct (bindData ParseFloat v (Query req) "query") as [[i [e|]]|];
    simpl; [discriminate| |discriminate].
  by intros [= ->].
Qed.

Lemma Bind_success req v final :
  Bind' req v = Done (final, None) ->
  exists v1, BindQueryParams' req v1 = Done (final, None).
Proof.
  unfold Bind. cbv zeta.
  destruct (_ || _ || _); [|eauto].
  destruct (BindBody' req v) as [[v1 [e|]]|]; simpl; [discriminate|eauto|discriminate].
Qed.


End DispatcherProperties.

(** ** Runs of the model *)

Abbreviation sampleBind := (bindData Sample.ParseFloat).

Example bind_three_fields :
  sampleBind
    (Pointer (TStruct [Sample.fIDs; Sample.fName; Sample.field "P" (TPtr Sample.tInt) [("query", "p")]] plain)
       (Some (VStruct [VSlice []; VString ""; VPtr None])))
    [("ids", ["1"; "2"; "3"]); ("name", ["bob"]); ("p", ["-12"])] "query"
  = Done (Pointer (TStruct [Sample.fIDs; Sample.fName; Sample.field "P" (TPtr Sample.tInt) [("query", "p")]] plain)
            (Some (VStruct [VSlice [VInt 1; VInt 2; VInt 3]; VString "bob";
                            VPtr (Some (VInt (-12)))])), None).
Proof. reflexivity. Qed.

Example bind_into_map :
  sampleBind (Pointer (TMap Sample.tString Sample.tString plain) (Some (VMap (Some ∅))))
    [("a", ["1"; "2"]); ("b", ["3"])] "form"
  = Done (Pointer (TMap Sample.tString Sample.tString plain)
            (Some (VMap (Some (<["b" := VString "3"]> (<["a" := VString "1"]> ∅))))), None).
Proof. reflexivity. Qed.

Example bind_nested_struct :
  sampleBind (Pointer (TStruct [Sample.fNested] plain) (Some (VStruct [VStruct [VInt 0]])))
    [("x", ["5"])] "query"
  = Done (Pointer (TStruct [Sample.fNested] plain) (Some (VStruct [VStruct [VInt 5]])), None).
Proof. reflexivity. Qed.

Example parse_int_range :
  strconv.ParseInt "-128" 8 = inl (-128) /\
  strconv.ParseInt "128" 8 = inr (NumError "ParseInt" "128" strconv.ErrRange) /\
  strconv.ParseInt "+7" 0 = inl 7 /\
  strconv.ParseInt "9223372036854775808" 0
    = inr (NumError "ParseInt" "9223372036854775808" strconv.ErrRange) /\
  strconv.ParseUint "18446744073709551615" 64 = inl 18446744073709551615 /\
  strconv.ParseUint "-1" 64 = inr (NumError "ParseUint" "-1" strconv.ErrSyntax) /\
  strconv.ParseInt "12a" 64 = inr (NumError "ParseInt" "12a" strconv.ErrSyntax) /\
  strconv.ParseInt "1" 65 = inr (NumError "ParseInt" "1" "invalid bit size 65").
Proof. repeat split; reflexivity. Qed.

(** Without the premise of the theorem on the first values, the index is
    out of range. *)
Example empty_value_list_panics :
  sampleBind (Pointer (TStruct [Sample.fName] plain) (Some (VStruct [VString ""])))
    [("Name", [])] "query" = Panicked IndexOutOfRange.
Proof. reflexivity. Qed.

(** ** The theorems at sample inputs *)

Abbreviation sampleField data tag :=
  (bindField Sample.ParseFloat data tag (bindDataAt Sample.ParseFloat data tag)).
Abbreviation sampleCoerce := (setWithProperType Sample.ParseFloat).

(** The empty string stores zero in a [float64] that held 1 and in an
    [int8] that held 7. *)
Lemma empty_string_is_zero_witness :
  setFloatField Sample.ParseFloat "" 64 Sample.tFloat64 (VFloat Sample.one)
    = Done (VFloat (S754_zero false), None) /\
  setIntField "" 8 Sample.tInt8 (VInt 7) = Done (VInt 0, None).
Proof.
  pose proof (empty_string_is_zero Sample.ParseFloat (fun _ => eq_refl)) as H.
  split.
  - apply (H Sample.tFloat64 (VFloat Sample.one)). reflexivity.
  - apply (H Sample.tInt8 (VInt 7)); [repeat constructor|reflexivity].
Defined.

(** 300 does not fit an [int8]: the field keeps its 7. *)
Lemma parse_failure_leaves_field_witness :
  setIntField "300" 8 Sample.tInt8 (VInt 7)
  = Done (VInt 7, Some (NumError "ParseInt" "300" strconv.ErrRange)).
Proof.
  refine (proj1 (proj1 (parse_failure_leaves_field "300" 8 Sample.tInt8 (VInt 7)
                          (NumError "ParseInt" "300" strconv.ErrRange) _) eq_refl)).
  discriminate.
Defined.

(** A nil [*int] points at 5 after the coercion of the string 5. *)
Lemma pointer_coercion_witness :
  exists x, VPtr (Some (VInt 5)) = VPtr (Some x) /\
    sampleCoerce Int "5" Sample.tInt (VInt 0) = Done (x, None).
Proof.
  apply (proj2 (proj2 (pointer_coercion Sample.ParseFloat "5" Sample.tInt None))).
  reflexivity.
Defined.


(** The values 1, 2, 3 under [ids] become the slice 1, 2, 3; with x in
    the place of 2 the field stays empty and the error is that of x. *)
Lemma slice_field_elementwise_witness :
  sampleField [("ids", ["1"; "2"; "3"])] "query" Sample.fIDs (VSlice [])
    = Done (VSlice [VInt 1; VInt 2; VInt 3], Continue) /\
  sampleField [("ids", ["1"; "x"; "3"])] "query" Sample.fIDs (VSlice [])
    = Done (VSlice [], Return (NumError "ParseInt" "x" strconv.ErrSyntax)).
Proof.
  split.
  - apply (proj1 (slice_field_elementwise Sample.ParseFloat [("ids", ["1"; "2"; "3"])]
             "query" Sample.fIDs (VSlice []) Sample.tInt plain ["1"; "2"; "3"]
             eq_refl ltac:(discriminate) eq_refl (conj eq_refl eq_refl) eq_refl
             ltac:(discriminate))).
    repeat constructor.
  - apply (proj2 (slice_field_elementwise Sample.ParseFloat [("ids", ["1"; "x"; "3"])]
             "query" Sample.fIDs (VSlice []) Sample.tInt plain ["1"; "x"; "3"]
             eq_refl ltac:(discriminate) eq_refl (conj eq_refl eq_refl) eq_refl
             ltac:(discriminate)) ["1"] "x" ["3"] [VInt 1] (VInt 0)).
    + reflexivity.
    + repeat constructor.
    + reflexivity.
Defined.

(** A map whose keys all have values. *)
Lemma first_value_in_bounds_witness :
  sampleBind (Pointer (TStruct [Sample.fIDs] plain) (Some (VStruct [VSlice []])))
    [("ids", ["1"; "2"; "3"]); ("name", ["bob"])] "query"
  <> Panicked IndexOutOfRange.
Proof.
  apply first_value_in_bounds.
  constructor; [discriminate|]. constructor; [discriminate|]. constructor.
Defined.

(** The embedded [Inner] of [Outer] has a tag: with a map that is not
    empty the call returns the error of line 131. *)
Lemma embedded_struct_with_tag_witness :
  sampleBind (Pointer Sample.tOuter (Some Sample.vOuter)) [("x", ["5"])] "query"
  = Done (Pointer Sample.tOuter (Some Sample.vOuter), Some errAnonymousTag).
Proof.
  refine (proj2 (embedded_struct_with_tag Sample.ParseFloat [("x", ["5"])] "query"
                   [Sample.fEmbedded] [] [] Sample.fEmbedded Sample.main Sample.vOuter
                   _ eq_refl eq_refl eq_refl eq_refl _)
            [VStruct [VInt 0]] [VStruct [VInt 0]] eq_refl eq_refl _).
  - discriminate.
  - discriminate.
  - simpl. lia.
Defined.

(** An [int] as target: nil for [query], the error of line 113 for
    [form]. *)
Lemma target_not_struct_witness :
  sampleBind (Pointer Sample.tInt (Some (VInt 7))) [("a", ["1"])] "query"
    = Done (Pointer Sample.tInt (Some (VInt 7)), None) /\
  sampleBind (Pointer Sample.tInt (Some (VInt 7))) [("a", ["1"])] "form"
    = Done (Pointer Sample.tInt (Some (VInt 7)), Some errNotStruct).
Proof.
  split.
  - apply (proj1 (target_not_struct Sample.ParseFloat [("a", ["1"])] "query"
                    Sample.tInt (Some (VInt 7)) ltac:(discriminate) ltac:(discriminate))).
    reflexivity.
  - apply (proj2 (target_not_struct Sample.ParseFloat [("a", ["1"])] "form"
                    Sample.tInt (Some (VInt 7)) ltac:(discriminate) ltac:(discriminate)));
      discriminate.
Defined.

(** Three fields without a tag: a plain struct is bound by the nested
    call, a struct with [UnmarshalParam] and a string are passed over. *)
Lemma untagged_field_witness :
  sampleField [("x", ["5"]); ("raw", ["r"])] "query" Sample.fNested (VStruct [VInt 0])
    = Done (VStruct [VInt 5], Continue) /\
  sampleField [("x", ["5"]); ("raw", ["r"])] "query" Sample.fID (VStruct [VString ""])
    = Done (VStruct [VString ""], Continue) /\
  sampleField [("x", ["5"]); ("raw", ["r"])] "query" Sample.fNote (VString "")
    = Done (VString "", Continue).
Proof.
  split; [|split].
  - rewrite (proj1 (untagged_field Sample.ParseFloat [("x", ["5"]); ("raw", ["r"])]
                      "query" Sample.fNested (VStruct [VInt 0]) eq_refl
                      ltac:(intros H; discriminate H) eq_refl) eq_refl eq_refl).
    reflexivity.
  - apply (proj1 (proj2 (untagged_field Sample.ParseFloat [("x", ["5"]); ("raw", ["r"])]
                           "query" Sample.fID (VStruct [VString ""]) eq_refl
                           ltac:(intros H; discriminate H) eq_refl)));
      reflexivity.
  - apply (proj2 (proj2 (untagged_field Sample.ParseFloat [("x", ["5"]); ("raw", ["r"])]
                           "query" Sample.fNote (VString "") eq_refl
                           ltac:(intros H; discriminate H) eq_refl))).
    discriminate.
Defined.

Abbreviation sampleBindAll := (Bind Sample.ParseFloat Sample.jsonDecode Sample.xmlDecode).


(** ** Where the specification and the code part *)


(** C2, as stated, fails.  [Outer] embeds the struct [Inner] with the tag
    [query:"inner"], and the field can be set; on the empty map the call
    returns nil.  And a struct that embeds [inner], which is not exported,
    with a tag is bound without error on any map: line 124 passes the
    field over before line 129 looks at the tag. *)
Lemma embedded_tag_empty_map :
  (settable Sample.fEmbedded /\ Anonymous Sample.fEmbedded = true /\
   kindOf (Type_ Sample.fEmbedded) = Struct /\
   Get (Tag Sample.fEmbedded) "query" = "inner" /\
   sampleBind (Pointer Sample.tOuter (Some Sample.vOuter)) [] "query"
   = Done (Pointer Sample.tOuter (Some Sample.vOuter), None)) /\
  (Anonymous Sample.fembedded = true /\
   kindOf (Type_ Sample.fembedded) = Struct /\
   Get (Tag Sample.fembedded) "query" = "inner" /\
   sampleBind (Pointer (TStruct [Sample.fembedded] Sample.main) (Some Sample.vOuter))
     [("x", ["5"])] "query"
   = Done (Pointer (TStruct [Sample.fembedded] Sample.main) (Some Sample.vOuter), None)).
Proof. repeat split; reflexivity. Qed.

(** C3, as stated, fails.  [Stamp] is a struct that decodes itself from a
    string, by [UnmarshalText], and [unmarshalFieldNonPtr] takes that
    path for it; yet the untagged field [When Stamp] is not passed over:
    the walker goes into it and stores the value of [raw] in its field.
    The untagged field [inner Inner], a struct without any decoder, is
    not walked: it is not exported and line 124 passes it over.  And the
    untagged embedded [*Inner], a pointer and no struct, is not passed
    over: lines 119-123 put its pointee in its place, which is walked. *)
Lemma text_unmarshaler_struct_is_walked :
  (Get (Tag Sample.fWhen) "query" = "" /\
   kindOf (Type_ Sample.fWhen) = Struct /\
   unmarshalFieldNonPtr "2026" Sample.tStamp (VStruct [VString ""])
     = (VStruct [VString "2026"], (true, None)) /\
   sampleField [("raw", ["r"])] "query" Sample.fWhen (VStruct [VString ""])
     = Done (VStruct [VString "r"], Continue)) /\
  (Get (Tag Sample.finner) "query" = "" /\
   kindOf (Type_ Sample.finner) = Struct /\
   unmarshalFieldNonPtr "5" Sample.tInner (VStruct [VInt 0])
     = (VStruct [VInt 0], (false, None)) /\
   bindDataAt Sample.ParseFloat [("x", ["5"])] "query" Sample.tInner (VStruct [VInt 0])
     = Done (VStruct [VInt 5], None) /\
   sampleField [("x", ["5"])] "query" Sample.finner (VStruct [VInt 0])
     = Done (VStruct [VInt 0], Continue)) /\
  (Get (Tag Sample.fInnerPtr) "query" = "" /\
   kindOf (Type_ Sample.fInnerPtr) = Ptr /\
   sampleField [("x", ["5"])] "query" Sample.fInnerPtr (VPtr (Some (VStruct [VInt 0])))
     = Done (VPtr (Some (VStruct [VInt 5])), Continue)).
Proof. repeat split; reflexivity. Qed.


(** C7, as stated, fails.  The slice field [ids] is tagged [ids], has no
    decoder of its own and the map has the key [ids], but the field is not
    exported: line 124 passes it over and no sequence is assigned.  On the
    exported [IDs], a value that does not coerce ends the call with its
    error before line 181 assigns anything, and an entry without values
    makes line 165 panic. *)
Lemma unexported_slice_not_assigned :
  (kindOf (Type_ Sample.fids) = Slice /\
   Get (Tag Sample.fids) "query" = "ids" /\
   noUnmarshaler (Type_ Sample.fids) /\
   lookupInput [("ids", ["1"; "2"; "3"])] "ids" = Some ["1"; "2"; "3"] /\
   sampleField [("ids", ["1"; "2"; "3"])] "query" Sample.fids (VSlice [])
     = Done (VSlice [], Continue)) /\
  sampleField [("ids", ["1"; "x"; "3"])] "query" Sample.fIDs (VSlice [])
    = Done (VSlice [], Return (NumError "ParseInt" "x" strconv.ErrSyntax)) /\
  sampleField [("ids", [])] "query" Sample.fIDs (VSlice [])
    = Panicked IndexOutOfRange.
Proof. repeat split; reflexivity. Qed.

(** C8, as stated, fails.  The target is an [int] and the source is
    [form]; on the empty map the call returns nil, not an error. *)
Lemma form_target_empty_map :
  kindOf Sample.tInt <> Struct /\ kindOf Sample.tInt <> Map /\
  sampleBind (Pointer Sample.tInt (Some (VInt 7))) [] "form"
  = Done (Pointer Sample.tInt (Some (VInt 7)), None).
Proof. repeat split; first [discriminate | reflexivity]. Qed.

(** ** Which fields a walk leaves alone *)

Section FrameProperties.

Variable ParseFloat : string -> Z -> spec_float + error.
Variable data : Values.
Variable tag : string.

Abbreviation nested := (bindDataAt ParseFloat data tag).
Abbreviation pass := (bindField ParseFloat data tag nested).
Abbreviation passes := (walk ParseFloat data tag nested).

(** The passes on [fields], which start at [i], leave the values from
    [i + length fields] on alone. *)
Lemma walk_lookup_ge (fields : list StructField) :
  forall i vals vals' err,
    passes fields i vals = Done (vals', err) ->
    forall j, (i + length fields <= j)%nat -> vals' !! j = vals !! j.
Proof.
  induction fields as [|f fields IH]; intros i vals vals' err; simpl.
  - by intros [= <- _].
  - destruct (vals !! i) as [field|]; [|done].
    destruct (pass f field) as [[field' [|e]]|]; simpl; [| |done].
    + intros H j Hj. rewrite (IH _ _ _ _ H j) by lia.
      apply list_lookup_insert_ne. lia.
    + intros [= <- _] j Hj. apply list_lookup_insert_ne. lia.
Qed.

Abbreviation kept := (keeps ParseFloat data tag).

Lemma walk_keeps (pre post : list StructField) typeField vals vals' err :
  kept typeField ->
  passes (pre ++ typeField :: post) 0 vals = Done (vals', err) ->
  vals' !! length pre = vals !! length pre.
Proof.
  intros Hk. rewrite walk_app.
  destruct (passes pre 0%nat vals) as [[vals1 [e|]]|] eqn:Epre; simpl; [|..|done].
  - intros [= <- _]. eapply walk_lookup_ge; [exact Epre|]. lia.
  - destruct (vals1 !! length pre) as [field|] eqn:El; [|done].
    destruct (pass typeField field) as [[field' next]|] eqn:Ep; simpl; [|done].
    apply Hk in Ep as ->. rewrite (list_insert_id _ _ _ El).
    assert (E1 : vals1 !! length pre = vals !! length pre)
      by (eapply walk_lookup_ge; [exact Epre|]; lia).
    destruct next as [|e].
    + intros H. rewrite <- E1. eapply walk_lookup_lt; [exact H|]. lia.
    + by intros [= <- _].
Qed.

(** The same for a call of [bindData] on a struct. *)
Lemma bindData_keeps (fields : list StructField) d vals i typeField dest' err :
  fields !! i = Some typeField ->
  kept typeField ->
  bindData ParseFloat (Pointer (TStruct fields d) (Some (VStruct vals))) data tag
    = Done (dest', err) ->
  exists vals',
    dest' = Pointer (TStruct fields d) (Some (VStruct vals')) /\
    vals' !! i = vals !! i.
Proof.
  intros Hi Hk. unfold bindData. simpl.
  destruct (length data =? 0)%nat.
  { simpl. intros [= <- _]. eauto. }
  destruct (passes fields 0%nat vals) as [[vals' e]|] eqn:Ew; simpl; [|done].
  intros [= <- _]. exists vals'. split; [done|].
  rewrite <- (take_drop_middle _ _ _ Hi) in Ew.
  apply (walk_keeps _ _ _ _ _ _ Hk) in Ew.
  rewrite length_take_le in Ew; [done|].
  apply lookup_lt_Some in Hi. lia.
Qed.

Lemma keeps_unexported typeField :
  CanSet typeField = false -> kept typeField.
Proof.
  intros Hc field field' next. unfold bindField, bindSettable. rewrite Hc. simpl.
  repeat case_match; try discriminate; by intros [= <- _].
Qed.


Lemma walkedType_direct typeField :
  Anonymous typeField && bool_decide (kindOf (Type_ typeField) = Ptr) = false ->
  walkedType typeField = Type_ typeField.
Proof.
  unfold walkedType. destruct (Anonymous typeField); [|done].
  destruct (Type_ typeField); simpl; try done.
Qed.

Lemma bindSettable_untagged_keeps typeField field t structField back field' next :
  Get (Tag typeField) tag = "" ->
  kindOf t <> Struct \/ isBindUnmarshaler t = true ->
  bindSettable ParseFloat data tag nested typeField field t structField back
    = Done (field', next) ->
  field' = field.
Proof.
  intros Ht Hw. unfold bindSettable. rewrite Ht.
  destruct (negb (CanSet typeField)); [by intros [= <- _]|].
  change (String.eqb "" "") with true. cbv zeta. simpl negb at 1.
  rewrite andb_false_r.
  assert (E : negb (isBindUnmarshaler t) && bool_decide (kindOf t = Struct) = false).
  { destruct Hw as [Hw|Hw].
    - by rewrite (bool_decide_eq_false_2 _ Hw), andb_false_r.
    - by rewrite Hw. }
  rewrite E. by intros [= <- _].
Qed.

Lemma keeps_untagged typeField :
  Get (Tag typeField) tag = "" ->
  kindOf (walkedType typeField) <> Struct \/
  isBindUnmarshaler (walkedType typeField) = true ->
  kept typeField.
Proof.
  intros Ht Hw field field' next. unfold bindField.
  destruct (Anonymous typeField && bool_decide (kindOf (Type_ typeField) = Ptr)) eqn:Ea.
  - apply andb_true_iff in Ea as [Ha _].
    unfold walkedType in Hw. rewrite Ha in Hw.
    destruct (Type_ typeField) as [b dd|m|elem|elem dd|k e dd|fs dd]; try discriminate.
    destruct field as [| | | | |[pointee|]| | | |]; try discriminate.
    + by apply bindSettable_untagged_keeps.
    + by intros [= <- _].
  - rewrite (walkedType_direct _ Ea) in Hw. by apply bindSettable_untagged_keeps.
Qed.

(** X1.  A field that is not exported is never written: after a call of
    [bindData] on a struct that returns, with or without error, the field
    holds the value it held before, whatever the map and the tags. *)
Theorem unexported_field_kept (fields : list StructField) (d : decl)
    (vals : list Value) (i : nat) (typeField : StructField)
    (dest' : Destination) (err : option error) :
  fields !! i = Some typeField ->
  CanSet typeField = false ->
  bindData ParseFloat (Pointer (TStruct fields d) (Some (VStruct vals))) data tag
    = Done (dest', err) ->
  exists vals',
    dest' = Pointer (TStruct fields d) (Some (VStruct vals')) /\
    vals' !! i = vals !! i.
Proof.
  intros Hi Hc. apply (bindData_keeps _ _ _ _ _ _ _ Hi). by apply keeps_unexported.
Qed.


(** X3.  Only fields with a tag for the source are bound: a field without
    one keeps its value through a call of [bindData] on the struct,
    unless it is a struct (or an embedded pointer to one) whose pointer
    type does not implement [BindUnmarshaler], into which the walk
    goes. *)
Theorem untagged_field_kept (fields : list StructField) (d : decl)
    (vals : list Value) (i : nat) (typeField : StructField)
    (dest' : Destination) (err : option error) :
  fields !! i = Some typeField ->
  Get (Tag typeField) tag = "" ->
  kindOf (walkedType typeField) <> Struct \/
  isBindUnmarshaler (walkedType typeField) = true ->
  bindData ParseFloat (Pointer (TStruct fields d) (Some (VStruct vals))) data tag
    = Done (dest', err) ->
  exists vals',
    dest' = Pointer (TStruct fields d) (Some (VStruct vals')) /\
    vals' !! i = vals !! i.
Proof.
  intros Hi Ht Hw. apply (bindData_keeps _ _ _ _ _ _ _ Hi). by apply keeps_untagged.
Qed.

(** The walk that returns an error stopped at a field, whose pass returned
    that error, and did not reach the fields after it. *)
Lemma walk_error_at (fields : list StructField) :
  forall i vals vals' e,
    passes fields i vals = Done (vals', Some e) ->
    exists k typeField field field',
      fields !! k = Some typeField /\
      vals !! (i + k)%nat = Some field /\
      pass typeField field = Done (field', Return e) /\
      vals' !! (i + k)%nat = Some field' /\
      forall j, (i + k < j)%nat -> vals' !! j = vals !! j.
Proof.
  induction fields as [|f fields IH]; intros i vals vals' e; simpl; [done|].
  destruct (vals !! i) as [field|] eqn:El; [|done].
  destruct (pass f field) as [[field' [|e']]|] eqn:Ep; simpl; [| |done].
  - intros H. destruct (IH _ _ _ _ H) as (k & tf & fd & fd' & Hk & Hv & Hp & Hv' & Hj).
    exists (S k), tf, fd, fd'. rewrite Nat.add_succ_r.
    rewrite list_lookup_insert_ne in Hv by lia.
    repeat split; try done.
    intros j Hlt. rewrite Hj by lia. apply list_lookup_insert_ne. lia.
  - intros [= <- <-]. exists 0%nat, f, field, field'. rewrite Nat.add_0_r.
    repeat split; try done.
    + apply list_lookup_insert_eq. by eapply lookup_lt_Some.
    + intros j Hlt. apply list_lookup_insert_ne. lia.
Qed.

(** X4.  A call of [bindData] on a struct that returns an error stopped
    at one field: the error is the one that the pass on this field
    returned, on the value the field had before the call, and the fields
    declared after it hold what they held before the call. *)
Theorem error_stops_the_walk (fields : list StructField) (d : decl)
    (vals : list Value) (dest' : Destination) (e : error) :
  bindData ParseFloat (Pointer (TStruct fields d) (Some (VStruct vals))) data tag
    = Done (dest', Some e) ->
  exists k typeField field field' vals',
    dest' = Pointer (TStruct fields d) (Some (VStruct vals')) /\
    fields !! k = Some typeField /\
    vals !! k = Some field /\
    pass typeField field = Done (field', Return e) /\
    vals' !! k = Some field' /\
    forall j, (k < j)%nat -> vals' !! j = vals !! j.
Proof.
  unfold bindData. simpl. destruct (length data =? 0)%nat; [done|].
  destruct (passes fields 0%nat vals) as [[vals' [e'|]]|] eqn:Ew; simpl; [|done..].
  intros [= <- <-].
  destruct (walk_error_at _ _ _ _ _ Ew) as (k & tf & fd & fd' & H).
  exists k, tf, fd, fd', vals'. simpl in H. by destruct H as (? & ? & ? & ? & ?).
Qed.

End FrameProperties.

(** ** More on the coercer *)

Lemma digit_range c d : strconv.digit c = Some d -> 0 <= d <= 9.
Proof.
  unfold strconv.digit. case_match eqn:E; [|done]. intros [= <-].
  apply andb_true_iff in E as [E1 E2]. lia.
Qed.

Lemma digits_range fn s0 maxVal s :
  forall n r, strconv.digits fn s0 maxVal s n = inl r ->
    0 <= n <= maxVal -> 0 <= r <= maxVal.
Proof.
  induction s as [|c s IH]; intros n r; simpl; [by intros [= <-]|].
  destruct (strconv.digit c) as [d|] eqn:Ed; [|done].
  destruct (maxVal <? n * 10 + d) eqn:El; [done|].
  intros H Hn. apply (IH _ _ H). apply digit_range in Ed. lia.
Qed.

Lemma ParseUintAs_range fn s0 s bitSize r :
  strconv.ParseUintAs fn s0 s bitSize = inl r ->
  1 <= strconv.width bitSize <= 64 /\ 0 <= r < 2 ^ strconv.width bitSize.
Proof.
  unfold strconv.ParseUintAs. destruct s as [|c s]; [done|].
  destruct ((bitSize <? 0) || (64 <? bitSize)) eqn:Eb; [done|].
  apply orb_false_iff in Eb as [E1 E2].
  assert (Hw : 1 <= strconv.width bitSize <= 64).
  { unfold strconv.width, strconv.IntSize. destruct (bitSize =? 0) eqn:E0; lia. }
  intros H. split; [done|].
  assert (0 < 2 ^ strconv.width bitSize) by (apply Z.pow_pos_nonneg; lia).
  apply digits_range in H; lia.
Qed.

Lemma ParseInt_range s bitSize r :
  strconv.ParseInt s bitSize = inl r ->
  1 <= strconv.width bitSize <= 64 /\
  - 2 ^ (strconv.width bitSize - 1) <= r < 2 ^ (strconv.width bitSize - 1).
Proof.
  unfold strconv.ParseInt. destruct s as [|c rest]; [done|]. cbv zeta.
  destruct (strconv.ParseUintAs _ _ _ _) as [un|] eqn:Eu; [|done].
  apply ParseUintAs_range in Eu as [Hw Hu].
  destruct (Ascii.eqb c "-") eqn:Eneg; simpl.
  - destruct (2 ^ (strconv.width bitSize - 1) <? un) eqn:E; [done|].
    intros [= <-]. split; [done|].
    assert (0 < 2 ^ (strconv.width bitSize - 1)) by (apply Z.pow_pos_nonneg; lia).
    lia.
  - destruct (2 ^ (strconv.width bitSize - 1) <=? un) eqn:E; [done|].
    intros [= <-]. split; [done|]. lia.
Qed.

Lemma wrapInt_same w x :
  1 <= w -> - 2 ^ (w - 1) <= x < 2 ^ (w - 1) -> wrapInt w x = x.
Proof.
  intros Hw Hx. unfold wrapInt.
  assert (E : 2 ^ w = 2 * 2 ^ (w - 1)).
  { replace w with (Z.succ (w - 1)) at 1 by lia. apply Z.pow_succ_r. lia. }
  rewrite Z.mod_small by lia. lia.
Qed.

Section CoercerExtras.

Variable ParseFloat : string -> Z -> spec_float + error.

Abbreviation coerce := (setWithProperType ParseFloat).

Lemma unmarshalField_plain t val field :
  noUnmarshaler t -> kindOf t <> Ptr ->
  unmarshalField (kindOf t) val t field = Done (field, (false, None)).
Proof.
  intros Hn Hk. rewrite unmarshalField_NonPtr by done.
  by rewrite unmarshalFieldNonPtr_plain.
Qed.

Lemma setIntField_stores value bitSize t field v' :
  isSigned (kindOf t) = true ->
  bits (kindOf t) = Some (strconv.width bitSize) ->
  setIntField value bitSize t field = Done (v', None) ->
  exists n, v' = VInt n /\ strconv.ParseInt (orZero value) bitSize = inl n /\
    - 2 ^ (strconv.width bitSize - 1) <= n < 2 ^ (strconv.width bitSize - 1).
Proof.
  intros Hk Hb. unfold setIntField, orZero. cbv zeta.
  destruct (strconv.ParseInt _ bitSize) as [n|] eqn:Ep; [|done].
  destruct (ParseInt_range _ _ _ Ep) as [Hw Hr].
  unfold SetInt. rewrite Hb. simpl default.
  rewrite wrapInt_same by lia.
  destruct (kindOf t); try discriminate; simpl; intros [= <-]; eauto.
Qed.

Lemma setUintField_stores value bitSize t field v' :
  isUnsigned (kindOf t) = true ->
  bits (kindOf t) = Some (strconv.width bitSize) ->
  setUintField value bitSize t field = Done (v', None) ->
  exists n, v' = VUint n /\ strconv.ParseUint (orZero value) bitSize = inl n /\
    0 <= n < 2 ^ strconv.width bitSize.
Proof.
  intros Hk Hb. unfold setUintField, orZero. cbv zeta.
  destruct (strconv.ParseUint _ bitSize) as [n|] eqn:Ep; [|done].
  destruct (ParseUintAs_range _ _ _ _ _ Ep) as [Hw Hr].
  unfold SetUint. rewrite Hb. simpl default.
  rewrite Z.mod_small by lia.
  destruct (kindOf t); try discriminate; simpl; intros [= <-]; eauto.
Qed.

(** X5.  The switch of [setWithProperType] pairs every integer kind with
    its own bit size, so that an integer field without a decoder of its
    own, once bound without error, holds exactly the number that
    [strconv] read in the string (0 for the empty string), and this
    number lies in the range of the kind: nothing is cut off. *)
Theorem integer_field_holds_parsed_value (t : type) (val : string)
    (field v' : Value) (w : Z) :
  noUnmarshaler t ->
  bits (kindOf t) = Some w ->
  coerce (kindOf t) val t field = Done (v', None) ->
  (isSigned (kindOf t) = true ->
   exists n bitSize, v' = VInt n /\ strconv.width bitSize = w /\
     strconv.ParseInt (orZero val) bitSize = inl n /\
     - 2 ^ (w - 1) <= n < 2 ^ (w - 1)) /\
  (isUnsigned (kindOf t) = true ->
   exists n bitSize, v' = VUint n /\ strconv.width bitSize = w /\
     strconv.ParseUint (orZero val) bitSize = inl n /\
     0 <= n < 2 ^ w).
Proof.
  intros Hn Hb. rewrite setWithProperType_unfold.
  assert (Hp : kindOf t <> Ptr) by (intros E; rewrite E in Hb; discriminate).
  rewrite (unmarshalField_plain _ _ _ Hn Hp). simpl mbind. cbv iota.
  intros H. split; intros Hk.
  - destruct (kindOf t) eqn:Ek; try discriminate Hk; injection Hb as <-;
      rewrite <- Ek in *;
      [ destruct (setIntField_stores val 0 t field v' Hk) as (n & ? & ? & ?);
          [by rewrite Ek|done|exists n, 0; by rewrite Ek in *]
      | destruct (setIntField_stores val 8 t field v' Hk) as (n & ? & ? & ?);
          [by rewrite Ek|done|exists n, 8; by rewrite Ek in *]
      | destruct (setIntField_stores val 16 t field v' Hk) as (n & ? & ? & ?);
          [by rewrite Ek|done|exists n, 16; by rewrite Ek in *]
      | destruct (setIntField_stores val 32 t field v' Hk) as (n & ? & ? & ?);
          [by rewrite Ek|done|exists n, 32; by rewrite Ek in *]
      | destruct (setIntField_stores val 64 t field v' Hk) as (n & ? & ? & ?);
          [by rewrite Ek|done|exists n, 64; by rewrite Ek in *] ].
  - destruct (kindOf t) eqn:Ek; try discriminate Hk; injection Hb as <-;
      rewrite <- Ek in *;
      [ destruct (setUintField_stores val 0 t field v' Hk) as (n & ? & ? & ?);
          [by rewrite Ek|done|exists n, 0; by rewrite Ek in *]
      | destruct (setUintField_stores val 8 t field v' Hk) as (n & ? & ? & ?);
          [by rewrite Ek|done|exists n, 8; by rewrite Ek in *]
      | destruct (setUintField_stores val 16 t field v' Hk) as (n & ? & ? & ?);
          [by rewrite Ek|done|exists n, 16; by rewrite Ek in *]
      | destruct (setUintField_stores val 32 t field v' Hk) as (n & ? & ? & ?);
          [by rewrite Ek|done|exists n, 32; by rewrite Ek in *]
      | destruct (setUintField_stores val 64 t field v' Hk) as (n & ? & ? & ?);
          [by rewrite Ek|done|exists n, 64; by rewrite Ek in *] ].
Qed.

Lemma coerce_pointer val elem p :
  coerce Ptr val (TPtr elem) (VPtr p)
  = ('(x, err) ← coerce (kindOf elem) val elem (default (zero elem) p);
     Done (VPtr (Some x), err)).
Proof.
  rewrite (setWithProperType_unfold _ Ptr). unfold unmarshalField at 1.
  unfold unmarshalFieldPtr.
  replace (match p with Some x => x | None => zero elem end)
    with (default (zero elem) p) by (by destruct p).
  destruct (unmarshalFieldNonPtr val elem (default (zero elem) p))
    as [x [[|] err]] eqn:E.
  - simpl. rewrite setWithProperType_unfold.
    rewrite unmarshalField_NonPtr by (eapply unmarshalFieldNonPtr_true, E).
    rewrite E. reflexivity.
  - apply unmarshalFieldNonPtr_false in E as [-> ->]. reflexivity.
Qed.

(** X6.  A kind for which the switch of [setWithProperType] has no case
    (struct, map, slice, array, interface, complex, uintptr and so on), on
    a type without a decoder of its own, gives the error "unknown type"
    and leaves the field as it was.  So a named struct field that has a
    tag and whose key is in the map ends the walk with that error: a tag
    does not make the walk go into a struct. *)
Theorem unsupported_kind_is_unknown_type (t : type) (val : string) (field : Value) :
  noUnmarshaler t ->
  supported (kindOf t) = false ->
  coerce (kindOf t) val t field = Done (field, Some errUnknownType) /\
  (forall data tag typeField x rest,
     Type_ typeField = t -> kindOf t = Struct ->
     settable typeField -> Anonymous typeField = false ->
     Get (Tag typeField) tag <> "" ->
     lookupInput data (Get (Tag typeField) tag) = Some (x :: rest) ->
     bindField ParseFloat data tag (bindDataAt ParseFloat data tag) typeField field
     = Done (field, Return errUnknownType)).
Proof.
  intros Hn Hs.
  assert (Hp : kindOf t <> Ptr) by (intros E; rewrite E in Hs; discriminate).
  assert (E : forall x, coerce (kindOf t) x t field = Done (field, Some errUnknownType)).
  { intros x. rewrite setWithProperType_unfold.
    rewrite (unmarshalField_plain _ _ _ Hn Hp). simpl mbind. cbv iota.
    destruct (kindOf t); try discriminate Hs; reflexivity. }
  split; [apply E|].
  intros data tag typeField x rest HT Hk Hset Ha Ht Hl.
  rewrite bindField_direct by (intros H; congruence).
  rewrite bindSettable_tagged by (try done; intros H; congruence).
  rewrite Hl. unfold bindInput, index. simpl (_ !! _). simpl mbind at 1.
  rewrite HT. rewrite (unmarshalField_plain _ _ _ Hn Hp). simpl mbind at 1. cbv iota.
  destruct t as [[]| | | | |]; try discriminate Hk. rewrite E. reflexivity.
Qed.

(** X7.  A call of [setWithProperType] on a pointer field that returns,
    with or without error, leaves the pointer not nil: the pointee is
    allocated before the string is looked at, and an error does not take
    the allocation back. *)
Theorem pointer_allocated_on_error (val : string) (elem : type)
    (p : option Value) (v' : Value) (err : option error) :
  coerce Ptr val (TPtr elem) (VPtr p) = Done (v', err) ->
  exists x, v' = VPtr (Some x) /\
    coerce (kindOf elem) val elem (default (zero elem) p) = Done (x, err).
Proof.
  rewrite coerce_pointer.
  destruct (coerce (kindOf elem) val elem (default (zero elem) p)) as [[x e]|];
    simpl; [|done].
  intros [= <- <-]. eauto.
Qed.

Section DecoderFields.

Variable data : Values.
Variable tag : string.

Abbreviation onField := (bindField ParseFloat data tag (bindDataAt ParseFloat data tag)).

(** X8.  A tagged field whose pointer type has a decoder is bound by the
    decoder, on the first value of the matched entry only, whatever the
    kind of the field, a slice included; [UnmarshalParam] is taken when
    the type has it, [UnmarshalText] only when it has not.  The error of
    the decoder ends the walk as it is. *)
Theorem decoder_binds_first_value (typeField : StructField) (field : Value)
    (um : unmarshaler) (x : string) (rest : list string) :
  settable typeField -> notEmbeddedStruct typeField ->
  Get (Tag typeField) tag <> "" ->
  lookupInput data (Get (Tag typeField) tag) = Some (x :: rest) ->
  UnmarshalParam (declOf (Type_ typeField)) = Some um \/
  (UnmarshalParam (declOf (Type_ typeField)) = None /\
   UnmarshalText (declOf (Type_ typeField)) = Some um) ->
  onField typeField field
  = (let '(field', err) := um x field in Done (field', stepOf err)).
Proof.
  intros Hs Hn Ht Hl Hu.
  assert (Hp : kindOf (Type_ typeField) <> Ptr).
  { intros E. destruct (Type_ typeField) as [[]| | | | |]; try discriminate E.
    simpl in Hu. destruct Hu as [Hu|[_ Hu]]; discriminate Hu. }
  rewrite bindField_direct by (intros _; exact Hp).
  rewrite bindSettable_tagged by done.
  rewrite Hl. unfold bindInput, index. simpl (_ !! _). simpl mbind at 1.
  rewrite unmarshalField_NonPtr by done. unfold unmarshalFieldNonPtr.
  destruct Hu as [-> | [-> ->]]; destruct (um x field) as [field' err]; reflexivity.
Qed.

(** X9.  A tagged pointer field whose pointee type has a decoder is bound
    by the decoder on the pointee, which is a zero value made for the
    purpose when the pointer is nil; after the pass the pointer is not
    nil, whether the decoder returns an error or not. *)
Theorem decoder_binds_pointee (typeField : StructField) (elem : type)
    (p : option Value) (um : unmarshaler) (x : string) (rest : list string) :
  settable typeField -> Anonymous typeField = false ->
  Type_ typeField = TPtr elem ->
  Get (Tag typeField) tag <> "" ->
  lookupInput data (Get (Tag typeField) tag) = Some (x :: rest) ->
  UnmarshalParam (declOf elem) = Some um \/
  (UnmarshalParam (declOf elem) = None /\ UnmarshalText (declOf elem) = Some um) ->
  onField typeField (VPtr p)
  = (let '(pointee', err) := um x (default (zero elem) p) in
     Done (VPtr (Some pointee'), stepOf err)).
Proof.
  intros Hs Ha HT Ht Hl Hu.
  rewrite bindField_direct by (intros H; congruence).
  rewrite bindSettable_tagged by (try done; intros H; congruence).
  rewrite Hl. unfold bindInput, index. simpl (_ !! _). simpl mbind at 1.
  rewrite HT. simpl kindOf. unfold unmarshalField, unmarshalFieldPtr.
  replace (match p with Some x => x | None => zero elem end)
    with (default (zero elem) p) by (by destruct p).
  unfold unmarshalFieldNonPtr.
  destruct Hu as [-> | [-> ->]]; destruct (um x _) as [pointee' err]; reflexivity.
Qed.

End DecoderFields.

End CoercerExtras.

(** ** A map as target *)

Lemma setEntries_foldl key elem data :
  stringAssignable key = true -> stringAssignable elem = true ->
  nonEmptyValues data ->
  forall m : gmap string Value,
    setEntries key elem data (VMap (Some m))
    = Done (VMap (Some (foldl putFirst m data))).
Proof.
  intros Hk He. induction 1 as [|[k v] data Hv _ IH]; intros m; simpl; [done|].
  destruct v as [|x rest]; [done|]. unfold index. simpl.
  rewrite Hk, He. simpl. apply IH.
Qed.

Lemma foldl_putFirst_other (data : Values) :
  forall (m : gmap string Value) k,
    k ∉ data.*1 -> foldl putFirst m data !! k = m !! k.
Proof.
  induction data as [|[k0 v0] data IH]; intros m k Hk; simpl; [done|].
  simpl in Hk. apply not_elem_of_cons in Hk as [Hne Hk].
  rewrite IH by done. unfold putFirst. simpl. by rewrite lookup_insert_ne.
Qed.

Lemma foldl_putFirst_entry (data : Values) :
  NoDup data.*1 ->
  forall (m : gmap string Value) k x rest,
    (k, x :: rest) ∈ data -> foldl putFirst m data !! k = Some (VString x).
Proof.
  induction data as [|[k0 v0] data IH]; intros Hnd m k x rest Hin; simpl.
  - by apply elem_of_nil in Hin.
  - simpl in Hnd. apply NoDup_cons in Hnd as [Hk0 Hnd].
    apply elem_of_cons in Hin as [[= <- <-]|Hin].
    + rewrite foldl_putFirst_other by done. unfold putFirst. simpl.
      by rewrite lookup_insert_eq.
    + by eapply IH.
Qed.

Section MapTarget.

Variable ParseFloat : string -> Z -> spec_float + error.

(** X10.  Into a map that is not nil and whose key and element types take
    a string, [bindData] copies every entry of a map of values that is not
    empty: after the call the target has, under every key of the values,
    the first value of that key, as a string and without any coercion, and
    under every other key what it had before.  The tag plays no part and
    the call returns nil. *)
Theorem map_target_gets_first_values (key elem : type) (d : decl)
    (m : gmap string Value) (data : Values) (tag : string) :
  stringAssignable key = true -> stringAssignable elem = true ->
  data <> [] -> nonEmptyValues data -> NoDup data.*1 ->
  exists m' : gmap string Value,
    bindData ParseFloat (Pointer (TMap key elem d) (Some (VMap (Some m)))) data tag
      = Done (Pointer (TMap key elem d) (Some (VMap (Some m'))), None) /\
    (forall k x rest, (k, x :: rest) ∈ data -> m' !! k = Some (VString x)) /\
    (forall k, k ∉ data.*1 -> m' !! k = m !! k).
Proof.
  intros Hk He Hd Hne Hnd. exists (foldl putFirst m data). split; [|split].
  - unfold bindData. simpl. rewrite (length_nonempty _ Hd).
    by rewrite setEntries_foldl.
  - intros k x rest. by apply foldl_putFirst_entry.
  - intros k. apply foldl_putFirst_other.
Qed.

(** X11.  [bindData] does not make the map: on a nil map, and on a map
    whose key or element type does not take a string, a call with values
    does not return, it panics inside [reflect]. *)
Theorem map_target_not_made (key elem : type) (d : decl)
    (m : option (gmap string Value)) (data : Values) (tag : string) :
  data <> [] -> nonEmptyValues data ->
  m = None \/ stringAssignable key && stringAssignable elem = false ->
  bindData ParseFloat (Pointer (TMap key elem d) (Some (VMap m))) data tag
  = Panicked ReflectPanic.
Proof.
  intros Hd Hne Hm. unfold bindData. simpl. rewrite (length_nonempty _ Hd).
  destruct Hne as [|[k v] data Hv _]; [done|]. simpl.
  destruct v as [|x rest]; [done|]. unfold index. simpl. unfold SetMapIndex.
  destruct Hm as [->|Hm]; [done|]. rewrite Hm. by destruct m.
Qed.

End MapTarget.

(** ** What the dispatcher returns *)

Lemma bindData_no_values (ParseFloat : string -> Z -> spec_float + error)
    (destination : Destination) (tag : string) :
  bindData ParseFloat destination [] tag = Done (destination, None).
Proof. destruct destination as [| |typ [val|]]; try done. by destruct typ. Qed.

Section DispatcherExtras.

Variable ParseFloat : string -> Z -> spec_float + error.
Variable jsonDecode : string -> Destination -> Destination * option error.
Variable xmlDecode : string -> Destination -> Destination * option error.

Abbreviation bindBody := (BindBody ParseFloat jsonDecode xmlDecode).
Abbreviation bindQuery := (BindQueryParams ParseFloat).
Abbreviation bindAll := (Bind ParseFloat jsonDecode xmlDecode).

Lemma WrapHTTPError_wraps err msg : wraps (WrapHTTPError err StatusBadRequest msg).
Proof. by exists err, msg. Qed.

Lemma BindQueryParams_error req v v' e :
  bindQuery req v = Done (v', Some e) -> wraps e.
Proof.
  unfold BindQueryParams.
  destruct (bindData _ _ _ _) as [[i [err|]]|]; simpl; [|done..].
  intros [= _ <-]. apply WrapHTTPError_wraps.
Qed.

Lemma BindBody_error req v v' e :
  bindBody req v = Done (v', Some e) ->
  wraps e \/ e = ErrUnsupportedMediaType \/
  (isHTTPError e = true /\ jsonDecode (Body req) v = (v', Some e)).
Proof.
  unfold BindBody. cbv zeta.
  destruct (ContentLength req =? 0); [done|].
  destruct (HasPrefix (ContentType req) MIMEApplicationJSON).
  { destruct (jsonDecode (Body req) v) as [i [err|]]; [|done].
    destruct (isHTTPError err) eqn:Eh.
    - intros [= <- <-]. by right; right.
    - intros [= _ <-]. left. apply WrapHTTPError_wraps. }
  destruct (_ || _).
  { destruct (xmlDecode (Body req) v) as [i [err|]]; [|done].
    destruct err; intros [= _ <-]; left; apply WrapHTTPError_wraps. }
  destruct (_ || _).
  { destruct (FormParams req) as [params|err].
    - destruct (bindData _ _ _ _) as [[i [err|]]|]; simpl; [|done..].
      intros [= _ <-]. left. apply WrapHTTPError_wraps.
    - intros [= _ <-]. left. apply WrapHTTPError_wraps. }
  intros [= _ <-]. by right; left.
Qed.

(** X12.  Every error that [Bind] returns is an [*HTTPError] with a
    status: either it wraps the error of a decoder, of the form parser or
    of [bindData] under status 400, and [Unwrap] gives that error back; or
    it is [ErrUnsupportedMediaType] (415); or it is an [*HTTPError] that the
    JSON decoder itself returned, passed on as it is. *)
Theorem bind_error_has_status (req : Request) (v v' : Destination) (e : error) :
  bindAll req v = Done (v', Some e) ->
  isHTTPError e = true /\
  ((exists inner msg,
       e = HTTPError (Some inner) StatusBadRequest msg /\ Unwrap e = Some inner)
   \/ e = ErrUnsupportedMediaType
   \/ jsonDecode (Body req) v = (v', Some e)).
Proof.
  intros HB.
  assert (H : wraps e \/ e = ErrUnsupportedMediaType \/
              (isHTTPError e = true /\ jsonDecode (Body req) v = (v', Some e))).
  { revert HB. unfold Bind. cbv zeta. destruct (_ || _).
    - destruct (bindBody req v) as [[v1 [e1|]]|] eqn:Eb; simpl; [| |done].
      + intros [= <- <-]. by eapply BindBody_error.
      + intros HQ. left. by eapply BindQueryParams_error.
    - intros HQ. left. by eapply BindQueryParams_error. }
  destruct H as [(inner & msg & -> & Hu)|[->|[Hh Hj]]].
  - split; [done|]. left. by exists inner, msg.
  - split; [done|]. by right; left.
  - split; [done|]. by right; right.
Qed.

(** X13.  A request that brings nothing is a no-op for every
    destination, also nil, a non-pointer or a nil pointer: with no query
    parameter, and with a method that carries no body or a content length
    of zero, [Bind] returns nil and the destination is as it was; the
    content type is not looked at. *)
Theorem bind_nothing_is_noop (req : Request) (v : Destination) :
  ~ carriesBody (Method req) \/ ContentLength req = 0 ->
  Query req = [] ->
  bindAll req v = Done (v, None).
Proof.
  intros Hb Hq.
  assert (HQ : bindQuery req v = Done (v, None)).
  { unfold BindQueryParams, QueryParams. rewrite Hq.
    by rewrite bindData_no_values. }
  unfold Bind. cbv zeta.
  destruct (_ || _) eqn:Em; [|done].
  destruct Hb as [Hb|Hb].
  - exfalso. by apply Hb, carriesBody_eqb.
  - unfold BindBody. rewrite Hb. simpl. exact HQ.
Qed.

End DispatcherExtras.

(** ** Values after the first *)

Lemma mapIndex_firsts data key :
  mapIndex (firsts data) key = take 1 <$> mapIndex data key.
Proof.
  induction data as [|[k v] data IH]; simpl; [done|].
  by destruct (String.eqb k key).
Qed.

Lemma rangeEqualFold_firsts data name :
  rangeEqualFold (firsts data) name = take 1 <$> rangeEqualFold data name.
Proof.
  induction data as [|[k v] data IH]; simpl; [done|].
  by destruct (EqualFold k name).
Qed.

Lemma lookupInput_firsts data name :
  lookupInput (firsts data) name = take 1 <$> lookupInput data name.
Proof.
  unfold lookupInput. rewrite mapIndex_firsts, rangeEqualFold_firsts.
  by destruct (mapIndex data name).
Qed.

Lemma length_firsts data : length (firsts data) = length data.
Proof. apply length_map. Qed.

Lemma setEntries_firsts key elem data :
  forall val, setEntries key elem (firsts data) val = setEntries key elem data val.
Proof.
  induction data as [|[k v] data IH]; intros val; simpl; [done|].
  destruct v as [|x rest]; [done|]. unfold index. simpl.
  destruct (SetMapIndex key elem val k x); simpl; [apply IH|done].
Qed.

Lemma hasDecoder_ok value t field x err :
  hasDecoder t = true -> unmarshalFieldNonPtr value t field <> (x, (false, err)).
Proof.
  unfold hasDecoder, unmarshalFieldNonPtr.
  destruct (UnmarshalParam (declOf t)) as [um|]; [destruct (um value field); done|].
  destruct (UnmarshalText (declOf t)) as [um|]; [destruct (um value field); done|].
  done.
Qed.

Section FirstValues.

Variable ParseFloat : string -> Z -> spec_float + error.
Variable data : Values.
Variable tag : string.

Lemma bindInput_firsts typeField t structField back inputValue :
  t = Type_ typeField \/ Type_ typeField = TPtr t ->
  firstValueOnly t = true ->
  bindInput ParseFloat typeField t structField back (take 1 inputValue)
  = bindInput ParseFloat typeField t structField back inputValue.
Proof.
  intros Ht Hf. unfold bindInput. destruct inputValue as [|x rest]; [done|].
  unfold index. simpl lookup. simpl mbind.
  destruct (unmarshalField _ x t structField) as [[sf [[] err]]|] eqn:Eu; simpl; try done.
  destruct t as [| | |sliceOf d| |]; try done.
  exfalso. destruct Ht as [Ht|Ht].
  - rewrite <- Ht in Eu. simpl in Eu. injection Eu as Eu. by eapply hasDecoder_ok.
  - rewrite Ht in Eu. simpl in Eu. discriminate Eu.
Qed.

Lemma bindSettable_firsts nested nested' typeField field t structField back :
  (forall v, nested t v = nested' t v) ->
  t = Type_ typeField \/ Type_ typeField = TPtr t ->
  firstValueOnly t = true ->
  bindSettable ParseFloat (firsts data) tag nested typeField field t structField back
  = bindSettable ParseFloat data tag nested' typeField field t structField back.
Proof.
  intros Hn Ht Hf. unfold bindSettable. cbv zeta.
  destruct (negb (CanSet typeField)); [done|].
  destruct (_ && _ && _); [done|].
  destruct (String.eqb _ ""); [by rewrite Hn|].
  rewrite lookupInput_firsts.
  destruct (lookupInput data _) as [inputValue|]; simpl; [|done].
  by apply bindInput_firsts.
Qed.

Lemma bindField_firsts nested nested' typeField field :
  firstValueOnly (Type_ typeField) = true ->
  (forall v, nested (Type_ typeField) v = nested' (Type_ typeField) v) ->
  (forall elem v, Type_ typeField = TPtr elem -> nested elem v = nested' elem v) ->
  bindField ParseFloat (firsts data) tag nested typeField field
  = bindField ParseFloat data tag nested' typeField field.
Proof.
  intros Hf H1 H2. unfold bindField.
  destruct (_ && _).
  - destruct (Type_ typeField) as [| |elem| | |] eqn:ET; try done.
    destruct field as [| | | | |[pointee|]| | | |]; try done.
    apply bindSettable_firsts; [intros v; by apply H2|by right|done].
  - apply bindSettable_firsts; [done|by left|done].
Qed.

Lemma walk_firsts nested nested' fields :
  Forall (fun f : StructField =>
            firstValueOnly (Type_ f) = true /\
            (forall v, nested (Type_ f) v = nested' (Type_ f) v) /\
            (forall elem v, Type_ f = TPtr elem -> nested elem v = nested' elem v))
         fields ->
  forall i vals,
    walk ParseFloat (firsts data) tag nested fields i vals
    = walk ParseFloat data tag nested' fields i vals.
Proof.
  induction 1 as [|f fields (Hf & H1 & H2) _ IH]; intros i vals; simpl; [done|].
  destruct (vals !! i) as [field|]; [|done].
  rewrite (bindField_firsts nested nested') by done.
  destruct (bindField _ _ _ _ _ _) as [[field' [|e]]|]; simpl; [apply IH|done..].
Qed.

Lemma bindDataAt_firsts typ :
  (firstValueOnly typ = true ->
   forall val, bindDataAt ParseFloat (firsts data) tag typ val
               = bindDataAt ParseFloat data tag typ val) /\
  (forall elem, typ = TPtr elem -> firstValueOnly elem = true ->
   forall val, bindDataAt ParseFloat (firsts data) tag elem val
               = bindDataAt ParseFloat data tag elem val).
Proof.
  induction typ as [b d|methods|elem IH|elem d IH|key IHk elem d IHe|fields d IH]
    using type_fields_ind.
  - split; [|done]. intros _ val. simpl. by rewrite length_firsts.
  - split; [|done]. intros _ val. simpl. by rewrite length_firsts.
  - split; [|intros ? [= <-]; apply (proj1 IH)].
    intros _ val. simpl. by rewrite length_firsts.
  - split; [|done]. intros _ val. simpl. by rewrite length_firsts.
  - split; [|done]. intros _ val. simpl. rewrite length_firsts.
    by rewrite setEntries_firsts.
  - split; [|done]. intros Hf val. simpl. rewrite length_firsts.
    destruct (length data =? 0)%nat; [done|].
    destruct val; try done.
    rewrite (walk_firsts _ (bindDataAt ParseFloat data tag)); [done|].
    simpl in Hf. apply Is_true_true, forallb_True in Hf.
    assert (H : Forall (fun f : StructField =>
                  Is_true (firstValueOnly (Type_ f)) /\
                  ((firstValueOnly (Type_ f) = true ->
                    forall val, bindDataAt ParseFloat (firsts data) tag (Type_ f) val
                                = bindDataAt ParseFloat data tag (Type_ f) val) /\
                   (forall elem, Type_ f = TPtr elem -> firstValueOnly elem = true ->
                    forall val, bindDataAt ParseFloat (firsts data) tag elem val
                                = bindDataAt ParseFloat data tag elem val))) fields)
      by (by apply Forall_and).
    eapply Forall_impl; [exact H|]. clear.
    intros f [Hf [H1 H2]]. apply Is_true_true in Hf.
    split; [done|]. split.
    + by apply H1.
    + intros elem v E. apply H2; [done|]. by rewrite E in Hf.
Qed.

(** X14.  A target type in which no field, at any depth, is a slice
    without a decoder of its own is bound from the first value of every
    key alone: [bindData] gives the same result, value or panic, on the
    values and on the values cut down to the first one of every key. *)
Theorem only_first_values_are_read (typ : type) (p : option Value) :
  firstValueOnly typ = true ->
  bindData ParseFloat (Pointer typ p) (firsts data) tag
  = bindData ParseFloat (Pointer typ p) data tag.
Proof.
  intros Hf. unfold bindData. rewrite length_firsts. destruct p as [val|].
  - by rewrite (proj1 (bindDataAt_firsts typ) Hf).
  - destruct (length data =? 0)%nat; [done|].
    destruct typ as [| | | | |]; try done.
    destruct data as [|[k v] rest]; [done|]. simpl.
    by destruct v.
Qed.

End FirstValues.

(** ** Errors of the coercer *)

Section CoercerErrors.

Variable ParseFloat : string -> Z -> spec_float + error.

Lemma setter_error {A : Type} (parsed : A + error) (set : A -> res Value)
    (field v' : Value) (e : error) :
  match parsed with
  | inl x => field' ← set x; Done (field', None)
  | inr err => Done (field, Some err)
  end = Done (v', Some e) ->
  v' = field /\ parsed = inr e.
Proof.
  destruct parsed as [x|err]; simpl.
  - destruct (set x); discriminate.
  - by intros [= <- <-].
Qed.

(** X15.  A coercion that fails writes nothing: when [setWithProperType]
    returns an error on a field that is no pointer and has no decoder of
    its own, the field is as it was, for every kind, the unknown ones
    included. *)
Theorem coercion_error_leaves_field (t : type) (val : string)
    (field v' : Value) (e : error) :
  noUnmarshaler t -> kindOf t <> Ptr ->
  setWithProperType ParseFloat (kindOf t) val t field = Done (v', Some e) ->
  v' = field.
Proof.
  intros Hn Hp. rewrite setWithProperType_unfold.
  rewrite (unmarshalField_plain _ _ _ Hn Hp). simpl mbind. cbv iota.
  destruct (kindOf t); try done;
    try (by intros [= <- _]);
    try (unfold setIntField, setUintField, setBoolField, setFloatField; cbv zeta;
         intros H; by apply setter_error in H as [-> _]).
  destruct (SetString t val); discriminate.
Qed.

End CoercerErrors.

(** ** The query parameters and the body *)

Lemma ValuesGet_lookup data key :
  ValuesGet data key <> "" ->
  exists rest, lookupInput data key = Some (ValuesGet data key :: rest).
Proof.
  unfold ValuesGet, lookupInput.
  destruct (mapIndex data key) as [[|x rest]|]; [done| |done].
  intros _. by exists rest.
Qed.

Section BoundRequest.

Variable ParseFloat : string -> Z -> spec_float + error.
Variable jsonDecode : string -> Destination -> Destination * option error.
Variable xmlDecode : string -> Destination -> Destination * option error.

(** X16.  [Bind] and [QueryParam] agree: after a [Bind] that returns nil
    on a struct, a string field that can be set, has no decoder of its own
    and is tagged for query with a name, not empty, for which [QueryParam]
    gives a string that is not empty holds that very string, whatever the
    body bound before. *)
Theorem bound_string_is_query_param (req : Request) (v : Destination)
    (pre post : list StructField) (typeField : StructField) (d d' : decl)
    (vals' : list Value) :
  Bind ParseFloat jsonDecode xmlDecode req v
  = Done (Pointer (TStruct (pre ++ typeField :: post) d') (Some (VStruct vals')), None) ->
  settable typeField -> Type_ typeField = TBasic BString d ->
  noUnmarshaler (Type_ typeField) ->
  Get (Tag typeField) "query" <> "" ->
  QueryParam req (Get (Tag typeField) "query") <> "" ->
  vals' !! length pre
  = Some (VString (QueryParam req (Get (Tag typeField) "query"))).
Proof.
  intros HB Hs HT Hu Ht Hq.
  apply Bind_success in HB as [v1 HQ]. apply BindQueryParams_success in HQ.
  unfold QueryParam in *.
  destruct (ValuesGet_lookup _ _ Hq) as [rest HL].
  assert (Hd : QueryParams req <> []) by (intros E; rewrite E in HL; discriminate).
  apply (bindData_struct_success _ _ _ _ _ _ _ Hd) in HQ as [vals0 Hw].
  by eapply walk_string_field.
Qed.

(** X17.  A body of an unknown media type is refused before anything is
    bound: for POST, PUT and PATCH with a content length that is not zero
    and a content type that starts with none of the five known ones (no
    content type at all, for example), [Bind] returns
    [ErrUnsupportedMediaType], the destination is as it was, and the query
    parameters are not bound either. *)
Theorem unknown_media_type_binds_nothing (req : Request) (v : Destination) :
  carriesBody (Method req) -> ContentLength req <> 0 ->
  otherMedia (ContentType req) ->
  Bind ParseFloat jsonDecode xmlDecode req v = Done (v, Some ErrUnsupportedMediaType).
Proof.
  intros Hm Hl (H1 & H2 & H3 & H4 & H5). unfold Bind. cbv zeta.
  apply (carriesBody_eqb ParseFloat jsonDecode xmlDecode) in Hm. rewrite Hm.
  unfold BindBody. cbv zeta.
  apply Z.eqb_neq in Hl. rewrite Hl, H1, H2, H3, H4, H5. reflexivity.
Qed.

End BoundRequest.

(** ** Runs that return *)

Lemma all2_cons_inv {A B : Type} (p : A -> B -> bool) a l k :
  all2 p (a :: l) k = true ->
  exists b k', k = b :: k' /\ p a b = true /\ all2 p l k' = true.
Proof.
  destruct k as [|b k']; simpl; [done|].
  intros [H1 H2]%andb_true_iff. eauto.
Qed.

Lemma hasShape_zero t : hasShape t (zero t) = true.
Proof.
  induction t as [b d|methods|elem IH|elem d IH|key IHk elem d IHe|fields d IH]
    using type_fields_ind; try done.
  simpl. induction IH as [|f fields Hf _ IHfields]; simpl; [done|].
  by rewrite Hf, IHfields.
Qed.

Lemma hasShape_ptr elem v :
  hasShape (TPtr elem) v = true ->
  exists p, v = VPtr p /\ hasShape elem (default (zero elem) p) = true.
Proof.
  destruct v as [| | | | |[x|]| | | |]; try done; intros H.
  - by exists (Some x).
  - exists None. split; [done|]. apply hasShape_zero.
Qed.

Lemma returns_Done {A : Type} (a : A) : returns (Done a).
Proof. by exists a. Qed.

Lemma returns_bind {A B : Type} (m : res A) (k : A -> res B) :
  returns m -> (forall a, m = Done a -> returns (k a)) -> returns (m ≫= k).
Proof. intros [a ->] Hk. simpl. by apply Hk. Qed.

Section Returns.

Variable ParseFloat : string -> Z -> spec_float + error.

Lemma setter_returns {A : Type} (parsed : A + error) (set : A -> res Value)
    (field : Value) :
  (forall x, returns (set x)) ->
  returns (match parsed with
           | inl x => field' ← set x; Done (field', None)
           | inr err => Done (field, Some err)
           end).
Proof.
  intros Hs. destruct parsed as [x|err]; [|apply returns_Done].
  apply returns_bind; [apply Hs|]. intros; apply returns_Done.
Qed.

Lemma unmarshalField_returns t val v :
  hasShape t v = true ->
  exists v' ok err,
    unmarshalField (kindOf t) val t v = Done (v', (ok, err)) /\
    (ok = false -> hasShape t v' = true /\
       forall elem, t = TPtr elem -> exists x, v' = VPtr (Some x)).
Proof.
  intros Hv. destruct (Kind_eq_dec (kindOf t) Ptr) as [Hk|Hk].
  - destruct t as [[]| |elem| | |]; try discriminate Hk.
    apply hasShape_ptr in Hv as (p & -> & Hp). simpl.
    replace (match p with Some x => x | None => zero elem end)
      with (default (zero elem) p) by (by destruct p).
    destruct (unmarshalFieldNonPtr val elem (default (zero elem) p))
      as [x [ok err]] eqn:E.
    exists (VPtr (Some x)), ok, err. split; [done|]. intros ->.
    apply unmarshalFieldNonPtr_false in E as [-> ->]. split; [done|].
    intros ? _. eauto.
  - rewrite unmarshalField_NonPtr by done.
    destruct (unmarshalFieldNonPtr val t v) as [x [ok err]] eqn:E.
    exists x, ok, err. split; [done|]. intros ->.
    apply unmarshalFieldNonPtr_false in E as [-> ->]. split; [done|].
    intros elem ->. done.
Qed.

Lemma setWithProperType_returns t :
  forall val v, hasShape t v = true ->
    returns (setWithProperType ParseFloat (kindOf t) val t v).
Proof.
  induction t as [b d|methods|elem IH|elem d IH|key IHk elem d IHe|fields d IH]
    using type_fields_ind; intros val v Hv; rewrite setWithProperType_unfold;
    destruct (unmarshalField_returns _ val v Hv) as (v' & ok & err & -> & Hok);
    simpl mbind; cbv iota; (destruct ok; [apply returns_Done|]);
    destruct (Hok eq_refl) as [Hv' Hp]; try apply returns_Done.
  - destruct b; simpl; try apply returns_Done;
      try (apply setter_returns; intros x; apply returns_Done).
  - destruct (Hp elem eq_refl) as [x ->]. simpl.
    apply returns_bind; [by apply IH|]. intros [? ?] _. apply returns_Done.
Qed.

End Returns.

Section ReturnsWalk.

Variable ParseFloat : string -> Z -> spec_float + error.
Variable data : Values.
Variable tag : string.
Hypothesis Hdata : nonEmptyValues data.

Lemma setElems_returns sliceOf inputValue :
  forall n j slice,
    (j + n <= length inputValue)%nat ->
    (forall k, (j <= k < j + n)%nat -> slice !! k = Some (zero sliceOf)) ->
    returns (setElems ParseFloat sliceOf inputValue n j slice).
Proof.
  induction n as [|n IH]; intros j slice Hl Hz; simpl; [apply returns_Done|].
  unfold index.
  destruct (inputValue !! j) as [x|] eqn:Ex;
    [|apply lookup_ge_None in Ex; lia].
  simpl. rewrite (Hz j) by lia.
  apply returns_bind; [apply setWithProperType_returns, hasShape_zero|].
  intros [e' [err|]] _; [apply returns_Done|].
  apply IH; [lia|]. intros k Hk.
  rewrite list_lookup_insert_ne by lia. apply Hz. lia.
Qed.

Lemma bindInput_returns typeField structField back inputValue :
  inputValue <> [] ->
  hasShape (Type_ typeField) structField = true ->
  returns (bindInput ParseFloat typeField (Type_ typeField) structField back inputValue).
Proof.
  intros Hi Hv. unfold bindInput, index.
  destruct (inputValue !! 0%nat) as [x|] eqn:Ex; [|by destruct inputValue].
  simpl mbind at 1.
  destruct (unmarshalField_returns _ x structField Hv) as (v' & ok & err & -> & Hok).
  simpl mbind at 1. cbv iota. destruct ok; [apply returns_Done|].
  destruct (Hok eq_refl) as [Hv' _].
  assert (Hs : returns ('(structField0, err0) ←
                 setWithProperType ParseFloat (kindOf (Type_ typeField)) x
                   (Type_ typeField) v';
               Done (back structField0, stepOf err0))).
  { apply returns_bind; [by apply setWithProperType_returns|].
    intros [? ?] _. apply returns_Done. }
  destruct (Type_ typeField) as [| | |sliceOf d| |]; try exact Hs.
  cbv zeta. replace (0 <? length inputValue)%nat with true
    by (by destruct inputValue).
  apply returns_bind.
  - apply setElems_returns; [lia|].
    intros k Hk. apply lookup_replicate_2. lia.
  - intros [slice [e|]] _; apply returns_Done.
Qed.

Lemma bindSettable_returns nested typeField field t structField back :
  hasShape t structField = true ->
  t = Type_ typeField \/ (Anonymous typeField = true /\ Type_ typeField = TPtr t) ->
  safeEmbedded tag typeField = true ->
  (kindOf t = Struct -> forall v, hasShape t v = true -> returns (nested t v)) ->
  returns (bindSettable ParseFloat data tag nested typeField field t structField back).
Proof.
  intros Hv Ht Hsafe Hn. unfold bindSettable. cbv zeta.
  destruct (negb (CanSet typeField)); [apply returns_Done|].
  destruct (Anonymous typeField && bool_decide (kindOf t = Struct)
            && negb (String.eqb (Get (Tag typeField) tag) "")) eqn:Ea;
    [apply returns_Done|].
  destruct (String.eqb (Get (Tag typeField) tag) "") eqn:Et.
  - destruct (negb (isBindUnmarshaler t) && bool_decide (kindOf t = Struct)) eqn:Es;
      [|apply returns_Done].
    apply andb_true_iff in Es as [_ Hk%bool_decide_eq_true].
    apply returns_bind; [by apply Hn|]. intros [? ?] _. apply returns_Done.
  - destruct (lookupInput data _) as [inputValue|] eqn:El; [|apply returns_Done].
    apply (lookupInput_nonEmpty _ _ _ Hdata) in El.
    destruct Ht as [->|[Ha HT]]; [by apply bindInput_returns|].
    exfalso. unfold safeEmbedded in Hsafe. rewrite Ha, HT, Et in Hsafe.
    rewrite Ha in Ea. simpl in Hsafe, Ea. rewrite orb_false_r in Hsafe.
    rewrite Hsafe in Ea. discriminate Ea.
Qed.

Lemma bindField_returns nested typeField field :
  hasShape (Type_ typeField) field = true ->
  safeEmbedded tag typeField = true ->
  (kindOf (Type_ typeField) = Struct ->
   forall v, hasShape (Type_ typeField) v = true -> returns (nested (Type_ typeField) v)) ->
  (forall elem, Type_ typeField = TPtr elem -> kindOf elem = Struct ->
   forall v, hasShape elem v = true -> returns (nested elem v)) ->
  returns (bindField ParseFloat data tag nested typeField field).
Proof.
  intros Hv Hsafe H1 H2. unfold bindField.
  destruct (Anonymous typeField && bool_decide (kindOf (Type_ typeField) = Ptr)) eqn:Ea.
  - apply andb_true_iff in Ea as [Ha Hk%bool_decide_eq_true].
    destruct (Type_ typeField) as [[]| |elem| | |] eqn:ET; try discriminate Hk.
    apply hasShape_ptr in Hv as (p & -> & Hp).
    destruct p as [pointee|]; [|apply returns_Done].
    apply bindSettable_returns; [done|right; by rewrite ET|done|].
    intros Hs v. by apply H2.
  - apply bindSettable_returns; [done|by left|done|done].
Qed.

Lemma walk_returns nested fields :
  Forall (fun f : StructField =>
            safeEmbedded tag f = true /\
            (kindOf (Type_ f) = Struct ->
             forall v, hasShape (Type_ f) v = true -> returns (nested (Type_ f) v)) /\
            (forall elem, Type_ f = TPtr elem -> kindOf elem = Struct ->
             forall v, hasShape elem v = true -> returns (nested elem v)))
         fields ->
  forall i vals,
    all2 (fun (f : StructField) v => hasShape (Type_ f) v) fields (drop i vals) = true ->
    returns (walk ParseFloat data tag nested fields i vals).
Proof.
  induction 1 as [|f fields (Hsafe & H1 & H2) _ IH]; intros i vals Hs; simpl;
    [apply returns_Done|].
  apply all2_cons_inv in Hs as (field & rest & Hd & Hf & Hrest).
  assert (Hi : vals !! i = Some field).
  { rewrite <- (Nat.add_0_r i), <- lookup_drop, Hd. done. }
  rewrite Hi. apply returns_bind; [by apply bindField_returns|].
  intros [field' [|e]] _; [|apply returns_Done].
  apply IH. rewrite drop_insert_lt by lia.
  rewrite (drop_S _ _ _ Hi) in Hd. injection Hd as Hd. by rewrite Hd.
Qed.

Lemma bindDataAt_returns typ :
  (safeEmbeddings tag typ = true -> kindOf typ <> Map ->
   forall val, hasShape typ val = true ->
     returns (bindDataAt ParseFloat data tag typ val)) /\
  (forall elem, typ = TPtr elem -> safeEmbeddings tag elem = true ->
   kindOf elem <> Map ->
   forall val, hasShape elem val = true ->
     returns (bindDataAt ParseFloat data tag elem val)).
Proof.
  induction typ as [b d|methods|elem IH|elem d IH|key IHk elem d IHe|fields d IH]
    using type_fields_ind.
  - split; [|done]. intros _ _ val _. simpl. repeat case_match; apply returns_Done.
  - split; [|done]. intros _ _ val _. simpl. repeat case_match; apply returns_Done.
  - split; [|intros ? [= <-]; apply (proj1 IH)].
    intros _ _ val _. simpl. repeat case_match; apply returns_Done.
  - split; [|done]. intros _ _ val _. simpl. repeat case_match; apply returns_Done.
  - split; [|done]. intros _ Hk. by destruct Hk.
  - split; [|done]. intros Hsafe _ val Hv. simpl.
    destruct (length data =? 0)%nat; [apply returns_Done|].
    destruct val as [| | | | | | | |vals|]; try discriminate Hv.
    apply returns_bind; [|intros [? ?] _; apply returns_Done].
    apply walk_returns; [|done].
    simpl in Hsafe. apply Is_true_true, forallb_True in Hsafe.
    assert (H : Forall (fun f : StructField =>
                  Is_true (safeEmbedded tag f && safeEmbeddings tag (Type_ f)) /\
                  ((safeEmbeddings tag (Type_ f) = true -> kindOf (Type_ f) <> Map ->
                    forall val, hasShape (Type_ f) val = true ->
                      returns (bindDataAt ParseFloat data tag (Type_ f) val)) /\
                   (forall elem, Type_ f = TPtr elem -> safeEmbeddings tag elem = true ->
                    kindOf elem <> Map ->
                    forall val, hasShape elem val = true ->
                      returns (bindDataAt ParseFloat data tag elem val)))) fields)
      by (by apply Forall_and).
    eapply Forall_impl; [exact H|]. clear.
    intros f [[Hs1 Hs2]%Is_true_true%andb_true_iff [H1 H2]].
    split; [done|]. split.
    + intros Hk. apply H1; [done|]. by rewrite Hk.
    + intros elem E Hk. apply H2; [done| |by rewrite Hk].
      by rewrite E in Hs2.
Qed.

(** X18.  [bindData] on a pointer to a value that is no map returns, nil
    or an error, and does not panic, when every key of the map has at
    least one value, the value has the shape of its type, and every
    embedded pointer that has a tag for the source points at a struct.
    The decoders [UnmarshalParam] and [UnmarshalText] are taken to
    return. *)
Theorem shaped_target_never_panics (typ : type) (val : Value) :
  hasShape typ val = true -> kindOf typ <> Map ->
  safeEmbeddings tag typ = true ->
  exists val' err,
    bindData ParseFloat (Pointer typ (Some val)) data tag
    = Done (Pointer typ (Some val'), err).
Proof.
  intros Hv Hk Hs. unfold bindData.
  destruct (proj1 (bindDataAt_returns typ) Hs Hk val Hv) as [[val' err] ->].
  by exists val', err.
Qed.

End ReturnsWalk.

Section EmbeddedPointer.

Variable ParseFloat : string -> Z -> spec_float + error.
Variable data : Values.
Variable tag : string.

(** X19.  An embedded pointer that is not nil, points at a value that is
    no struct, can be set and has a tag whose key is in the map makes the
    pass over the field panic: line 165 hands the pointee to
    [unmarshalField] with the kind of the pointer, and [unmarshalFieldPtr]
    calls [IsNil], [Set] and [Elem] on a value that is no pointer. *)
Theorem tagged_embedded_pointer_panics (typeField : StructField) (elem : type)
    (pointee : Value) (x : string) (rest : list string) :
  Anonymous typeField = true -> Type_ typeField = TPtr elem ->
  kindOf elem <> Struct -> kindOf elem <> Ptr ->
  settable typeField ->
  Get (Tag typeField) tag <> "" ->
  lookupInput data (Get (Tag typeField) tag) = Some (x :: rest) ->
  bindField ParseFloat data tag (bindDataAt ParseFloat data tag) typeField
    (VPtr (Some pointee))
  = Panicked ReflectPanic.
Proof.
  intros Ha HT Hs Hp Hset Ht Hl. unfold bindField. rewrite Ha, HT. simpl.
  unfold bindSettable. cbv zeta. rewrite Hset, Ha, Hl. simpl.
  rewrite (bool_decide_eq_false_2 _ Hs). simpl.
  destruct (String.eqb_spec (Get (Tag typeField) tag) "") as [E|_]; [done|].
  unfold bindInput, index. simpl (_ !! _). simpl mbind at 1.
  rewrite HT. simpl. by destruct elem.
Qed.

End EmbeddedPointer.

(** ** The order of the map *)











Section MapOrder.

Variable ParseFloat : string -> Z -> spec_float + error.
Variable data data' : Values.
Variable tag : string.
Hypothesis Hlookup : forall name, lookupInput data name = lookupInput data' name.
Hypothesis Hlength : length data = length data'.





End MapOrder.

Section IterationOrder.

Variable ParseFloat : string -> Z -> spec_float + error.


End IterationOrder.

(** ** The scheme of a request *)

(** X21.  [Scheme] never returns the empty string, whatever the headers
    of the request hold and whatever the four header names are: a header
    is taken only when its value is not empty, and "http" is the last
    resort. *)
Theorem scheme_is_never_empty (HeaderXForwardedProto HeaderXForwardedProtocol
    HeaderXForwardedSSL HeaderXURLScheme : string) (r : Connection) :
  Scheme HeaderXForwardedProto HeaderXForwardedProtocol HeaderXForwardedSSL
    HeaderXURLScheme r <> "".
Proof.
  unfold Scheme. cbv zeta.
  destruct (IsTLS r); [done|].
  destruct (String.eqb_spec (HeaderGet r HeaderXForwardedProto) ""); simpl; [|done].
  destruct (String.eqb_spec (HeaderGet r HeaderXForwardedProtocol) ""); simpl; [|done].
  destruct (String.eqb (HeaderGet r HeaderXForwardedSSL) "on"); [done|].
  destruct (String.eqb_spec (HeaderGet r HeaderXURLScheme) ""); simpl; done.
Qed.

(** ** The responder *)

Lemma wrapInt_add w a b : 0 < w -> wrapInt w (wrapInt w a + b) = wrapInt w (a + b).
Proof.
  intros Hw. unfold wrapInt.
  replace ((a + 2 ^ (w - 1)) mod 2 ^ w - 2 ^ (w - 1) + b + 2 ^ (w - 1))
    with ((a + 2 ^ (w - 1)) mod 2 ^ w + b) by lia.
  rewrite Zplus_mod_idemp_l. f_equal. f_equal. lia.
Qed.

Lemma wrapInt_int64 x : - 2 ^ 63 <= wrapInt 64 x < 2 ^ 63.
Proof.
  unfold wrapInt. change (64 - 1) with 63.
  assert (E : 2 ^ 64 = 2 * 2 ^ 63) by reflexivity.
  pose proof (Z.mod_pos_bound (x + 2 ^ 63) (2 ^ 64) ltac:(lia)). lia.
Qed.

Section ResponderProperties.

Variable W : Type.
Variable hook : Type.
Variable WriterHeaderGet : string -> W -> string.
Variable WriterHeaderSet : string -> string -> W -> W.
Variable WriterWriteHeader : Z -> W -> W.
Variable WriterWrite : string -> W -> W * (Z * option error).
Variable LoggerPrintln : error -> W -> W.
Variable call : hook -> Responder W hook -> Responder W hook.
Variable HeaderContentType : string.
Variable HeaderLocation : string.

Abbreviation sendHeader := (WriteHeader WriterWriteHeader LoggerPrintln call).
Abbreviation sendDefault := (writeHeader WriterWriteHeader LoggerPrintln call).
Abbreviation send := (Write WriterWriteHeader WriterWrite LoggerPrintln call).
Abbreviation sendAll := (writes WriterWriteHeader WriterWrite LoggerPrintln call).
Abbreviation sendBlob :=
  (Blob WriterHeaderGet WriterHeaderSet WriterWriteHeader WriterWrite LoggerPrintln
     call HeaderContentType).
Abbreviation sendRedirect :=
  (Redirect WriterHeaderSet WriterWriteHeader LoggerPrintln call HeaderLocation).

Lemma WriteHeader_Committed code r : Committed (sendHeader code r) = true.
Proof. unfold WriteHeader. by destruct (Committed r) eqn:E. Qed.

Lemma writeHeader_Committed r : Committed (sendDefault r) = true.
Proof. apply WriteHeader_Committed. Qed.


(** X23.  On a responder without hooks that is not committed, [Blob]
    sets the content type unless the header has one, sends the header
    once, with the status code of the responder or 200 when that is not
    positive, and then the body; afterwards the responder is committed and
    its size has grown by the number of bytes that the writer took. *)
Theorem blob_sends_header_then_body (contentType b : string) (r : Responder W hook) :
  beforeFuncs r = [] -> afterFuncs r = [] -> Committed r = false ->
  let code := if StatusCode r <=? 0 then StatusOK else StatusCode r in
  let w1 := if String.eqb (WriterHeaderGet HeaderContentType (Writer r)) ""
            then WriterHeaderSet HeaderContentType contentType (Writer r)
            else Writer r in
  let sent := WriterWrite b (WriterWriteHeader code w1) in
  sendBlob contentType b r
  = ({| beforeFuncs := []; afterFuncs := []; Size := wrapInt 64 (Size r + sent.2.1);
        Committed := true; StatusCode := code; Writer := sent.1 |}, sent.2.2).
Proof.
  intros Hb Ha Hc. cbv zeta. unfold Blob, writeContentType.
  destruct r as [bf af size committed status w]. simpl in *. subst.
  destruct (String.eqb (WriterHeaderGet HeaderContentType w) "");
    unfold writeHeader, Write, WriteHeader; simpl;
    destruct (status <=? 0) eqn:Es; simpl;
    by destruct (WriterWrite b _) as [w3 [n err]].
Qed.

Lemma runAll_Size fns :
  (forall h r, Size (call h r) = Size r) ->
  forall r, Size (runAll call fns r) = Size r.
Proof.
  intros Hq. induction fns as [|fn fns IH]; intros r; simpl; [done|].
  by rewrite IH, Hq.
Qed.

Lemma writeHeader_Size r :
  (forall h r, Size (call h r) = Size r) -> Size (sendDefault r) = Size r.
Proof.
  intros Hq. unfold writeHeader, WriteHeader. cbv zeta.
  destruct (StatusCode r <=? 0); simpl; destruct (Committed r); simpl; try done;
    by rewrite runAll_Size.
Qed.

Lemma Write_Size b r :
  (forall h r, Size (call h r) = Size r) ->
  Size (send b r).1 = wrapInt 64 (Size r + (send b r).2.1).
Proof.
  intros Hq. unfold Write. cbv zeta.
  destruct (negb (Committed r)).
  - destruct (WriterWrite b (Writer (sendDefault r))) as [w [n err]]. simpl.
    rewrite runAll_Size by done. simpl. by rewrite writeHeader_Size.
  - destruct (WriterWrite b (Writer r)) as [w [n err]]. simpl.
    by rewrite runAll_Size.
Qed.

(** X24.  [Size] counts the bytes: with hooks that leave [Size] alone,
    after any number of calls of [Write] the size of the responder is its
    size before plus the numbers of bytes that the calls returned, as an
    [int64]; the header that the first call may send adds nothing. *)
Theorem size_counts_written_bytes (bs : list string) (r r' : Responder W hook)
    (ns : list Z) :
  (forall h r, Size (call h r) = Size r) ->
  - 2 ^ 63 <= Size r < 2 ^ 63 ->
  sendAll bs r = (r', ns) ->
  Size r' = wrapInt 64 (Size r + foldr Z.add 0 ns).
Proof.
  intros Hq. revert r r' ns.
  induction bs as [|b bs IH]; intros r r' ns Hr; simpl.
  - intros [= <- <-]. simpl. rewrite Z.add_0_r. symmetry. by apply wrapInt_same.
  - pose proof (Write_Size b r Hq) as Hs.
    destruct (send b r) as [r1 [n err]]. simpl in Hs.
    destruct (sendAll bs r1) as [r2 ns'] eqn:E.
    intros [= <- <-]. simpl.
    rewrite (IH r1 r2 ns'); [|rewrite Hs; apply wrapInt_int64|done].
    rewrite Hs, wrapInt_add by lia. f_equal. lia.
Qed.

(** X25.  [Redirect] needs a redirect status: with a status code below
    300 or above 308, as on a responder whose status was never set, it
    returns "invalid redirect status code" and touches nothing; with a
    status code from 300 to 308 it returns nil and the responder is
    committed, and when the responder was not committed and has no hook to
    run before, the writer got the [Location] header and then the header
    with that status code. *)
Theorem redirect_needs_redirect_status (url : string) (r : Responder W hook) :
  (StatusCode r < 300 \/ 308 < StatusCode r ->
   sendRedirect url r = (r, Some errInvalidRedirectCode)) /\
  (300 <= StatusCode r <= 308 ->
   exists r', sendRedirect url r = (r', None) /\ Committed r' = true /\
     (Committed r = false -> beforeFuncs r = [] ->
      StatusCode r' = StatusCode r /\
      Writer r' = WriterWriteHeader (StatusCode r)
                    (WriterHeaderSet HeaderLocation url (Writer r)))).
Proof.
  unfold Redirect. split.
  - intros H. replace ((StatusCode r <? 300) || (308 <? StatusCode r)) with true; [done|].
    symmetry. apply orb_true_iff. destruct H; [left|right]; by apply Z.ltb_lt.
  - intros H. replace ((StatusCode r <? 300) || (308 <? StatusCode r)) with false.
    + eexists. split; [done|]. split; [apply writeHeader_Committed|].
      intros Hc Hb. unfold writeHeader, WriteHeader. simpl.
      replace (StatusCode r <=? 0) with false by (symmetry; apply Z.leb_gt; lia).
      simpl. rewrite Hc, Hb. done.
    + symmetry. apply orb_false_iff. split; apply Z.ltb_ge; lia.
Qed.

End ResponderProperties.

(** ** The answer to an error *)

Section ErrorHandlerProperties.

Variable W : Type.
Variable hook : Type.
Variable WriterHeaderGet : string -> W -> string.
Variable WriterHeaderSet : string -> string -> W -> W.
Variable WriterWriteHeader : Z -> W -> W.
Variable WriterWrite : string -> W -> W * (Z * option error).
Variable LoggerPrintln : error -> W -> W.
Variable call : hook -> Responder W hook -> Responder W hook.
Variable HeaderContentType : string.
Variable MIMETextPlainCharsetUTF8 : string.
Variable StatusText : Z -> string.
Variable messageText : message -> string.
Variable errorText : error -> string.

Abbreviation handle :=
  (HandleHTTPError WriterHeaderGet WriterHeaderSet WriterWriteHeader WriterWrite
     LoggerPrintln call HeaderContentType MIMETextPlainCharsetUTF8 StatusText
     messageText errorText).

Lemma handle_sends req (res : Responder W hook) err code text :
  Committed res = false -> beforeFuncs res = [] -> afterFuncs res = [] ->
  (if code <=? 0 then StatusOK else code) = answerCode err ->
  let res1 := Status code res in
  let res' :=
    (let '(res2, resErr) :=
       if String.eqb (Method req) MethodHead
       then NoContent WriterWriteHeader LoggerPrintln call res1
       else String' WriterHeaderGet WriterHeaderSet WriterWriteHeader WriterWrite
              LoggerPrintln call HeaderContentType MIMETextPlainCharsetUTF8 text res1 in
     match resErr with
     | Some e => withWriter (LoggerPrintln e (Writer res2)) res2
     | None => res2
     end) in
  Committed res' = true /\ StatusCode res' = answerCode err /\
  (Method req = MethodHead ->
   Size res' = Size res /\
   Writer res' = WriterWriteHeader (answerCode err) (Writer res)).
Proof.
  intros Hc Hb Ha Hcode. destruct res as [bf af size committed status w].
  simpl in Hc, Hb, Ha. subst. cbv zeta.
  destruct (String.eqb_spec (Method req) MethodHead) as [Hm|Hm].
  - unfold NoContent, writeHeader, WriteHeader, Status. simpl.
    destruct (code <=? 0); simpl; rewrite <- Hcode; done.
  - unfold String', Blob, writeContentType, writeHeader, Write, WriteHeader, Status.
    simpl.
    destruct (String.eqb (WriterHeaderGet HeaderContentType w) ""); simpl;
      destruct (code <=? 0); simpl;
      destruct (WriterWrite text _) as [w3 [n [e|]]]; simpl; rewrite <- Hcode; done.
Qed.

(** X26.  The default error handler leaves a committed response alone.
    On a responder without hooks that is not committed it answers with the
    code of the error when the error is an [*HTTPError], and with 500 when
    it is not; a code that is not positive goes out as 200.  Afterwards the
    responder is committed, and for a HEAD request the writer got the
    header and nothing else. *)
Theorem error_is_answered_with_its_code (expose : bool) (req : Request)
    (res : Responder W hook) (err : error) :
  (Committed res = true -> handle expose req res err = res) /\
  (Committed res = false -> beforeFuncs res = [] -> afterFuncs res = [] ->
   Committed (handle expose req res err) = true /\
   StatusCode (handle expose req res err) = answerCode err /\
   (Method req = MethodHead ->
    Size (handle expose req res err) = Size res /\
    Writer (handle expose req res err)
    = WriterWriteHeader (answerCode err) (Writer res))).
Proof.
  split.
  - intros Hc. unfold HandleHTTPError. by rewrite Hc.
  - intros Hc Hb Ha. unfold HandleHTTPError. rewrite Hc.
    destruct err as [s|f n e|t|t|l m|inner code msg]; simpl asHTTPError; cbv iota beta.
    1-5: match goal with
         | |- context [errorText ?e] =>
             exact (handle_sends req res e StatusInternalServerError
                      (if expose then errorText e
                       else StatusText StatusInternalServerError)
                      Hc Hb Ha eq_refl)
         end.
    exact (handle_sends req res (HTTPError inner code msg) code
             (if expose then errorText (HTTPError inner code msg) else messageText msg)
             Hc Hb Ha eq_refl).
Qed.

Section BindAnswer.

Variable ParseFloat : string -> Z -> spec_float + error.
Variable jsonDecode : string -> Destination -> Destination * option error.
Variable xmlDecode : string -> Destination -> Destination * option error.

(** X27.  A handler that returns the error of [Bind] gets the answer 400
    or 415: when the JSON decoder returns no [*HTTPError] of its own, the
    default error handler answers every error of [Bind], on a responder
    without hooks that is not committed, with status 400 (Bad Request) or,
    for a body of an unknown media type, 415. *)
Theorem bind_error_is_answered_400_or_415 (expose : bool) (req : Request)
    (v v' : Destination) (err : error) (res : Responder W hook) :
  Bind ParseFloat jsonDecode xmlDecode req v = Done (v', Some err) ->
  (forall i e, jsonDecode (Body req) v = (i, Some e) -> isHTTPError e = false) ->
  Committed res = false -> beforeFuncs res = [] -> afterFuncs res = [] ->
  StatusCode (handle expose req res err) = StatusBadRequest \/
  StatusCode (handle expose req res err) = StatusUnsupportedMediaType.
Proof.
  intros HB Hj Hc Hb Ha.
  assert (H : wraps err \/ err = ErrUnsupportedMediaType).
  { revert HB. unfold Bind. cbv zeta. destruct (_ || _).
    - destruct (BindBody ParseFloat jsonDecode xmlDecode req v)
        as [[v1 [e1|]]|] eqn:Eb; simpl; [| |done].
      + intros [= <- <-].
        destruct (BindBody_error _ _ _ _ _ _ _ Eb) as [?|[?|[Hh Hd]]]; [by left|by right|].
        apply Hj in Hd. congruence.
      + intros HQ. left. by eapply BindQueryParams_error.
    - intros HQ. left. by eapply BindQueryParams_error. }
  assert (Hs : StatusCode (handle expose req res err) = answerCode err).
  { unfold HandleHTTPError. rewrite Hc.
    destruct H as [(inner & msg & -> & _)| ->]; simpl asHTTPError; cbv iota beta.
    - exact (proj1 (proj2 (handle_sends req res
               (HTTPError (Some inner) StatusBadRequest msg) StatusBadRequest
               (if expose then errorText (HTTPError (Some inner) StatusBadRequest msg)
                else messageText msg) Hc Hb Ha eq_refl))).
    - exact (proj1 (proj2 (handle_sends req res ErrUnsupportedMediaType
               StatusUnsupportedMediaType
               (if expose then errorText ErrUnsupportedMediaType
                else messageText (StatusMessage StatusUnsupportedMediaType))
               Hc Hb Ha eq_refl))). }
  rewrite Hs. destruct H as [(inner & msg & -> & _)| ->]; [by left|by right].
Qed.

End BindAnswer.

End ErrorHandlerProperties.

(** ** The further theorems at sample inputs *)

(** [name], which is not exported, keeps "old" while [Name] is bound. *)
Lemma unexported_field_kept_witness :
  exists vals',
    Pointer Fixture.tAccount (Some (VStruct [VString "old"; VString "bob"]))
    = Pointer Fixture.tAccount (Some (VStruct vals')) /\
    vals' !! 0%nat = [VString "old"; VString ""] !! 0%nat.
Proof.
  exact (unexported_field_kept Sample.ParseFloat [("name", ["bob"])] "query"
           [Sample.fname; Sample.fName] Sample.main [VString "old"; VString ""] 0
           Sample.fname
           (Pointer Fixture.tAccount (Some (VStruct [VString "old"; VString "bob"])))
           None eq_refl eq_refl eq_refl).
Defined.


(** [ID] has no tag and [*ID] has [UnmarshalParam]: the walk does not go
    into it, although its field [Raw] is tagged with a key of the map. *)
Lemma untagged_field_kept_witness :
  exists vals',
    Pointer Fixture.tTagged (Some (VStruct [VStruct [VString "raw0"]; VString "bob"]))
    = Pointer Fixture.tTagged (Some (VStruct vals')) /\
    vals' !! 0%nat = [VStruct [VString "raw0"]; VString ""] !! 0%nat.
Proof.
  exact (untagged_field_kept Sample.ParseFloat [("raw", ["x"]); ("name", ["bob"])]
           "query" [Sample.fID; Sample.fName] Sample.main
           [VStruct [VString "raw0"]; VString ""] 0 Sample.fID
           (Pointer Fixture.tTagged
              (Some (VStruct [VStruct [VString "raw0"]; VString "bob"])))
           None eq_refl eq_refl (or_intror eq_refl) eq_refl).
Defined.

(** The form [n=abc&status=new] stops at [N]; [Status] keeps "old". *)
Lemma error_stops_the_walk_witness :
  exists k typeField field field' vals',
    Pointer Fixture.tForm (Some (VStruct [VInt 3; VString "old"]))
    = Pointer Fixture.tForm (Some (VStruct vals')) /\
    [Sample.fN; Sample.fStatus] !! k = Some typeField /\
    [VInt 3; VString "old"] !! k = Some field /\
    sampleField [("n", ["abc"]); ("status", ["new"])] "form" typeField field
    = Done (field', Return Fixture.badN) /\
    vals' !! k = Some field' /\
    forall j, (k < j)%nat -> vals' !! j = [VInt 3; VString "old"] !! j.
Proof.
  exact (error_stops_the_walk Sample.ParseFloat [("n", ["abc"]); ("status", ["new"])]
           "form" [Sample.fN; Sample.fStatus] Sample.main [VInt 3; VString "old"]
           (Pointer Fixture.tForm (Some (VStruct [VInt 3; VString "old"])))
           Fixture.badN eq_refl).
Defined.

(** "-128" in an [int8]. *)
Lemma integer_field_holds_parsed_value_witness :
  exists n bitSize, VInt (-128) = VInt n /\ strconv.width bitSize = 8 /\
    strconv.ParseInt (orZero "-128") bitSize = inl n /\
    - 2 ^ (8 - 1) <= n < 2 ^ (8 - 1).
Proof.
  exact (proj1 (integer_field_holds_parsed_value Sample.ParseFloat Sample.tInt8
                  "-128" (VInt 0) (VInt (-128)) 8 (conj eq_refl eq_refl)
                  eq_refl eq_refl) eq_refl).
Defined.

(** A value for a field of type [Inner], a struct without decoder. *)
Lemma unsupported_kind_is_unknown_type_witness :
  sampleCoerce Struct "x" Sample.tInner (VStruct [VInt 0])
  = Done (VStruct [VInt 0], Some errUnknownType).
Proof.
  exact (proj1 (unsupported_kind_is_unknown_type Sample.ParseFloat Sample.tInner
                  "x" (VStruct [VInt 0]) (conj eq_refl eq_refl) eq_refl)).
Defined.

(** "abc" for a nil [*int]: the error, and a pointer to 0. *)
Lemma pointer_allocated_on_error_witness :
  exists x, VPtr (Some (VInt 0)) = VPtr (Some x) /\
    sampleCoerce Int "abc" Sample.tInt (default (zero Sample.tInt) None)
    = Done (x, Some Fixture.badN).
Proof.
  exact (pointer_allocated_on_error Sample.ParseFloat "abc" Sample.tInt None
           (VPtr (Some (VInt 0))) (Some Fixture.badN) eq_refl).
Defined.

(** [when=a&when=b] for a [Stamp]: [UnmarshalText] gets "a". *)
Lemma decoder_binds_first_value_witness :
  sampleField [("when", ["a"; "b"])] "query" Fixture.fWhen (VStruct [VString ""])
  = Done (VStruct [VString "a"], Continue).
Proof.
  refine (decoder_binds_first_value Sample.ParseFloat [("when", ["a"; "b"])] "query"
            Fixture.fWhen (VStruct [VString ""]) Sample.storeText "a" ["b"]
            eq_refl _ _ eq_refl (or_intror (conj eq_refl eq_refl))).
  - intros H. discriminate H.
  - discriminate.
Defined.

(** The same for a nil [*Stamp]. *)
Lemma decoder_binds_pointee_witness :
  sampleField [("when", ["a"; "b"])] "query" Fixture.fWhenPtr (VPtr None)
  = Done (VPtr (Some (VStruct [VString "a"])), Continue).
Proof.
  refine (decoder_binds_pointee Sample.ParseFloat [("when", ["a"; "b"])] "query"
            Fixture.fWhenPtr Sample.tStamp None Sample.storeText "a" ["b"]
            eq_refl eq_refl eq_refl _ eq_refl (or_intror (conj eq_refl eq_refl))).
  discriminate.
Defined.

(** [b=2&b=3] into the map [{a: 1}]. *)
Lemma map_target_gets_first_values_witness :
  exists m' : gmap string Value,
    sampleBind (Pointer Fixture.tDict (Some (VMap (Some {["a" := VString "1"]}))))
      [("b", ["2"; "3"])] "query"
    = Done (Pointer Fixture.tDict (Some (VMap (Some m'))), None) /\
    (forall k x rest, (k, x :: rest) ∈ [("b", ["2"; "3"])] -> m' !! k = Some (VString x)) /\
    (forall k, k ∉ [("b", ["2"; "3"])].*1 -> m' !! k = ({["a" := VString "1"]} : gmap string Value) !! k).
Proof.
  refine (map_target_gets_first_values Sample.ParseFloat Sample.tString Sample.tString
            plain {["a" := VString "1"]} [("b", ["2"; "3"])] "query"
            eq_refl eq_refl _ _ _).
  - discriminate.
  - repeat constructor. discriminate.
  - simpl. apply NoDup_singleton.
Defined.

(** [a=1] into a nil [map[string]string]. *)
Lemma map_target_not_made_witness :
  sampleBind (Pointer Fixture.tDict (Some (VMap None))) [("a", ["1"])] "query"
  = Panicked ReflectPanic.
Proof.
  refine (map_target_not_made Sample.ParseFloat Sample.tString Sample.tString plain
            None [("a", ["1"])] "query" _ _ (or_introl eq_refl)).
  - discriminate.
  - repeat constructor. discriminate.
Defined.

(** The form [n=abc] is answered with status 400 around the error of
    [strconv]. *)
Lemma bind_error_has_status_witness :
  isHTTPError (HTTPError (Some Fixture.badN) StatusBadRequest (ErrorMessage Fixture.badN))
  = true /\
  ((exists inner msg,
       HTTPError (Some Fixture.badN) StatusBadRequest (ErrorMessage Fixture.badN)
       = HTTPError (Some inner) StatusBadRequest msg /\
       Unwrap (HTTPError (Some Fixture.badN) StatusBadRequest (ErrorMessage Fixture.badN))
       = Some inner)
   \/ HTTPError (Some Fixture.badN) StatusBadRequest (ErrorMessage Fixture.badN)
      = ErrUnsupportedMediaType
   \/ Sample.jsonDecode (Body Sample.reqForm) (Pointer Sample.tTodo (Some Sample.vTodo))
      = (Pointer Sample.tTodo (Some (VStruct [VString "pending"; VInt 0])),
         Some (HTTPError (Some Fixture.badN) StatusBadRequest (ErrorMessage Fixture.badN)))).
Proof.
  exact (bind_error_has_status Sample.ParseFloat Sample.jsonDecode Sample.xmlDecode
           Sample.reqForm (Pointer Sample.tTodo (Some Sample.vTodo))
           (Pointer Sample.tTodo (Some (VStruct [VString "pending"; VInt 0])))
           (HTTPError (Some Fixture.badN) StatusBadRequest (ErrorMessage Fixture.badN))
           eq_refl).
Defined.

(** [GET /todos] with a nil [*Todo]. *)
Lemma bind_nothing_is_noop_witness :
  sampleBindAll Fixture.reqGet (Pointer Sample.tTodo None)
  = Done (Pointer Sample.tTodo None, None).
Proof.
  refine (bind_nothing_is_noop Sample.ParseFloat Sample.jsonDecode Sample.xmlDecode
            Fixture.reqGet (Pointer Sample.tTodo None) (or_intror eq_refl) eq_refl).
Defined.

(** [status=a&status=b&n=1&n=2] into a [Todo]. *)
Lemma only_first_values_are_read_witness :
  sampleBind (Pointer Sample.tTodo (Some Sample.vTodo))
    (firsts [("status", ["a"; "b"]); ("n", ["1"; "2"])]) "form"
  = sampleBind (Pointer Sample.tTodo (Some Sample.vTodo))
      [("status", ["a"; "b"]); ("n", ["1"; "2"])] "form".
Proof.
  exact (only_first_values_are_read Sample.ParseFloat
           [("status", ["a"; "b"]); ("n", ["1"; "2"])] "form" Sample.tTodo
           (Some Sample.vTodo) eq_refl).
Defined.

(** "yes" is no boolean for [strconv]: the field keeps [true]. *)
Lemma coercion_error_leaves_field_witness :
  sampleCoerce Bool "yes" Fixture.tBool (VBool true)
  = Done (VBool true, Some (NumError "ParseBool" "yes" strconv.ErrSyntax)) /\
  VBool true = VBool true.
Proof.
  split; [reflexivity|].
  refine (coercion_error_leaves_field Sample.ParseFloat Fixture.tBool "yes"
            (VBool true) (VBool true) (NumError "ParseBool" "yes" strconv.ErrSyntax)
            (conj eq_refl eq_refl) _ eq_refl).
  discriminate.
Defined.

(** [PUT /todos?status=done]: [Status] is [QueryParam("status")]. *)
Lemma bound_string_is_query_param_witness :
  QueryParam Sample.reqPut "status" = "done" /\
  [VString "done"; VInt 0] !! length (@nil StructField)
  = Some (VString (QueryParam Sample.reqPut (Get (Tag Sample.fStatus) "query"))).
Proof.
  split; [reflexivity|].
  refine (bound_string_is_query_param Sample.ParseFloat Sample.jsonDecode
            Sample.xmlDecode Sample.reqPut (Pointer Sample.tTodo (Some Sample.vTodo))
            [] [Sample.fN] Sample.fStatus plain Sample.main
            [VString "done"; VInt 0] eq_refl eq_refl eq_refl (conj eq_refl eq_refl) _ _);
    discriminate.
Defined.

(** A [PUT] of [text/plain]: 415, and [status=done] is not bound. *)
Lemma unknown_media_type_binds_nothing_witness :
  sampleBindAll Fixture.reqText (Pointer Sample.tTodo (Some Sample.vTodo))
  = Done (Pointer Sample.tTodo (Some Sample.vTodo), Some ErrUnsupportedMediaType).
Proof.
  refine (unknown_media_type_binds_nothing Sample.ParseFloat Sample.jsonDecode
            Sample.xmlDecode Fixture.reqText (Pointer Sample.tTodo (Some Sample.vTodo))
            (or_intror (or_introl eq_refl)) _ _).
  - discriminate.
  - repeat split; reflexivity.
Defined.

(** A struct with an embedded pointer, a slice and a string. *)
Lemma shaped_target_never_panics_witness :
  exists val' err,
    sampleBind (Pointer Fixture.tDeep (Some Fixture.vDeep)) Fixture.deepQuery "query"
    = Done (Pointer Fixture.tDeep (Some val'), err).
Proof.
  refine (shaped_target_never_panics Sample.ParseFloat Fixture.deepQuery "query" _
            Fixture.tDeep Fixture.vDeep eq_refl _ eq_refl).
  - repeat constructor; discriminate.
  - discriminate.
Defined.

(** [*Count `query:"count"`], embedded, with [count=1]. *)
Lemma tagged_embedded_pointer_panics_witness :
  sampleField [("count", ["1"])] "query" Sample.fCount (VPtr (Some (VInt 0)))
  = Panicked ReflectPanic.
Proof.
  refine (tagged_embedded_pointer_panics Sample.ParseFloat [("count", ["1"])] "query"
            Sample.fCount Sample.tCount (VInt 0) "1" [] eq_refl eq_refl _ _ eq_refl _
            eq_refl); discriminate.
Defined.


(** With the keys [NAME] and [Name] and a field tagged [name], the value
    that is bound is the one that the scan meets first. *)
Example case_collision_depends_on_order :
  sampleField [("NAME", ["a"]); ("Name", ["b"])] "query"
    (Sample.field "Name" Sample.tString [("query", "name")]) (VString "")
    = Done (VString "a", Continue) /\
  sampleField [("Name", ["b"]); ("NAME", ["a"])] "query"
    (Sample.field "Name" Sample.tString [("query", "name")]) (VString "")
    = Done (VString "b", Continue).
Proof. split; reflexivity. Qed.

(** [Blob("text/plain", "hi")] on a new responder and a writer that
    records. *)
Lemma blob_sends_header_then_body_witness :
  Blob Fixture.headerGet Fixture.headerSet Fixture.sendStatus Fixture.sendBytes
    Fixture.logNothing Fixture.idle "Content-Type" "text/plain" "hi" Fixture.fresh
  = ({| beforeFuncs := []; afterFuncs := []; Size := 2; Committed := true;
        StatusCode := 200;
        Writer := ([("Content-Type", "text/plain")], ["status 200"; "hi"]) |}, None).
Proof.
  exact (blob_sends_header_then_body Fixture.recorder unit Fixture.headerGet
           Fixture.headerSet Fixture.sendStatus Fixture.sendBytes Fixture.logNothing
           Fixture.idle "Content-Type" "text/plain" "hi" Fixture.fresh
           eq_refl eq_refl eq_refl).
Defined.

(** Two calls of [Write], of two and of three bytes. *)
Lemma size_counts_written_bytes_witness :
  Size ({| beforeFuncs := []; afterFuncs := []; Size := 5; Committed := true;
           StatusCode := 200;
           Writer := ([], ["status 200"; "ab"; "cde"]) |}
        : Responder Fixture.recorder unit)
  = wrapInt 64 (Size Fixture.fresh + foldr Z.add 0 [2; 3]).
Proof.
  refine (size_counts_written_bytes Fixture.recorder unit Fixture.sendStatus
            Fixture.sendBytes Fixture.logNothing Fixture.idle ["ab"; "cde"]
            Fixture.fresh _ [2; 3] (fun _ _ => eq_refl) _ eq_refl).
  simpl. lia.
Defined.

(** [Redirect] on a new responder, whose status code is 0. *)
Lemma redirect_needs_redirect_status_witness :
  Redirect Fixture.headerSet Fixture.sendStatus Fixture.logNothing Fixture.idle
    "Location" "/login" Fixture.fresh
  = (Fixture.fresh, Some errInvalidRedirectCode).
Proof.
  refine (proj1 (redirect_needs_redirect_status Fixture.recorder unit
                   Fixture.headerSet Fixture.sendStatus Fixture.logNothing
                   Fixture.idle "Location" "/login" Fixture.fresh) _).
  left. simpl. lia.
Defined.

Abbreviation sampleHandle :=
  (HandleHTTPError Fixture.headerGet Fixture.headerSet Fixture.sendStatus
     Fixture.sendBytes Fixture.logNothing Fixture.idle "Content-Type"
     "text/plain; charset=UTF-8" Fixture.statusText Fixture.messageText
     Fixture.errorText).

(** An error that is no [*HTTPError] is answered with 500. *)
Lemma error_is_answered_with_its_code_witness :
  StatusCode (sampleHandle false Sample.reqForm Fixture.fresh Fixture.badN) = 500.
Proof.
  exact (proj1 (proj2 (proj2 (error_is_answered_with_its_code Fixture.recorder unit
           Fixture.headerGet Fixture.headerSet Fixture.sendStatus Fixture.sendBytes
           Fixture.logNothing Fixture.idle "Content-Type" "text/plain; charset=UTF-8"
           Fixture.statusText Fixture.messageText Fixture.errorText
           false Sample.reqForm Fixture.fresh Fixture.badN) eq_refl eq_refl eq_refl))).
Defined.

(** The form [n=abc] is answered with 400. *)
Lemma bind_error_is_answered_400_or_415_witness :
  StatusCode (sampleHandle false Sample.reqForm Fixture.fresh
                (HTTPError (Some Fixture.badN) StatusBadRequest
                   (ErrorMessage Fixture.badN))) = StatusBadRequest \/
  StatusCode (sampleHandle false Sample.reqForm Fixture.fresh
                (HTTPError (Some Fixture.badN) StatusBadRequest
                   (ErrorMessage Fixture.badN))) = StatusUnsupportedMediaType.
Proof.
  refine (bind_error_is_answered_400_or_415 Fixture.recorder unit
            Fixture.headerGet Fixture.headerSet Fixture.sendStatus Fixture.sendBytes
            Fixture.logNothing Fixture.idle "Content-Type" "text/plain; charset=UTF-8"
            Fixture.statusText Fixture.messageText Fixture.errorText
            Sample.ParseFloat Sample.jsonDecode Sample.xmlDecode
            false Sample.reqForm (Pointer Sample.tTodo (Some Sample.vTodo))
            (Pointer Sample.tTodo (Some (VStruct [VString "pending"; VInt 0])))
            (HTTPError (Some Fixture.badN) StatusBadRequest (ErrorMessage Fixture.badN))
            Fixture.fresh eq_refl _ eq_refl eq_refl eq_refl).
  intros i e H. simpl in H. injection H as _ <-. reflexivity.
Defined.
